(** * Travel-plan agent: the time-constrained itinerary scheduler

    A shallow embedding of the scheduling core of the travel-plan agent
    ([api_tools.py], [planning_tools.py], [llm_agent.py], [nodes.py],
    [graph.py]) and of its company directory ([company_manager.py]),
    together with the properties stated about them.

    Conventions of the embedding.
    - Python floats and [datetime] instants are exact rationals ([Q]); an
      instant is a number of minutes on a fixed time line and
      [timedelta(minutes=m)] is the addition of [m].
    - The scoring function is also given in binary64, over the kernel's
      primitive floats ([Binary64.calculate_final_score]): what is stated
      about the value of a score is stated about that one.
    - A Python dict with a fixed set of possible keys is a record whose
      optional keys are [option] fields ([None]: the key is absent).
    - The routing service, the geocoder, the search providers, the two
      reasoning services and the company directory are parameters of the
      development: the code is verified against every behaviour of its
      environment.
    - The data file of the directory is a value handed to and returned by
      the functions that read and write it.
    - Calls to the routing service are effects: they are threaded through a
      state monad over a [World] that counts the requests sent so far and
      logs the back-off sleeps. *)

From Stdlib Require Import String Ascii.
From Stdlib Require Import QArith ZArith List Bool Arith Lia Lqa Permutation Sorted.
From Stdlib Require Import DecimalString.
From Stdlib Require Import PrimFloat.
Import ListNotations.

Open Scope string_scope.
Open Scope list_scope.
Open Scope Q_scope.

(** Decimal literals of floats denote the nearest binary64 value, as in
    Python. *)
Set Warnings "-inexact-float".

(** ** State monad over the outside world *)

Record World : Type := mkWorld
  { requests : nat        (* routing requests sent so far *)
  ; sleeps : list Q       (* [time.sleep] calls so far, oldest first *)
  }.

Definition M (A : Type) : Type := World -> A * World.

Definition ret {A : Type} (a : A) : M A := fun w => (a, w).

Definition bind {A B : Type} (m : M A) (k : A -> M B) : M B :=
  fun w => let (a, w') := m w in k a w'.

Declare Scope io_scope.
Delimit Scope io_scope with io.
Notation "x <- m ;; k" := (bind m (fun x => k))
  (at level 100, m at next level, right associativity) : io_scope.
Notation "m ;;; k" := (bind m (fun _ => k))
  (at level 100, right associativity) : io_scope.
Open Scope io_scope.

(** ** config.py *)

Definition COMPANY_VISIT_DURATION_MINUTES : Q := 45.
Definition POST_ARRIVAL_BUFFER_MINUTES : Q := 30.

Record Weights : Type := mkWeights
  { alpha : Q; beta : Q; gamma : Q; delta : Q }.

Definition WEIGHTS : Weights :=
  {| alpha := 5 # 10; beta := 3 # 10; gamma := 1 # 10; delta := 5 # 100 |}.

(** ** state.py *)

Record Location : Type := mkLocation
  { loc_city : string
  ; loc_address : option string
  ; loc_name : option string
  ; loc_lat : option Q
  ; loc_lon : option Q
  }.

Inductive ItemType : Type :=
  | transport | company_visit | meeting | hotel.

(** One inter-city departure option, as the search providers return it. *)
Record Offer : Type := mkOffer
  { offer_type : option string
  ; offer_id : option string
  ; departure_time : option string
  ; arrival_time : option string
  ; departure_hub : option string
  ; arrival_hub : option string
  ; price : option Q
  ; duration : option string
  }.

(** The [details] dict of an itinerary item, by the shapes the nodes build. *)
Inductive Details : Type :=
  | details_duration_min (minutes : Q)
  | details_company_name (n : string)
  | details_transport (raw_option : Offer)
      (home_commute_min arrival_commute_min final_arrival_at_venue : Q)
  | details_other.

Record ItineraryItem : Type := mkItem
  { item_type : ItemType
  ; item_description : string
  ; start_time : Q
  ; end_time : Q
  ; item_location : Location
  ; item_details : Details
  }.

Record UserData : Type := mkUserData
  { departure_date : string
  ; meeting_start_dt : Q
  }.

(** The shared graph state; a key that was never written is [None]. *)
Record TravelPlanState : Type := mkState
  { user_input : option string
  ; user_data : option UserData
  ; flight_options : option (list Offer)
  ; train_options : option (list Offer)
  ; selected_option_raw : option Offer
  ; selected_transport : option ItineraryItem
  ; pre_meeting_route : option (list ItineraryItem)
  ; post_meeting_route : option (list ItineraryItem)
  ; final_itinerary : option (list ItineraryItem)
  ; final_itinerary_report : option string
  ; home_location : option Location
  ; meeting_location : option Location
  ; hotel_location : option Location
  ; error_message : option string
  }.

(** One [key: value] pair of the dict a node returns. *)
Inductive Assignment : Type :=
  | set_user_data (v : UserData)
  | set_flight_options (v : list Offer)
  | set_train_options (v : list Offer)
  | set_selected_option_raw (v : Offer)
  | set_selected_transport (v : ItineraryItem)
  | set_pre_meeting_route (v : list ItineraryItem)
  | set_post_meeting_route (v : list ItineraryItem)
  | set_final_itinerary (v : list ItineraryItem)
  | set_final_itinerary_report (v : string)
  | set_home_location (v : Location)
  | set_meeting_location (v : Location)
  | set_hotel_location (v : Location)
  | set_error_message (v : option string)
  | set_final_arrival_at_venue (v : Q).   (* not a key of the state schema *)

(** ** api_tools.py: the routing client *)

Definition MAX_RETRIES : nat := 3.
Definition INITIAL_WAIT_TIME : Q := 1.

(** The JSON body of a routing answer, reduced to the keys the client reads:
    [paths] is [data['route']['paths']], one optional [duration] (seconds)
    per path; a missing [route] is an empty list (both raise in the source). *)
Record RouteBody : Type := mkBody
  { body_status : string
  ; body_count : Z
  ; body_info : option string
  ; body_paths : list (option Z)
  }.

Inductive Response : Type :=
  | RequestException            (* network or HTTP failure *)
  | Json (data : RouteBody).

(** What a request carries: the "lon,lat" pairs of both endpoints. *)
Definition Coords : Type := (option Q * option Q)%type.

Definition coords_of (l : Location) : Coords := (loc_lon l, loc_lat l).

(** Truthiness of [loc.get('lat')]: absent and [0.0] are both falsy. *)
Definition truthy (x : option Q) : bool :=
  match x with
  | Some q => negb (Qeq_bool q 0)
  | None => false
  end.

Definition upper_ascii (c : ascii) : ascii :=
  let n := nat_of_ascii c in
  if ((97 <=? n) && (n <=? 122))%nat then ascii_of_nat (n - 32) else c.

Fixpoint upper (s : string) : string :=
  match s with
  | EmptyString => EmptyString
  | String c t => String (upper_ascii c) (upper t)
  end.

(** Python's [needle in hay]. *)
Definition contains (needle hay : string) : bool :=
  match index 0 needle hay with
  | Some _ => true
  | None => false
  end.

Definition error_reason (data : RouteBody) : string :=
  match body_info data with
  | Some i => i
  | None => "未知错误"
  end.

Definition is_limit_error (data : RouteBody) : bool :=
  (body_status data =? "0")%string &&
  (contains "LIMIT" (upper (error_reason data)) ||
   contains "QUOTA" (upper (error_reason data))).

Definition is_success (data : RouteBody) : bool :=
  (body_status data =? "1")%string && (0 <? body_count data)%Z.

Definition duration_seconds (path : option Z) : Z :=
  match path with
  | Some d => d
  | None => 0%Z
  end.

(** ** Data carried by the planner (planning_tools.py) *)

(** An entry of the company directory ([COMPANIES_DB], loaded from a JSON
    file): every key may be missing, and a coordinate may be [null]. *)
Record DirectoryEntry : Type := mkEntry
  { db_id : option string
  ; db_name : option string
  ; db_address : option string
  ; db_lat : option (option Q)
  ; db_lon : option (option Q)
  }.

(** The dict the planner carries for a candidate company. *)
Record Company : Type := mkCompany
  { name : string
  ; location : Location
  ; driving_time_min : option Q
  ; T_hub_to_i : option Q
  ; T_i_to_meeting : option Q
  ; T_total_trip : option Q
  ; T_buffer : option Q
  ; T_prev_to_i : option Q
  ; S_attract : option Q
  ; S_feas : option Q
  ; S_final : option Q
  }.

(** An element of the tentative plan returned by the greedy pass. *)
Record Visit : Type := mkVisit
  { visit_name : string
  ; visit_type : ItemType
  ; visit_description : string
  ; visit_start_time : Q
  ; visit_end_time : Q
  ; visit_location : Location
  }.

(** A call either returns or lets a [KeyError] escape. *)
Inductive Outcome (A : Type) : Type :=
  | Returns (a : A)
  | Raises.
Arguments Returns {A} a.
Arguments Raises {A}.

(** ** The scoring function in binary64 (planning_tools.py, config.py)

    The planner below ranks and schedules over exact rationals. This module
    is the scoring function with its numbers as Python holds them: binary64
    floats, every operation rounded to nearest, in the order Python
    evaluates the expression. *)

Module Binary64.

Record Weights : Type := mkWeights
  { alpha : float; beta : float; gamma : float; delta : float }.

Definition WEIGHTS : Weights :=
  {| alpha := 0.5; beta := 0.3; gamma := 0.1; delta := 0.05 |}.

Definition COMPANY_VISIT_DURATION_MINUTES : float := 45.

(** The company dict, with the keys of [Company]. *)
Record Company : Type := mkCompany
  { name : string
  ; location : Location
  ; driving_time_min : option float
  ; T_hub_to_i : option float
  ; T_i_to_meeting : option float
  ; T_total_trip : option float
  ; T_buffer : option float
  ; T_prev_to_i : option float
  ; S_attract : option float
  ; S_feas : option float
  ; S_final : option float
  }.

Definition calculate_final_score (company : Company) (t_available : float)
    : float * Company :=
  match S_attract company, S_feas company, T_total_trip company with
  | Some s_attract, Some s_feas, Some t_total_trip =>
      let t_buffer :=
        (t_available - t_total_trip - COMPANY_VISIT_DURATION_MINUTES)%float in
      let score :=
        (alpha WEIGHTS * s_attract + beta WEIGHTS * s_feas
         - gamma WEIGHTS * t_total_trip + delta WEIGHTS * t_buffer)%float in
      (score,
       {| name := name company; location := location company
        ; driving_time_min := driving_time_min company
        ; T_hub_to_i := T_hub_to_i company
        ; T_i_to_meeting := T_i_to_meeting company
        ; T_total_trip := T_total_trip company
        ; T_buffer := Some t_buffer
        ; T_prev_to_i := T_prev_to_i company
        ; S_attract := S_attract company; S_feas := S_feas company
        ; S_final := Some score |})
  | _, _, _ => ((-999)%float, company)
  end.

End Binary64.

(** ** Answers of the reasoning services (llm_agent.py) *)

(** A score as the value-judgment service sends it: the key may be missing,
    or hold something [float] rejects. *)
Inductive ScoreField : Type :=
  | field_absent
  | field_invalid
  | field_number (q : Q).

Record ScoredItem : Type := mkScored
  { scored_name : option string
  ; scored_S_attract : ScoreField
  ; scored_S_feas : ScoreField
  }.

(** What the transit-choice chain hands back: an exception, something that
    is not a dict, or a dict read through [.get('id')] and [.get('type')]. *)
Inductive ChainOutput : Type :=
  | chain_raises
  | chain_not_dict
  | chain_dict (id type : option string).

(** What [pre_meeting_plan] returns. *)
Record PreMeetingResult : Type := mkPreMeeting
  { result_pre_meeting_route : list ItineraryItem
  ; result_final_arrival_at_venue : option Q
  ; result_error_message : option string
  }.

(** The loop variables of the truncate-and-retry loop; [walks] is a ghost
    counter of the forward walks started so far. *)
Record RepairState : Type := mkRepair
  { final_visit_plan_data : list Visit
  ; pre_meeting_route_final : list ItineraryItem
  ; final_arrival_time : option Q
  ; walks : nat
  }.

(** ** The data file (company_manager.py) *)

(** One company of the data file, with the keys [add_company] writes; a
    file edited by hand may lack any of them, and a coordinate may be
    [null]. The same record is the [updates] dict of [update_company]: the
    keys it carries are the fields that are not [None]. *)
Record CompanyInfo : Type := mkInfo
  { info_id : option string
  ; info_name : option string
  ; info_address : option string
  ; info_lat : option (option Q)
  ; info_lon : option (option Q)
  ; info_industry : option string
  ; info_description : option string
  }.

(** The decoded file: a dict from city to companies, in insertion order. *)
Definition Data : Type := list (string * list CompanyInfo).

(** What [open(DATA_FILE)] and [json.load] find. *)
Inductive DataFile : Type :=
  | file_missing                (* [FileNotFoundError] *)
  | file_malformed              (* [json.JSONDecodeError] *)
  | file_json (data : Data).

(** ** Nodes of the graph (graph.py) *)

Inductive Node : Type :=
  | n_check_constraints
  | n_geocode_locations
  | n_traffic_query
  | n_select_transport_by_llm
  | n_calculate_final_transport
  | n_pre_meeting_plan
  | n_post_meeting_plan
  | n_generate_final_itinerary.

Section Scheduler.

(** [AMAP_API_KEY] is configured. *)
Variable api_key_configured : bool.

(** Python's [round(x, 1)]. *)
Variable round1 : Q -> Q.

(** The routing service: its answer to the [k]-th request of the run. *)
Variable amap_route : nat -> Coords -> Coords -> Response.

Definition requests_get (origin destination : Coords) : M Response :=
  fun w => (amap_route (requests w) origin destination,
            {| requests := S (requests w); sleeps := sleeps w |}).

Definition time_sleep (seconds : Q) : M unit :=
  fun w => (tt, {| requests := requests w; sleeps := sleeps w ++ [seconds] |}).

(** The body of [for attempt in range(MAX_RETRIES)], by recursion on the
    attempts that remain in the range. *)
Fixpoint retry_loop (range : list nat) (wait_time : Q)
    (origin destination : Coords) : M (option Q) :=
  match range with
  | [] => ret None
  | attempt :: rest =>
      response <- requests_get origin destination ;;
      match response with
      | Json data =>
          if is_success data then
            match body_paths data with
            | route :: _ =>
                ret (Some (round1 (inject_Z (duration_seconds route) / 60)))
            | [] => ret None
            end
          else if is_limit_error data then
            if (attempt <? MAX_RETRIES - 1)%nat then
              time_sleep wait_time ;;;
              retry_loop rest (wait_time * 2) origin destination
            else ret None
          else ret None
      | RequestException =>
          if (attempt <? MAX_RETRIES - 1)%nat then
            time_sleep wait_time ;;;
            retry_loop rest (wait_time * 2) origin destination
          else ret None
      end
  end.

Definition get_amap_driving_time (origin destination : Location) : M (option Q) :=
  if negb api_key_configured then ret None
  else if negb (truthy (loc_lat origin)) || negb (truthy (loc_lat destination))
  then ret (Some 35)
  else retry_loop (seq 0 MAX_RETRIES) INITIAL_WAIT_TIME
         (coords_of origin) (coords_of destination).

(** ** planning_tools.py *)

(** The scoring function over exact rationals, as the ranking below uses
    it; [Binary64.calculate_final_score] is its floating-point form. *)
Definition calculate_final_score (company : Company) (t_available : Q)
    : Q * Company :=
  match S_attract company, S_feas company, T_total_trip company with
  | Some s_attract, Some s_feas, Some t_total_trip =>
      let t_buffer := t_available - t_total_trip - COMPANY_VISIT_DURATION_MINUTES in
      let score := alpha WEIGHTS * s_attract + beta WEIGHTS * s_feas
                   - gamma WEIGHTS * t_total_trip + delta WEIGHTS * t_buffer in
      (score,
       {| name := name company; location := location company
        ; driving_time_min := driving_time_min company
        ; T_hub_to_i := T_hub_to_i company
        ; T_i_to_meeting := T_i_to_meeting company
        ; T_total_trip := T_total_trip company
        ; T_buffer := Some t_buffer
        ; T_prev_to_i := T_prev_to_i company
        ; S_attract := S_attract company; S_feas := S_feas company
        ; S_final := Some score |})
  | _, _, _ => (- (999), company)
  end.

(** [sorted(xs, key=..., reverse=True)]: the keys are computed first (a
    missing ['S_final'] raises), then the list is sorted by decreasing key,
    elements of equal key keeping their input order. *)
Fixpoint decorate (xs : list Company) : Outcome (list (Q * Company)) :=
  match xs with
  | [] => Returns []
  | x :: rest =>
      match S_final x, decorate rest with
      | Some k, Returns ds => Returns ((k, x) :: ds)
      | _, _ => Raises
      end
  end.

Fixpoint insert_desc (x : Q * Company) (sorted : list (Q * Company))
    : list (Q * Company) :=
  match sorted with
  | [] => [x]
  | y :: rest =>
      if Qle_bool (fst y) (fst x) then x :: y :: rest
      else y :: insert_desc x rest
  end.

Definition sort_desc (ds : list (Q * Company)) : list (Q * Company) :=
  fold_right insert_desc [] ds.

Definition sorted_by_S_final (xs : list Company) : Outcome (list Company) :=
  match decorate xs with
  | Returns ds => Returns (map snd (sort_desc ds))
  | Raises => Raises
  end.

(** The hop charged to a candidate by the greedy pass. *)
Definition hop_of (first : bool) (company : Company) : Outcome Q :=
  let hub := match T_hub_to_i company with
             | Some t => Returns t
             | None => Raises
             end in
  if first then hub
  else if truthy (T_prev_to_i company) then
         match T_prev_to_i company with
         | Some t => Returns t
         | None => Raises
         end
       else hub.

(** The [for company in sorted_companies] loop of the greedy pass; the
    loop variables are [final_itinerary], [current_time] and
    [remaining_time] ([current_location] is written but never read). *)
Fixpoint greedy_loop (sorted_companies : list Company)
    (final_itinerary : list Visit) (current_time remaining_time : Q)
    : Outcome (list Visit) :=
  match sorted_companies with
  | [] => Returns final_itinerary
  | company :: rest =>
      match hop_of (match final_itinerary with [] => true | _ => false end)
                   company with
      | Raises => Raises
      | Returns t_prev_to_i =>
          let time_needed := t_prev_to_i + COMPANY_VISIT_DURATION_MINUTES in
          if Qle_bool time_needed remaining_time then
            let travel_end_dt := current_time + t_prev_to_i in
            let visit_start_dt := travel_end_dt in
            let visit_end_dt := visit_start_dt + COMPANY_VISIT_DURATION_MINUTES in
            greedy_loop rest
              (final_itinerary ++
               [{| visit_name := name company
                 ; visit_type := company_visit
                 ; visit_description := ("企业调研/拜访: " ++ name company)%string
                 ; visit_start_time := visit_start_dt
                 ; visit_end_time := visit_end_dt
                 ; visit_location := location company |}])
              visit_end_dt (remaining_time - time_needed)
          else Returns final_itinerary
      end
  end.

Definition plan_multi_company_visit (scored_companies : list Company)
    (t_available_total hub_arrival_dt : Q)
    (hub_location meeting_venue_location : Location)
    : Outcome (list Visit) :=
  let scored := map (fun c => snd (calculate_final_score c t_available_total))
                    scored_companies in
  match sorted_by_S_final scored with
  | Raises => Raises
  | Returns sorted_companies =>
      greedy_loop sorted_companies [] hub_arrival_dt t_available_total
  end.

(** The directory, by city. *)
Variable COMPANIES_DB : string -> list DirectoryEntry.

(** The [Location] built for a directory entry; a missing key raises and
    the entry is skipped. *)
Definition entry_location (city : string) (company : DirectoryEntry)
    : option (string * Location) :=
  match db_address company, db_name company, db_lat company, db_lon company with
  | Some a, Some n, Some la, Some lo =>
      Some (n, {| loc_city := city; loc_address := Some a; loc_name := Some n
                ; loc_lat := la; loc_lon := lo |})
  | _, _, _, _ => None
  end.

Fixpoint filter_loop (center_location : Location) (max_driving_minutes : Z)
    (city : string) (city_companies : list DirectoryEntry)
    : M (list Company) :=
  match city_companies with
  | [] => ret []
  | company :: rest =>
      match entry_location city company with
      | None => filter_loop center_location max_driving_minutes city rest
      | Some (n, company_loc) =>
          driving <- get_amap_driving_time center_location company_loc ;;
          match driving with
          | None => filter_loop center_location max_driving_minutes city rest
          | Some driving_time =>
              if Qle_bool driving_time (inject_Z max_driving_minutes) then
                nearby <- filter_loop center_location max_driving_minutes city rest ;;
                ret ({| name := n; location := company_loc
                      ; driving_time_min := Some (round1 driving_time)
                      ; T_hub_to_i := None; T_i_to_meeting := None
                      ; T_total_trip := None; T_buffer := None
                      ; T_prev_to_i := None
                      ; S_attract := None; S_feas := None; S_final := None |}
                     :: nearby)
              else filter_loop center_location max_driving_minutes city rest
          end
      end
  end.

Definition filter_companies_by_area_by_time (center_location : Location)
    (max_driving_minutes : Z) : M (list Company) :=
  let city := loc_city center_location in
  if (city =? "")%string then ret []
  else filter_loop center_location max_driving_minutes city (COMPANIES_DB city).

(** ** llm_agent.py *)

Definition PRE_MEETING_BUFFER_MINUTES : Q := 90.

(** The transit-choice chain ([TRANSPORT_DECISION_PROMPT | llm | parser]),
    applied to the offers, the two reference commutes, the departure date,
    the meeting start and the latest hub arrival. *)
Variable transport_chain :
  list Offer -> Q -> Q -> string -> Q -> Q -> ChainOutput.

(** [get_company_scores_by_llm]: the value-judgment service; a failed call
    is the empty list. *)
Variable get_company_scores_by_llm : list Company -> Q -> list ScoredItem.

(** The geocoder: latitude and longitude of an address in a city. *)
Variable amap_geocode : string -> string -> option (Q * Q).

(** Python's [==] between two [.get] results. *)
Definition get_eqb (a b : option string) : bool :=
  match a, b with
  | Some x, Some y => (x =? y)%string
  | None, None => true
  | _, _ => false
  end.

Definition present {A : Type} (x : option A) : bool :=
  match x with
  | Some _ => true
  | None => false
  end.

(** Truthiness of an offer dict: it has at least one key. *)
Definition offer_truthy (o : Offer) : bool :=
  present (offer_type o) || present (offer_id o) || present (departure_time o)
  || present (arrival_time o) || present (departure_hub o)
  || present (arrival_hub o) || present (price o) || present (duration o).

Definition same_offer (selected_id selected_type : option string) (opt : Offer)
    : bool :=
  get_eqb (offer_id opt) selected_id && get_eqb (offer_type opt) selected_type.

Definition llm_choose_transport (transport_options : list Offer)
    (user_data : UserData) (home_commute_time arrival_commute_time : Q)
    : option Offer :=
  let total_buffer := PRE_MEETING_BUFFER_MINUTES + arrival_commute_time in
  let latest_hub_arrival_dt := meeting_start_dt user_data - total_buffer in
  match transport_chain transport_options home_commute_time
          arrival_commute_time (departure_date user_data)
          (meeting_start_dt user_data) latest_hub_arrival_dt with
  | chain_dict selected_id selected_type =>
      match find (same_offer selected_id selected_type) transport_options with
      | Some final_selection =>
          if offer_truthy final_selection then Some final_selection else None
      | None => None
      end
  | chain_not_dict => None
  | chain_raises => None
  end.

(** ** nodes.py *)

(** [state.get(key, [])]. *)
Definition get_list {A : Type} (x : option (list A)) : list A :=
  match x with
  | Some l => l
  | None => []
  end.

(** [{**base, 'address': hub, 'name': hub, **coords}]. *)
Definition hub_location (base : Location) (hub_name : string) (coords : Q * Q)
    : Location :=
  {| loc_city := loc_city base
   ; loc_address := Some hub_name
   ; loc_name := Some hub_name
   ; loc_lat := Some (fst coords)
   ; loc_lon := Some (snd coords) |}.

Definition or_default (x : option Q) (d : Q) : Q :=
  match x with
  | Some v => v
  | None => d
  end.

Definition select_transport_by_llm (state : TravelPlanState)
    : M (Outcome (list Assignment)) :=
  match user_data state, home_location state, meeting_location state with
  | Some user_data, Some home_loc, Some meeting_loc =>
      let transport_options :=
        get_list (flight_options state) ++ get_list (train_options state) in
      match transport_options with
      | [] => ret (Returns [set_error_message
                 (Some "交通选择失败：无任何交通选项可供选择。")])
      | ref_option :: _ =>
          match departure_hub ref_option with
          | None => ret Raises
          | Some ref_dep_hub_name =>
              match amap_geocode ref_dep_hub_name (loc_city home_loc) with
              | None => ret (Returns [set_error_message
                         (Some ("无法对出发枢纽 '" ++ ref_dep_hub_name
                                ++ "' 进行地理编码，流程终止。")%string)])
              | Some ref_dep_coords =>
                  match arrival_hub ref_option with
                  | None => ret Raises
                  | Some ref_arr_hub_name =>
                      match amap_geocode ref_arr_hub_name (loc_city meeting_loc) with
                      | None => ret (Returns [set_error_message
                                 (Some ("无法对到达枢纽 '" ++ ref_arr_hub_name
                                        ++ "' 进行地理编码，流程终止。")%string)])
                      | Some ref_arr_coords =>
                          let ref_origin_hub_loc :=
                            hub_location home_loc ref_dep_hub_name ref_dep_coords in
                          let ref_arrival_hub_loc :=
                            hub_location meeting_loc ref_arr_hub_name ref_arr_coords in
                          home_commute <- get_amap_driving_time home_loc ref_origin_hub_loc ;;
                          let home_commute_minutes := or_default home_commute 60 in
                          arrival_commute <- get_amap_driving_time ref_arrival_hub_loc meeting_loc ;;
                          let arrival_commute_minutes := or_default arrival_commute 60 in
                          match llm_choose_transport transport_options user_data
                                  home_commute_minutes arrival_commute_minutes with
                          | None => ret (Returns [set_error_message
                                     (Some "LLM未返回有效或完整的交通选择。")])
                          | Some selected_option_dict =>
                              if present (departure_time selected_option_dict) then
                                ret (Returns [set_selected_option_raw selected_option_dict;
                                              set_error_message None])
                              else ret (Returns [set_error_message
                                     (Some "LLM未返回有效或完整的交通选择。")])
                          end
                      end
                  end
              end
          end
      end
  | _, _, _ => ret Raises
  end.

(** Python's [int(x)]: truncation towards zero. *)
Definition int_of (x : Q) : Z := Z.quot (Qnum x) (Zpos (Qden x)).

(** Step 3b of [pre_meeting_plan]: the eligibility test against the time
    budget, with both legs asked of the routing client. *)
Fixpoint eligible_companies (arrival_hub_loc meeting_loc : Location)
    (available_minutes : Q) (first_filtered_companies : list Company)
    : M (list Company) :=
  match first_filtered_companies with
  | [] => ret []
  | company :: rest =>
      hub_leg <- get_amap_driving_time arrival_hub_loc (location company) ;;
      meeting_leg <- get_amap_driving_time (location company) meeting_loc ;;
      match hub_leg, meeting_leg with
      | Some t_hub_to_i, Some t_i_to_meeting =>
          let time_needed_for_visit :=
            t_hub_to_i + COMPANY_VISIT_DURATION_MINUTES + t_i_to_meeting in
          if Qle_bool time_needed_for_visit available_minutes then
            available <- eligible_companies arrival_hub_loc meeting_loc
                           available_minutes rest ;;
            ret ({| name := name company; location := location company
                  ; driving_time_min := driving_time_min company
                  ; T_hub_to_i := Some t_hub_to_i
                  ; T_i_to_meeting := Some t_i_to_meeting
                  ; T_total_trip := Some (t_hub_to_i + t_i_to_meeting)
                  ; T_buffer := Some (available_minutes - time_needed_for_visit)
                  ; T_prev_to_i := T_prev_to_i company
                  ; S_attract := S_attract company; S_feas := S_feas company
                  ; S_final := S_final company |} :: available)
          else eligible_companies arrival_hub_loc meeting_loc available_minutes rest
      | _, _ => eligible_companies arrival_hub_loc meeting_loc available_minutes rest
      end
  end.

(** [{c['name']: c for c in available_companies}]: a later company of the
    same name replaces an earlier one. *)
Definition Dict : Type := string -> option Company.

Definition dict_empty : Dict := fun _ => None.

Definition dict_set (k : string) (v : Company) (d : Dict) : Dict :=
  fun k' => if (k' =? k)%string then Some v else d k'.

Definition companies_by_name (available_companies : list Company) : Dict :=
  fold_left (fun d c => dict_set (name c) c d) available_companies dict_empty.

(** [float(merged_item[key])] after [merged_item.update(scored_item)]. *)
Inductive Conversion : Type :=
  | converted (q : Q)
  | value_error        (* caught: the company is skipped *)
  | key_error.         (* not caught *)

Definition float_of (scored : ScoreField) (original : option Q) : Conversion :=
  match scored with
  | field_number q => converted q
  | field_invalid => value_error
  | field_absent =>
      match original with
      | Some q => converted q
      | None => key_error
      end
  end.

(** Step 4b of [pre_meeting_plan]: the answers of the value-judgment service
    are matched back to the eligible companies by name. *)
Fixpoint merge_scores (original_companies_map : Dict)
    (scored_companies_llm_output : list ScoredItem) : Outcome (list Company) :=
  match scored_companies_llm_output with
  | [] => Returns []
  | scored_item :: rest =>
      match scored_name scored_item with
      | None => Raises
      | Some company_name =>
          match original_companies_map company_name with
          | None => merge_scores original_companies_map rest
          | Some original_data =>
              match float_of (scored_S_attract scored_item) (S_attract original_data) with
              | key_error => Raises
              | value_error => merge_scores original_companies_map rest
              | converted s_attract =>
                  match float_of (scored_S_feas scored_item) (S_feas original_data) with
                  | key_error => Raises
                  | value_error => merge_scores original_companies_map rest
                  | converted s_feas =>
                      match merge_scores original_companies_map rest with
                      | Raises => Raises
                      | Returns merged =>
                          Returns
                            ({| name := company_name
                              ; location := location original_data
                              ; driving_time_min := driving_time_min original_data
                              ; T_hub_to_i := T_hub_to_i original_data
                              ; T_i_to_meeting := T_i_to_meeting original_data
                              ; T_total_trip := T_total_trip original_data
                              ; T_buffer := T_buffer original_data
                              ; T_prev_to_i := T_prev_to_i original_data
                              ; S_attract := Some s_attract
                              ; S_feas := Some s_feas
                              ; S_final := S_final original_data |} :: merged)
                      end
                  end
              end
          end
      end
  end.

(** Step 5a: one forward walk over the tentative plan. [None] is
    [all_routes_planned = False]. *)
Fixpoint walk (plan : list Visit) (current_loc : Location) (current_time : Q)
    (current_route_items : list ItineraryItem)
    : M (option (Location * Q * list ItineraryItem)) :=
  match plan with
  | [] => ret (Some (current_loc, current_time, current_route_items))
  | visit_item :: rest =>
      let company_loc := visit_location visit_item in
      hop <- get_amap_driving_time current_loc company_loc ;;
      match hop with
      | None => ret None
      | Some t_prev_to_i =>
          let travel_start_dt := current_time in
          let travel_end_dt := travel_start_dt + t_prev_to_i in
          let visit_start_dt := travel_end_dt in
          let visit_end_dt := visit_start_dt + COMPANY_VISIT_DURATION_MINUTES in
          walk rest company_loc visit_end_dt
            (current_route_items ++
             [ {| item_type := transport
                ; item_description := ("驾车前往调研企业 " ++ visit_name visit_item)%string
                ; start_time := travel_start_dt
                ; end_time := travel_end_dt
                ; item_location := company_loc
                ; item_details := details_duration_min t_prev_to_i |}
             ; {| item_type := company_visit
                ; item_description := ("企业调研/拜访: " ++ visit_name visit_item)%string
                ; start_time := visit_start_dt
                ; end_time := visit_end_dt
                ; item_location := company_loc
                ; item_details := details_company_name (visit_name visit_item) |} ])
      end
  end.

(** [final_visit_plan_data.pop()] on the loop state. *)
Definition pop (s : RepairState) (final_arrival : option Q) : RepairState :=
  {| final_visit_plan_data := removelast (final_visit_plan_data s)
   ; pre_meeting_route_final := pre_meeting_route_final s
   ; final_arrival_time := final_arrival
   ; walks := S (walks s) |}.

(** Step 5: [while final_visit_plan_data: ...]. The loop is unfolded at most
    [fuel] times; [None] is an exhausted [fuel]. *)
Fixpoint repair_loop (fuel : nat) (arrival_hub_loc meeting_loc : Location)
    (arrival_at_hub_dt latest_arrival_needed : Q) (s : RepairState)
    : M (option RepairState) :=
  match final_visit_plan_data s with
  | [] => ret (Some s)
  | _ :: _ =>
      match fuel with
      | O => ret None
      | S fuel' =>
          walked <- walk (final_visit_plan_data s) arrival_hub_loc
                      arrival_at_hub_dt [] ;;
          match walked with
          | None =>
              repair_loop fuel' arrival_hub_loc meeting_loc arrival_at_hub_dt
                latest_arrival_needed (pop s (final_arrival_time s))
          | Some (current_loc, current_time, current_route_items) =>
              final_commute <- get_amap_driving_time current_loc meeting_loc ;;
              match final_commute with
              | None =>
                  repair_loop fuel' arrival_hub_loc meeting_loc arrival_at_hub_dt
                    latest_arrival_needed (pop s (final_arrival_time s))
              | Some final_commute_min =>
                  let arrival := current_time + final_commute_min in
                  if Qle_bool arrival latest_arrival_needed then
                    ret (Some
                      {| final_visit_plan_data := final_visit_plan_data s
                       ; pre_meeting_route_final :=
                           current_route_items ++
                           [ {| item_type := transport
                              ; item_description := "驾车前往会议地点"
                              ; start_time := current_time
                              ; end_time := arrival
                              ; item_location := meeting_loc
                              ; item_details := details_duration_min final_commute_min |} ]
                       ; final_arrival_time := Some arrival
                       ; walks := S (walks s) |})
                  else
                    repair_loop fuel' arrival_hub_loc meeting_loc arrival_at_hub_dt
                      latest_arrival_needed (pop s (Some arrival))
              end
          end
      end
  end.

(** The loop as the node runs it: one unfolding per candidate is enough. *)
Definition feasibility_repair (arrival_hub_loc meeting_loc : Location)
    (arrival_at_hub_dt latest_arrival_needed : Q) (plan : list Visit)
    : M (option RepairState) :=
  repair_loop (length plan) arrival_hub_loc meeting_loc arrival_at_hub_dt
    latest_arrival_needed
    {| final_visit_plan_data := plan; pre_meeting_route_final := []
     ; final_arrival_time := None; walks := O |}.

Definition arrival_commute_of (selected_transport : ItineraryItem) : option Q :=
  match item_details selected_transport with
  | details_transport _ _ arrival_commute _ => Some arrival_commute
  | _ => None
  end.

(** Steps 2 to 3b of [pre_meeting_plan]: the pool of eligible companies. *)
Definition candidate_pool (arrival_hub_loc meeting_loc : Location)
    (arrival_commute_min available_minutes : Q) : M (list Company) :=
  first_filtered_companies <-
    filter_companies_by_area_by_time arrival_hub_loc
      (int_of (arrival_commute_min * 2)) ;;
  eligible_companies arrival_hub_loc meeting_loc available_minutes
    first_filtered_companies.

Definition pre_meeting_plan (state : TravelPlanState)
    : M (Outcome PreMeetingResult) :=
  match user_data state, meeting_location state with
  | Some user_data, Some meeting_loc =>
      match selected_transport state with
      | None =>
          ret (Returns
            {| result_pre_meeting_route := []
             ; result_final_arrival_at_venue := None
             ; result_error_message :=
                 Some "未选定主要交通方式，跳过会议前规划。" |})
      | Some selected_transport =>
          let arrival_hub_loc := item_location selected_transport in
          let arrival_at_hub_dt := end_time selected_transport in
          match arrival_commute_of selected_transport with
          | None => ret Raises
          | Some arrival_commute_min =>
              let latest_arrival_needed :=
                meeting_start_dt user_data - POST_ARRIVAL_BUFFER_MINUTES in
              let available_minutes := latest_arrival_needed - arrival_at_hub_dt in
              let nothing :=
                {| result_pre_meeting_route := []
                 ; result_final_arrival_at_venue := None
                 ; result_error_message := None |} in
              available_companies <-
                candidate_pool arrival_hub_loc meeting_loc arrival_commute_min
                  available_minutes ;;
              match available_companies with
              | [] => ret (Returns nothing)
              | _ :: _ =>
                  match get_company_scores_by_llm available_companies
                          available_minutes with
                  | [] => ret (Returns nothing)
                  | scored_companies_llm_output =>
                      match merge_scores (companies_by_name available_companies)
                              scored_companies_llm_output with
                      | Raises => ret Raises
                      | Returns merged_companies_for_planning =>
                          match plan_multi_company_visit
                                  merged_companies_for_planning available_minutes
                                  arrival_at_hub_dt arrival_hub_loc meeting_loc with
                          | Raises => ret Raises
                          | Returns [] => ret (Returns nothing)
                          | Returns plan =>
                              repaired <- feasibility_repair arrival_hub_loc
                                            meeting_loc arrival_at_hub_dt
                                            latest_arrival_needed plan ;;
                              match repaired with
                              | None => ret Raises
                              | Some s =>
                                  ret (Returns
                                    {| result_pre_meeting_route :=
                                         pre_meeting_route_final s
                                     ; result_final_arrival_at_venue :=
                                         Some (or_default (final_arrival_time s)
                                                 (arrival_at_hub_dt + arrival_commute_min))
                                     ; result_error_message := None |})
                              end
                          end
                      end
                  end
              end
          end
      end
  | _, _ => ret Raises
  end.

(** The dict [pre_meeting_plan] returns, key by key. *)
Definition pre_meeting_update (r : PreMeetingResult) : list Assignment :=
  set_pre_meeting_route (result_pre_meeting_route r)
  :: match result_final_arrival_at_venue r with
     | Some t => [set_final_arrival_at_venue t]
     | None => []
     end
  ++ [set_error_message (result_error_message r)].

(** ** graph.py *)

(** The nodes whose bodies play no part in the properties below. *)
Variable check_constraints : TravelPlanState -> M (Outcome (list Assignment)).
Variable geocode_locations : TravelPlanState -> M (Outcome (list Assignment)).
Variable traffic_query : TravelPlanState -> M (Outcome (list Assignment)).
Variable calculate_final_transport : TravelPlanState -> M (Outcome (list Assignment)).
Variable post_meeting_plan : TravelPlanState -> M (Outcome (list Assignment)).
Variable generate_final_itinerary : TravelPlanState -> M (Outcome (list Assignment)).

(** The graph engine merges the returned dict into the state, key by key. *)
Definition assign (state : TravelPlanState) (a : Assignment) : TravelPlanState :=
  match a with
  | set_user_data v =>
      {| user_input := user_input state; user_data := Some v
       ; flight_options := flight_options state; train_options := train_options state
       ; selected_option_raw := selected_option_raw state; selected_transport := selected_transport state
       ; pre_meeting_route := pre_meeting_route state; post_meeting_route := post_meeting_route state
       ; final_itinerary := final_itinerary state; final_itinerary_report := final_itinerary_report state
       ; home_location := home_location state; meeting_location := meeting_location state
       ; hotel_location := hotel_location state; error_message := error_message state |}
  | set_flight_options v =>
      {| user_input := user_input state; user_data := user_data state
       ; flight_options := Some v; train_options := train_options state
       ; selected_option_raw := selected_option_raw state; selected_transport := selected_transport state
       ; pre_meeting_route := pre_meeting_route state; post_meeting_route := post_meeting_route state
       ; final_itinerary := final_itinerary state; final_itinerary_report := final_itinerary_report state
       ; home_location := home_location state; meeting_location := meeting_location state
       ; hotel_location := hotel_location state; error_message := error_message state |}
  | set_train_options v =>
      {| user_input := user_input state; user_data := user_data state
       ; flight_options := flight_options state; train_options := Some v
       ; selected_option_raw := selected_option_raw state; selected_transport := selected_transport state
       ; pre_meeting_route := pre_meeting_route state; post_meeting_route := post_meeting_route state
       ; final_itinerary := final_itinerary state; final_itinerary_report := final_itinerary_report state
       ; home_location := home_location state; meeting_location := meeting_location state
       ; hotel_location := hotel_location state; error_message := error_message state |}
  | set_selected_option_raw v =>
      {| user_input := user_input state; user_data := user_data state
       ; flight_options := flight_options state; train_options := train_options state
       ; selected_option_raw := Some v; selected_transport := selected_transport state
       ; pre_meeting_route := pre_meeting_route state; post_meeting_route := post_meeting_route state
       ; final_itinerary := final_itinerary state; final_itinerary_report := final_itinerary_report state
       ; home_location := home_location state; meeting_location := meeting_location state
       ; hotel_location := hotel_location state; error_message := error_message state |}
  | set_selected_transport v =>
      {| user_input := user_input state; user_data := user_data state
       ; flight_options := flight_options state; train_options := train_options state
       ; selected_option_raw := selected_option_raw state; selected_transport := Some v
       ; pre_meeting_route := pre_meeting_route state; post_meeting_route := post_meeting_route state
       ; final_itinerary := final_itinerary state; final_itinerary_report := final_itinerary_report state
       ; home_location := home_location state; meeting_location := meeting_location state
       ; hotel_location := hotel_location state; error_message := error_message state |}
  | set_pre_meeting_route v =>
      {| user_input := user_input state; user_data := user_data state
       ; flight_options := flight_options state; train_options := train_options state
       ; selected_option_raw := selected_option_raw state; selected_transport := selected_transport state
       ; pre_meeting_route := Some v; post_meeting_route := post_meeting_route state
       ; final_itinerary := final_itinerary state; final_itinerary_report := final_itinerary_report state
       ; home_location := home_location state; meeting_location := meeting_location state
       ; hotel_location := hotel_location state; error_message := error_message state |}
  | set_post_meeting_route v =>
      {| user_input := user_input state; user_data := user_data state
       ; flight_options := flight_options state; train_options := train_options state
       ; selected_option_raw := selected_option_raw state; selected_transport := selected_transport state
       ; pre_meeting_route := pre_meeting_route state; post_meeting_route := Some v
       ; final_itinerary := final_itinerary state; final_itinerary_report := final_itinerary_report state
       ; home_location := home_location state; meeting_location := meeting_location state
       ; hotel_location := hotel_location state; error_message := error_message state |}
  | set_final_itinerary v =>
      {| user_input := user_input state; user_data := user_data state
       ; flight_options := flight_options state; train_options := train_options state
       ; selected_option_raw := selected_option_raw state; selected_transport := selected_transport state
       ; pre_meeting_route := pre_meeting_route state; post_meeting_route := post_meeting_route state
       ; final_itinerary := Some v; final_itinerary_report := final_itinerary_report state
       ; home_location := home_location state; meeting_location := meeting_location state
       ; hotel_location := hotel_location state; error_message := error_message state |}
  | set_final_itinerary_report v =>
      {| user_input := user_input state; user_data := user_data state
       ; flight_options := flight_options state; train_options := train_options state
       ; selected_option_raw := selected_option_raw state; selected_transport := selected_transport state
       ; pre_meeting_route := pre_meeting_route state; post_meeting_route := post_meeting_route state
       ; final_itinerary := final_itinerary state; final_itinerary_report := Some v
       ; home_location := home_location state; meeting_location := meeting_location state
       ; hotel_location := hotel_location state; error_message := error_message state |}
  | set_home_location v =>
      {| user_input := user_input state; user_data := user_data state
       ; flight_options := flight_options state; train_options := train_options state
       ; selected_option_raw := selected_option_raw state; selected_transport := selected_transport state
       ; pre_meeting_route := pre_meeting_route state; post_meeting_route := post_meeting_route state
       ; final_itinerary := final_itinerary state; final_itinerary_report := final_itinerary_report state
       ; home_location := Some v; meeting_location := meeting_location state
       ; hotel_location := hotel_location state; error_message := error_message state |}
  | set_meeting_location v =>
      {| user_input := user_input state; user_data := user_data state
       ; flight_options := flight_options state; train_options := train_options state
       ; selected_option_raw := selected_option_raw state; selected_transport := selected_transport state
       ; pre_meeting_route := pre_meeting_route state; post_meeting_route := post_meeting_route state
       ; final_itinerary := final_itinerary state; final_itinerary_report := final_itinerary_report state
       ; home_location := home_location state; meeting_location := Some v
       ; hotel_location := hotel_location state; error_message := error_message state |}
  | set_hotel_location v =>
      {| user_input := user_input state; user_data := user_data state
       ; flight_options := flight_options state; train_options := train_options state
       ; selected_option_raw := selected_option_raw state; selected_transport := selected_transport state
       ; pre_meeting_route := pre_meeting_route state; post_meeting_route := post_meeting_route state
       ; final_itinerary := final_itinerary state; final_itinerary_report := final_itinerary_report state
       ; home_location := home_location state; meeting_location := meeting_location state
       ; hotel_location := Some v; error_message := error_message state |}
  | set_error_message v =>
      {| user_input := user_input state; user_data := user_data state
       ; flight_options := flight_options state; train_options := train_options state
       ; selected_option_raw := selected_option_raw state; selected_transport := selected_transport state
       ; pre_meeting_route := pre_meeting_route state; post_meeting_route := post_meeting_route state
       ; final_itinerary := final_itinerary state; final_itinerary_report := final_itinerary_report state
       ; home_location := home_location state; meeting_location := meeting_location state
       ; hotel_location := hotel_location state; error_message := v |}
  | set_final_arrival_at_venue _ => state
  end.

Definition merge (update : list Assignment) (state : TravelPlanState)
    : TravelPlanState :=
  fold_left assign update state.

(** Truthiness of [state.get("error_message")]. *)
Definition has_error (state : TravelPlanState) : bool :=
  match error_message state with
  | Some msg => negb (msg =? "")%string
  | None => false
  end.

(** A conditional edge answers with the next node, or [None] for [END]. *)
Definition decide_next_step (state : TravelPlanState) : option Node :=
  if has_error state then None else Some n_geocode_locations.

Definition decide_after_traffic_query (state : TravelPlanState) : option Node :=
  if has_error state then None else Some n_select_transport_by_llm.

Definition decide_after_llm_select (state : TravelPlanState) : option Node :=
  match selected_option_raw state with
  | Some raw =>
      if offer_truthy raw then Some n_calculate_final_transport else None
  | None => None
  end.

Definition decide_after_traffic_calculation (state : TravelPlanState)
    : option Node :=
  if present (selected_transport state) then Some n_pre_meeting_plan else None.

(** The edges added by [build_travel_graph]. *)
Definition build_travel_graph (node : Node) (state : TravelPlanState)
    : option Node :=
  match node with
  | n_check_constraints => decide_next_step state
  | n_geocode_locations => Some n_traffic_query
  | n_traffic_query => decide_after_traffic_query state
  | n_select_transport_by_llm => decide_after_llm_select state
  | n_calculate_final_transport => decide_after_traffic_calculation state
  | n_pre_meeting_plan => Some n_post_meeting_plan
  | n_post_meeting_plan => Some n_generate_final_itinerary
  | n_generate_final_itinerary => None
  end.

Definition run_node (node : Node) (state : TravelPlanState)
    : M (Outcome (list Assignment)) :=
  match node with
  | n_check_constraints => check_constraints state
  | n_geocode_locations => geocode_locations state
  | n_traffic_query => traffic_query state
  | n_select_transport_by_llm => select_transport_by_llm state
  | n_calculate_final_transport => calculate_final_transport state
  | n_pre_meeting_plan =>
      r <- pre_meeting_plan state ;;
      match r with
      | Returns result => ret (Returns (pre_meeting_update result))
      | Raises => ret Raises
      end
  | n_post_meeting_plan => post_meeting_plan state
  | n_generate_final_itinerary => generate_final_itinerary state
  end.

(** [app.invoke] from a given node: the nodes executed, in order, and the
    final state ([Raises]: a node raised or the recursion limit was hit).
    The limit is counted in nodes; the graph library counts one step more
    than the nodes it runs, so a run of [n] nodes needs a limit above [n]. *)
Fixpoint invoke (recursion_limit : nat) (node : Node) (state : TravelPlanState)
    (executed : list Node) : M (Outcome TravelPlanState * list Node) :=
  match recursion_limit with
  | O => ret (Raises, executed)
  | S limit =>
      r <- run_node node state ;;
      match r with
      | Raises => ret (Raises, executed ++ [node])
      | Returns update =>
          let state' := merge update state in
          match build_travel_graph node state' with
          | None => ret (Returns state', executed ++ [node])
          | Some next => invoke limit next state' (executed ++ [node])
          end
      end
  end.

(** ** company_manager.py *)

(** [data.get(city)] and [data[city] = companies] on the decoded file; a
    new key goes last. *)
Fixpoint data_get (city : string) (data : Data) : option (list CompanyInfo) :=
  match data with
  | [] => None
  | (k, companies) :: rest =>
      if (k =? city)%string then Some companies else data_get city rest
  end.

Fixpoint data_set (city : string) (companies : list CompanyInfo) (data : Data)
    : Data :=
  match data with
  | [] => [(city, companies)]
  | (k, old) :: rest =>
      if (k =? city)%string then (k, companies) :: rest
      else (k, old) :: data_set city companies rest
  end.

Definition _load_data (file : DataFile) : Data :=
  match file with
  | file_json data => data
  | file_missing => []
  | file_malformed => []
  end.

Definition _save_data (data : Data) : DataFile := file_json data.

Fixpoint zeros (n : nat) : string :=
  match n with
  | O => EmptyString
  | S k => String "0" (zeros k)
  end.

(** The format [{new_index:03}]: decimal digits, padded with zeros to three. *)
Definition format_03 (new_index : nat) : string :=
  let digits := NilEmpty.string_of_uint (Nat.to_uint new_index) in
  (zeros (3 - String.length digits) ++ digits)%string.

Definition add_company (city name address : string) (file : DataFile)
    : DataFile :=
  let data := _load_data file in
  let data := if present (data_get city data) then data
              else data_set city [] data in
  let prefix := city in
  let new_index := (length (get_list (data_get city data)) + 1)%nat in
  let new_id := (prefix ++ format_03 new_index)%string in
  let coords := amap_geocode address city in
  let lat := match coords with Some c => fst c | None => 0 end in
  let lon := match coords with Some c => snd c | None => 0 end in
  let company_info :=
    {| info_id := Some new_id
     ; info_name := Some name
     ; info_address := Some address
     ; info_lat := Some (Some lat)
     ; info_lon := Some (Some lon)
     ; info_industry := Some "待分类"
     ; info_description := Some "用户新增" |} in
  _save_data (data_set city (get_list (data_get city data) ++ [company_info])
                data).

Definition get_companies_by_city (city : string) (file : DataFile)
    : list CompanyInfo :=
  let data := _load_data file in
  get_list (data_get city data).

(** [company.update(updates)]: the keys of [updates] win. *)
Definition dict_update (company updates : CompanyInfo) : CompanyInfo :=
  let pick {A : Type} (new old : option A) : option A :=
    match new with
    | Some v => Some v
    | None => old
    end in
  {| info_id := pick (info_id updates) (info_id company)
   ; info_name := pick (info_name updates) (info_name company)
   ; info_address := pick (info_address updates) (info_address company)
   ; info_lat := pick (info_lat updates) (info_lat company)
   ; info_lon := pick (info_lon updates) (info_lon company)
   ; info_industry := pick (info_industry updates) (info_industry company)
   ; info_description :=
       pick (info_description updates) (info_description company) |}.

(** The [for i, company in enumerate(data[city])] loop of [update_company],
    up to its first hit: the list after the update, and the company hit. *)
Fixpoint update_first (company_id : string) (updates : CompanyInfo)
    (companies : list CompanyInfo) : option (list CompanyInfo * CompanyInfo) :=
  match companies with
  | [] => None
  | company :: rest =>
      if get_eqb (info_id company) (Some company_id) then
        Some (dict_update company updates :: rest, dict_update company updates)
      else
        match update_first company_id updates rest with
        | Some (rest', hit) => Some (company :: rest', hit)
        | None => None
        end
  end.

(** [Raises]: the success message reads [company['name']], after the save. *)
Definition update_company (city company_id : string) (updates : CompanyInfo)
    (file : DataFile) : Outcome bool * DataFile :=
  let data := _load_data file in
  match data_get city data with
  | None => (Returns false, file)
  | Some companies =>
      match update_first company_id updates companies with
      | Some (companies', company) =>
          let saved := _save_data (data_set city companies' data) in
          match info_name company with
          | Some _ => (Returns true, saved)
          | None => (Raises, saved)
          end
      | None => (Returns false, file)
      end
  end.

Definition delete_company (city company_id : string) (file : DataFile)
    : bool * DataFile :=
  let data := _load_data file in
  match data_get city data with
  | None => (false, file)
  | Some companies =>
      let initial_count := length companies in
      let kept :=
        filter (fun c => negb (get_eqb (info_id c) (Some company_id)))
               companies in
      if (length kept <? initial_count)%nat then
        (true, _save_data (data_set city kept data))
      else (false, file)
  end.

(** [COMPANIES_DB = _load_data()], as the planner reads it: through
    [COMPANIES_DB.get(city, [])] and the five keys of a directory entry. *)
Definition directory_entry (company : CompanyInfo) : DirectoryEntry :=
  {| db_id := info_id company
   ; db_name := info_name company
   ; db_address := info_address company
   ; db_lat := info_lat company
   ; db_lon := info_lon company |}.

Definition loaded_directory (file : DataFile) (city : string)
    : list DirectoryEntry :=
  map directory_entry (get_list (data_get city (_load_data file))).

(** ** nodes.py: the nodes around the planner

    The graph above takes these four nodes as parameters; their bodies
    follow, each under the name of its module. *)

(** The two search providers: the offers from a city to a city on a date; a
    failed search is the empty list. *)
Variable query_flight_api : string -> string -> string -> list Offer.
Variable query_train_api : string -> string -> string -> list Offer.

(** [dt.strftime('%Y-%m-%d')]. *)
Variable strftime_date : Q -> string.

(** [datetime.strptime(text, '%Y-%m-%d %H:%M')]: the instant, or the text
    of the [ValueError]. *)
Variable strptime : string -> string + Q.

(** The value of [user_data] under ['meeting_duration_h'], a key the record
    does not carry. *)
Variable meeting_duration_h : UserData -> option Q.

(** [get_final_report_by_llm]: the report, a text. *)
Variable get_final_report_by_llm : UserData -> list ItineraryItem -> string.

Definition nodes_traffic_query (state : TravelPlanState)
    : M (Outcome (list Assignment)) :=
  match user_data state, home_location state, meeting_location state with
  | Some user_data, Some home_loc, Some meeting_loc =>
      let origin := loc_city home_loc in
      let destination := loc_city meeting_loc in
      let meeting_start_dt := meeting_start_dt user_data in
      let target_date := strftime_date meeting_start_dt in
      let previous_date := strftime_date (meeting_start_dt - 24 * 60) in
      let flight_options_target :=
        query_flight_api origin destination target_date in
      let flight_options_prev :=
        query_flight_api origin destination previous_date in
      let flight_options := flight_options_prev ++ flight_options_target in
      let train_options_target :=
        query_train_api origin destination target_date in
      let train_options_prev :=
        query_train_api origin destination previous_date in
      let train_options := train_options_prev ++ train_options_target in
      let total_count := (length flight_options + length train_options)%nat in
      if (total_count =? 0)%nat then
        ret (Returns [set_error_message
               (Some ("未查询到 " ++ origin ++ " 到 " ++ destination
                      ++ " 的任何交通选项。")%string)])
      else
        ret (Returns [set_flight_options flight_options;
                      set_train_options train_options;
                      set_error_message None])
  | _, _, _ => ret Raises
  end.

(** [x or d] on a commute: [None] and [0.0] are both falsy. *)
Definition or_else (x : option Q) (d : Q) : Q :=
  match x with
  | Some v => if Qeq_bool v 0 then d else v
  | None => d
  end.

(** [s.endswith(suffix)]. *)
Definition endswith (s suffix : string) : bool :=
  let n := String.length s in
  let m := String.length suffix in
  (m <=? n)%nat && (substring (n - m) m s =? suffix)%string.

(** The [try] block of [calculate_final_transport]: the departure and the
    arrival instant, or the text of the exception caught. *)
Definition parse_times (user_data : UserData) (selected_option_raw : Offer)
    : string + (Q * Q) :=
  match departure_time selected_option_raw with
  | None => inl "'departure_time'"
  | Some departure_time_str =>
      match arrival_time selected_option_raw with
      | None => inl "'arrival_time'"
      | Some arrival_time_str =>
          let departure_date := departure_date user_data in
          match strptime (departure_date ++ " " ++ departure_time_str)%string with
          | inl e => inl e
          | inr start_time_dt =>
              match strptime (departure_date ++ " " ++ arrival_time_str)%string with
              | inl e => inl e
              | inr end_time_dt =>
                  (* [end_time_dt < start_time_dt] *)
                  if negb (Qle_bool start_time_dt end_time_dt)
                  then inr (start_time_dt, end_time_dt + 24 * 60)
                  else inr (start_time_dt, end_time_dt)
              end
          end
      end
  end.

Definition nodes_calculate_final_transport (state : TravelPlanState)
    : M (Outcome (list Assignment)) :=
  let no_choice :=
    ret (Returns [set_error_message
           (Some "交通精确计算失败：LLM 未提供选定班次。")]) in
  match selected_option_raw state with
  | None => no_choice
  | Some selected_option_raw =>
      if negb (offer_truthy selected_option_raw) then no_choice
      else
        match user_data state, home_location state, meeting_location state with
        | Some user_data, Some home_loc, Some meeting_loc =>
            match parse_times user_data selected_option_raw with
            | inl e =>
                ret (Returns [set_error_message
                       (Some ("交通精确计算失败：时间解析错误 " ++ e)%string)])
            | inr (start_time_dt, end_time_dt) =>
                match departure_hub selected_option_raw,
                      arrival_hub selected_option_raw with
                | Some dep_hub_name, Some arr_hub_name =>
                    let home_city := loc_city home_loc in
                    let meeting_city := loc_city meeting_loc in
                    let dep_hub_coords := amap_geocode dep_hub_name home_city in
                    let arr_hub_coords := amap_geocode arr_hub_name meeting_city in
                    let dep_hub_coords :=
                      if negb (present dep_hub_coords)
                         && negb (endswith dep_hub_name "站")
                      then amap_geocode (dep_hub_name ++ "站")%string home_city
                      else dep_hub_coords in
                    let arr_hub_coords :=
                      if negb (present arr_hub_coords)
                         && negb (endswith arr_hub_name "站")
                      then amap_geocode (arr_hub_name ++ "站")%string meeting_city
                      else arr_hub_coords in
                    match dep_hub_coords, arr_hub_coords with
                    | Some dep_coords, Some arr_coords =>
                        let dep_hub_loc :=
                          hub_location home_loc dep_hub_name dep_coords in
                        let arr_hub_loc :=
                          hub_location meeting_loc arr_hub_name arr_coords in
                        home_commute <- get_amap_driving_time home_loc dep_hub_loc ;;
                        let home_commute_minutes := or_else home_commute 60 in
                        arrival_commute <- get_amap_driving_time arr_hub_loc meeting_loc ;;
                        let arrival_commute_minutes := or_else arrival_commute 60 in
                        (* the progress lines read ['id'] and ['type'] *)
                        match offer_id selected_option_raw,
                              offer_type selected_option_raw with
                        | Some id, Some type =>
                            let final_arrival_at_venue :=
                              end_time_dt + arrival_commute_minutes in
                            let selected_transport :=
                              {| item_type := transport
                               ; item_description :=
                                   (type ++ " " ++ id ++ " (" ++ dep_hub_name
                                    ++ " -> " ++ arr_hub_name ++ ")")%string
                               ; start_time := start_time_dt
                               ; end_time := end_time_dt
                               ; item_location := arr_hub_loc
                               ; item_details :=
                                   details_transport selected_option_raw
                                     home_commute_minutes arrival_commute_minutes
                                     final_arrival_at_venue |} in
                            ret (Returns [set_selected_transport selected_transport;
                                          set_user_data user_data;
                                          set_error_message None])
                        | _, _ => ret Raises
                        end
                    | _, _ =>
                        ret (Returns [set_error_message
                               (Some "交通精确计算失败：无法对选定班次的枢纽进行地理编码。")])
                    end
                | _, _ => ret Raises
                end
            end
        | _, _, _ => ret Raises
        end
  end.

(** [f"{loc['name']}"]. *)
Definition format_name (n : option string) : string :=
  match n with
  | Some s => s
  | None => "None"
  end.

Definition nodes_post_meeting_plan (state : TravelPlanState)
    : M (Outcome (list Assignment)) :=
  match user_data state, meeting_location state, hotel_location state with
  | Some user_data, Some meeting_loc, Some hotel_loc =>
      let meeting_start_dt := meeting_start_dt user_data in
      let meeting_duration_h := or_default (meeting_duration_h user_data) 2 in
      let meeting_end_dt := meeting_start_dt + 60 * meeting_duration_h in
      let current_time := meeting_end_dt in
      let current_loc := meeting_loc in
      let meeting_item :=
        {| item_type := meeting
         ; item_description := "商务会议"
         ; start_time := meeting_start_dt
         ; end_time := meeting_end_dt
         ; item_location := meeting_loc
         ; item_details := details_other |} in
      commute <- get_amap_driving_time current_loc hotel_loc ;;
      let commute_to_hotel_min := or_else commute 30 in
      let arrival_at_hotel_dt := current_time + commute_to_hotel_min in
      let post_meeting_route :=
        [ meeting_item
        ; {| item_type := transport
           ; item_description := "驾车前往酒店"
           ; start_time := current_time
           ; end_time := arrival_at_hotel_dt
           ; item_location := hotel_loc
           ; item_details := details_duration_min commute_to_hotel_min |}
        ; {| item_type := hotel
           ; item_description :=
               ("入住酒店: " ++ format_name (loc_name hotel_loc))%string
           ; start_time := arrival_at_hotel_dt
           ; end_time := arrival_at_hotel_dt + 30
           ; item_location := hotel_loc
           ; item_details := details_other |} ] in
      ret (Returns [set_post_meeting_route post_meeting_route;
                    set_error_message None])
  | _, _, _ => ret Raises
  end.

(** [details.get('itinerary', [])]: none of the shapes has the key. *)
Definition details_itinerary (details : Details) : list ItineraryItem :=
  match details with
  | details_duration_min _ => []
  | details_company_name _ => []
  | details_transport _ _ _ _ => []
  | details_other => []
  end.

(** [items.sort(key=lambda x: x['start_time'])]: by increasing start, items
    of equal start keeping their order. *)
Fixpoint insert_by_start_time (x : ItineraryItem) (sorted : list ItineraryItem)
    : list ItineraryItem :=
  match sorted with
  | [] => [x]
  | y :: rest =>
      if Qle_bool (start_time x) (start_time y) then x :: y :: rest
      else y :: insert_by_start_time x rest
  end.

Definition sort_by_start_time (items : list ItineraryItem)
    : list ItineraryItem :=
  fold_right insert_by_start_time [] items.

Definition nodes_generate_final_itinerary (state : TravelPlanState)
    : M (Outcome (list Assignment)) :=
  let itinerary_items := [] in
  let itinerary_items :=
    match selected_transport state with
    | Some selected =>
        itinerary_items ++ details_itinerary (item_details selected)
    | None => itinerary_items
    end in
  let itinerary_items :=
    match pre_meeting_route state with
    | Some (item :: route) => itinerary_items ++ item :: route
    | _ => itinerary_items
    end in
  let itinerary_items :=
    match post_meeting_route state with
    | Some (item :: route) => itinerary_items ++ item :: route
    | _ => itinerary_items
    end in
  let itinerary_items := sort_by_start_time itinerary_items in
  match user_data state with
  | Some user_data =>
      let final_report_markdown :=
        get_final_report_by_llm user_data itinerary_items in
      ret (Returns [set_final_itinerary_report final_report_markdown;
                    set_final_itinerary itinerary_items;
                    set_error_message None])
  | None => ret Raises
  end.

(** ** Vocabulary of the statements *)


(** An answer carrying a route whose first path lasts [seconds]. *)
Definition succeeds_with (r : Response) (seconds : Z) : Prop :=
  exists data rest path,
    r = Json data /\ is_success data = true /\
    body_paths data = path :: rest /\ duration_seconds path = seconds.


(** The segments one forward walk lays down for a plan, from the instant
    [start] to the instant [finish]: for each visit a transit hop to the
    company, then the visit itself, each starting when the previous ends. *)
Fixpoint segments_of (start : Q) (plan : list Visit)
    (segments : list ItineraryItem) (finish : Q) : Prop :=
  match plan, segments with
  | [], [] => finish = start
  | v :: plan', hop :: visit :: segments' =>
      item_type hop = transport /\
      start_time hop = start /\
      item_location hop = visit_location v /\
      item_type visit = company_visit /\
      start_time visit = end_time hop /\
      end_time visit = start_time visit + COMPANY_VISIT_DURATION_MINUTES /\
      item_location visit = visit_location v /\
      item_details visit = details_company_name (visit_name v) /\
      segments_of (end_time visit) plan' segments' finish
  | _, _ => False
  end.

(** A timestamp-contiguous, alternating route from [start] to [finish]:
    transit, visit, transit, visit, ..., transit. *)
Fixpoint alternating (start : Q) (route : list ItineraryItem) (finish : Q)
    : Prop :=
  match route with
  | [last] =>
      item_type last = transport /\
      start_time last = start /\
      end_time last = finish
  | hop :: visit :: rest =>
      item_type hop = transport /\
      start_time hop = start /\
      item_type visit = company_visit /\
      start_time visit = end_time hop /\
      end_time visit = start_time visit + COMPANY_VISIT_DURATION_MINUTES /\
      alternating (end_time visit) rest finish
  | [] => False
  end.

(** The loop state [s] was produced by an accepting walk: the walk over its
    plan went through, the last leg was answered, and the arrival computed
    from them meets the deadline. *)
Definition accepted (arrival_hub_loc meeting_loc : Location)
    (arrival_at_hub_dt latest_arrival_needed : Q) (s : RepairState)
    (w_end : World) : Prop :=
  exists w1 w2 current_loc current_time segments final_commute_min last,
    final_visit_plan_data s <> [] /\
    walk (final_visit_plan_data s) arrival_hub_loc arrival_at_hub_dt [] w1
      = (Some (current_loc, current_time, segments), w2) /\
    get_amap_driving_time current_loc meeting_loc w2
      = (Some final_commute_min, w_end) /\
    current_time + final_commute_min <= latest_arrival_needed /\
    final_arrival_time s = Some (current_time + final_commute_min) /\
    pre_meeting_route_final s = segments ++ [last] /\
    item_type last = transport /\
    start_time last = current_time /\
    end_time last = current_time + final_commute_min /\
    item_location last = meeting_loc.

(** The company [c] entered the pool of eligible companies: both of its legs
    were answered by the routing client, one call after the other, the
    answers are the ones recorded on it, and together with the visit they
    fit in the [available] minutes. *)
Definition admitted (arrival_hub_loc meeting_loc : Location) (available : Q)
    (c : Company) : Prop :=
  exists t_hub_to_i t_i_to_meeting w1 w2 w3,
    get_amap_driving_time arrival_hub_loc (location c) w1
      = (Some t_hub_to_i, w2) /\
    get_amap_driving_time (location c) meeting_loc w2
      = (Some t_i_to_meeting, w3) /\
    T_hub_to_i c = Some t_hub_to_i /\
    T_i_to_meeting c = Some t_i_to_meeting /\
    T_total_trip c = Some (t_hub_to_i + t_i_to_meeting) /\
    t_hub_to_i + COMPANY_VISIT_DURATION_MINUTES + t_i_to_meeting <= available.

(** The company [m] handed to the planner stems from the company [c]: same
    place, legs and composite score. *)
Definition stems_from (m c : Company) : Prop :=
  location m = location c /\
  T_hub_to_i m = T_hub_to_i c /\
  T_i_to_meeting m = T_i_to_meeting c /\
  T_total_trip m = T_total_trip c /\
  S_final m = S_final c.

(** No score has been written on the company yet. *)
Definition unscored (c : Company) : Prop :=
  S_attract c = None /\ S_feas c = None /\ S_final c = None.

(** All four ingredients of the composite score are on the company. *)
Definition fully_scored (m : Company) : Prop :=
  present (T_hub_to_i m) = true /\
  present (T_i_to_meeting m) = true /\
  present (S_attract m) = true /\
  present (S_feas m) = true.

(** The offers [select_transport_by_llm] puts before the chain. *)
Definition transport_options_of (state : TravelPlanState) : list Offer :=
  get_list (flight_options state) ++ get_list (train_options state).

(** In the step taken from [state] in the world [w], the transit-choice
    chain is reached -- the state is complete, the reference hubs geocode,
    both reference commutes have been asked of the routing client, leaving
    the world [w'] -- and it hands back [answer]. *)
Definition chain_answers (state : TravelPlanState) (w : World)
    (answer : ChainOutput) (w' : World) : Prop :=
  exists user home_loc meeting_loc ref_option rest
         dep_hub arr_hub dep_coords arr_coords home_commute arrival_commute w1,
    user_data state = Some user /\
    home_location state = Some home_loc /\
    meeting_location state = Some meeting_loc /\
    transport_options_of state = ref_option :: rest /\
    departure_hub ref_option = Some dep_hub /\
    amap_geocode dep_hub (loc_city home_loc) = Some dep_coords /\
    arrival_hub ref_option = Some arr_hub /\
    amap_geocode arr_hub (loc_city meeting_loc) = Some arr_coords /\
    get_amap_driving_time home_loc
      (hub_location home_loc dep_hub dep_coords) w = (home_commute, w1) /\
    get_amap_driving_time
      (hub_location meeting_loc arr_hub arr_coords) meeting_loc w1
      = (arrival_commute, w') /\
    transport_chain (ref_option :: rest)
      (or_default home_commute 60) (or_default arrival_commute 60)
      (departure_date user) (meeting_start_dt user)
      (meeting_start_dt user
       - (PRE_MEETING_BUFFER_MINUTES + or_default arrival_commute 60))
    = answer.

(** No offer carries both the type and the id the chain named. *)
Definition matches_no_offer (selected_id selected_type : option string)
    (offers : list Offer) : Prop :=
  forall opt, In opt offers -> same_offer selected_id selected_type opt = false.

(** The composite score a company carries once [plan_multi_company_visit]
    has scored it. *)
Definition final_score (t_available : Q) (c : Company) : option Q :=
  S_final (snd (calculate_final_score c t_available)).

(** No two companies of the list carry the same composite score. *)
Fixpoint distinct_scores (t_available : Q) (companies : list Company) : Prop :=
  match companies with
  | [] => True
  | c :: rest =>
      (forall c' k k',
         In c' rest ->
         final_score t_available c = Some k ->
         final_score t_available c' = Some k' ->
         ~ k == k') /\
      distinct_scores t_available rest
  end.

(** The sort key read off a company that carries a composite score. *)
Definition key_of (c : Company) : Q :=
  match S_final c with
  | Some k => k
  | None => 0
  end.

Definition keyed (c : Company) : Q * Company := (key_of c, c).

Definition strictly_before (x y : Q * Company) : Prop := fst y < fst x.

Fixpoint distinct_keys (ds : list (Q * Company)) : Prop :=
  match ds with
  | [] => True
  | d :: rest =>
      (forall d', In d' rest -> ~ fst d == fst d') /\ distinct_keys rest
  end.

(** ** A worked scenario

    The traveller reaches the hub at instant 0 and the meeting starts at
    instant 210, so 180 minutes are available. Three companies A, B and C of
    the directory lie 20, 10 and 50 minutes from the hub and 25, 15 and 60
    minutes from the venue; driving from B to A takes 30 minutes. *)

Definition sample_city : string := "深圳".

Definition sample_site (n : Z) (label : string) : Location :=
  {| loc_city := sample_city; loc_address := Some label
   ; loc_name := Some label
   ; loc_lat := Some (inject_Z n); loc_lon := Some 1 |}.

Definition sample_hub : Location := sample_site 1 "深圳北站".
Definition sample_venue : Location := sample_site 5 "会议中心".

Definition sample_entry (n : Z) (label : string) : DirectoryEntry :=
  {| db_id := Some label; db_name := Some label; db_address := Some label
   ; db_lat := Some (Some (inject_Z n)); db_lon := Some (Some 1) |}.

Definition sample_directory (city : string) : list DirectoryEntry :=
  if (city =? sample_city)%string
  then [sample_entry 2 "A"; sample_entry 3 "B"; sample_entry 4 "C"]
  else [].

(** The site a request names, read off its latitude. *)
Definition site_of (c : Coords) : Z :=
  match snd c with
  | Some q => Qnum q
  | None => 0%Z
  end.

Definition sample_minutes (origin destination : Z) : Z :=
  match origin, destination with
  | 1, 2 => 20 | 1, 3 => 10 | 1, 4 => 50
  | 2, 5 => 25 | 3, 5 => 15 | 4, 5 => 60
  | 3, 2 => 30 | 2, 3 => 30
  | _, _ => 40
  end%Z.

Definition route_found (seconds : Z) : Response :=
  Json {| body_status := "1"; body_count := 1; body_info := Some "OK"
        ; body_paths := [Some seconds] |}.

Definition route_limited : Response :=
  Json {| body_status := "0"; body_count := 0
        ; body_info := Some "CUQPS_HAS_EXCEEDED_THE_LIMIT"
        ; body_paths := [] |}.


(** A routing service that always answers. *)
Definition sample_route (k : nat) (origin destination : Coords) : Response :=
  route_found (60 * sample_minutes (site_of origin) (site_of destination)).

(** Routing services that are rate-limited twice, always, or reject the
    request. *)
Definition limited_twice (k : nat) (origin destination : Coords) : Response :=
  if (k <? 2)%nat then route_limited else sample_route k origin destination.



Definition sample_scores (companies : list Company) (t_available : Q)
    : list ScoredItem :=
  [ {| scored_name := Some "A"; scored_S_attract := field_number 9
     ; scored_S_feas := field_number 8 |}
  ; {| scored_name := Some "B"; scored_S_attract := field_number 7
     ; scored_S_feas := field_number 9 |}
  ; {| scored_name := Some "C"; scored_S_attract := field_number 5
     ; scored_S_feas := field_number 5 |} ].

Definition sample_offer : Offer :=
  {| offer_type := Some "Flight"; offer_id := Some "MU5331"
   ; departure_time := Some "08:00"; arrival_time := Some "10:30"
   ; departure_hub := Some "虹桥机场"; arrival_hub := Some "宝安机场"
   ; price := Some 980; duration := Some "2h30m" |}.

Definition sample_transport : ItineraryItem :=
  {| item_type := transport
   ; item_description := "Flight MU5331"
   ; start_time := - (150)
   ; end_time := 0
   ; item_location := sample_hub
   ; item_details := details_transport sample_offer 30 40 40 |}.

Definition empty_state : TravelPlanState :=
  {| user_input := None; user_data := None
   ; flight_options := None; train_options := None
   ; selected_option_raw := None; selected_transport := None
   ; pre_meeting_route := None; post_meeting_route := None
   ; final_itinerary := None; final_itinerary_report := None
   ; home_location := None; meeting_location := None
   ; hotel_location := None; error_message := None |}.

Definition sample_user : UserData :=
  {| departure_date := "2025-12-25"; meeting_start_dt := 210 |}.

(** The state on entry to [pre_meeting_plan]. *)
Definition sample_state : TravelPlanState :=
  {| user_input := None; user_data := Some sample_user
   ; flight_options := Some [sample_offer]; train_options := Some []
   ; selected_option_raw := Some sample_offer
   ; selected_transport := Some sample_transport
   ; pre_meeting_route := None; post_meeting_route := None
   ; final_itinerary := None; final_itinerary_report := None
   ; home_location := Some (sample_site 7 "家")
   ; meeting_location := Some sample_venue
   ; hotel_location := Some (sample_site 8 "酒店")
   ; error_message := None |}.

(** The state on entry to [select_transport_by_llm]. *)
Definition sample_state_before_choice : TravelPlanState :=
  {| user_input := None; user_data := Some sample_user
   ; flight_options := Some [sample_offer]; train_options := Some []
   ; selected_option_raw := None; selected_transport := None
   ; pre_meeting_route := None; post_meeting_route := None
   ; final_itinerary := None; final_itinerary_report := None
   ; home_location := Some (sample_site 7 "家")
   ; meeting_location := Some sample_venue
   ; hotel_location := Some (sample_site 8 "酒店")
   ; error_message := None |}.

Definition sample_geocode (address city : string) : option (Q * Q) :=
  Some (6, 1).

(** A transit-choice chain that names a flight nobody offered. *)
Definition stray_chain (offers : list Offer) (home_commute arrival_commute : Q)
    (date : string) (meeting_start latest_hub_arrival : Q) : ChainOutput :=
  chain_dict (Some "CZ9999") (Some "Flight").

Definition idle_node (state : TravelPlanState) : M (Outcome (list Assignment)) :=
  ret (Returns []).

Definition world0 : World := {| requests := O; sleeps := [] |}.

(** The scenario's companies as they reach the planner. *)
Definition sample_company (n : Z) (label : string)
    (t_hub t_meeting s_attract s_feas : Q) : Company :=
  {| name := label; location := sample_site n label
   ; driving_time_min := Some t_hub
   ; T_hub_to_i := Some t_hub; T_i_to_meeting := Some t_meeting
   ; T_total_trip := Some (t_hub + t_meeting)
   ; T_buffer := Some (180 - (t_hub + 45 + t_meeting))
   ; T_prev_to_i := None
   ; S_attract := Some s_attract; S_feas := Some s_feas; S_final := None |}.

Definition company_A : Company := sample_company 2 "A" 20 25 9 8.
Definition company_B : Company := sample_company 3 "B" 10 15 7 9.
Definition company_C : Company := sample_company 4 "C" 50 60 5 5.

(** Two companies of equal composite score. *)
Definition company_D : Company := sample_company 6 "D" 10 15 7 9.

(** A hub whose coordinates were never resolved. *)
Definition unresolved_hub : Location :=
  {| loc_city := sample_city; loc_address := Some "深圳北站"
   ; loc_name := Some "深圳北站"; loc_lat := None; loc_lon := None |}.

(** [small] is [big] with some elements left out, the others in place. *)
Inductive subsequence {A : Type} : list A -> list A -> Prop :=
  | subsequence_nil : subsequence [] []
  | subsequence_skip (x : A) (small big : list A) :
      subsequence small big -> subsequence small (x :: big)
  | subsequence_keep (x : A) (small big : list A) :
      subsequence small big -> subsequence (x :: small) (x :: big).

(** The company [c] was cut from the directory entry [e] of [city] and kept
    on an answer of the routing client within [max_minutes]. *)
Definition retained (center : Location) (max_minutes : Z) (city : string)
    (e : DirectoryEntry) (c : Company) : Prop :=
  entry_location city e = Some (name c, location c) /\
  exists t w1 w2,
    get_amap_driving_time center (location c) w1 = (Some t, w2) /\
    t <= inject_Z max_minutes /\
    driving_time_min c = Some (round1 t).

(** The companies a route visits, in order, read off the visit items. *)
Definition visited (route : list ItineraryItem) : list string :=
  flat_map (fun item =>
              match item_details item with
              | details_company_name n => [n]
              | _ => []
              end) route.

(** A routing service that answers as in the scenario for the first nine
    requests and reports 100 minutes for every drive afterwards. *)
Definition jammed_route (k : nat) (origin destination : Coords) : Response :=
  if (k <? 9)%nat then sample_route k origin destination
  else route_found (60 * 100).

(** Composite scores do not increase along the list. *)
Definition descending (companies : list Company) : Prop :=
  StronglySorted (fun c c' => key_of c' <= key_of c) companies.

(** A company without one of the ingredients of the composite score. *)
Definition incomplete (c : Company) : Prop :=
  S_attract c = None \/ S_feas c = None \/ T_total_trip c = None.

(** A transit-choice chain that names the offered flight. *)
Definition faithful_chain (offers : list Offer) (home_commute arrival_commute : Q)
    (date : string) (meeting_start latest_hub_arrival : Q) : ChainOutput :=
  chain_dict (Some "MU5331") (Some "Flight").

(** An answer of the value-judgment service that has its three keys. *)
Definition well_formed (item : ScoredItem) : Prop :=
  scored_name item <> None /\
  scored_S_attract item <> field_absent /\
  scored_S_feas item <> field_absent.

(** The nodes in the order the edges of the graph chain them. *)
Definition pipeline : list Node :=
  [ n_check_constraints; n_geocode_locations; n_traffic_query
  ; n_select_transport_by_llm; n_calculate_final_transport
  ; n_pre_meeting_plan; n_post_meeting_plan; n_generate_final_itinerary ].

(** The part of the pipeline that starts at a node. *)
Definition pipeline_from (node : Node) : list Node :=
  match node with
  | n_check_constraints => pipeline
  | n_geocode_locations => skipn 1 pipeline
  | n_traffic_query => skipn 2 pipeline
  | n_select_transport_by_llm => skipn 3 pipeline
  | n_calculate_final_transport => skipn 4 pipeline
  | n_pre_meeting_plan => skipn 5 pipeline
  | n_post_meeting_plan => skipn 6 pipeline
  | n_generate_final_itinerary => skipn 7 pipeline
  end.

(** A company that reached the planner without an attractiveness score. *)
Definition company_E : Company :=
  {| name := "E"; location := sample_site 9 "E"
   ; driving_time_min := Some 10
   ; T_hub_to_i := Some 10; T_i_to_meeting := Some 10
   ; T_total_trip := Some 20; T_buffer := None; T_prev_to_i := None
   ; S_attract := None; S_feas := Some 5; S_final := None |}.

(** The company carries the id. *)
Definition carries (company_id : string) (c : CompanyInfo) : bool :=
  get_eqb (info_id c) (Some company_id).

(** Items in order of start time. *)
Definition by_start_time (a b : ItineraryItem) : Prop :=
  start_time a <= start_time b.

(** The scenario's data file: the three companies of the directory, under
    the ids [add_company] gave them. *)
Definition sample_info (n : Z) (label : string) (index : nat) : CompanyInfo :=
  {| info_id := Some (sample_city ++ format_03 index)%string
   ; info_name := Some label
   ; info_address := Some label
   ; info_lat := Some (Some (inject_Z n))
   ; info_lon := Some (Some 1)
   ; info_industry := Some "待分类"
   ; info_description := Some "用户新增" |}.

Definition sample_file : DataFile :=
  file_json [(sample_city, [ sample_info 2 "A" 1; sample_info 3 "B" 2
                           ; sample_info 4 "C" 3 ])].

(** A geocoder that resolves no address. *)
Definition failing_geocode (address city : string) : option (Q * Q) := None.

(** Search providers: one flight on the meeting day, no train. *)
Definition sample_flights (origin destination date : string) : list Offer :=
  if (date =? "2025-12-25")%string then [sample_offer] else [].

Definition no_trains (origin destination date : string) : list Offer := [].

(** The calendar of the scenario: instant 0 is 10:30 on 2025-12-25. *)
Definition sample_strftime (t : Q) : string :=
  if Qle_bool (- (630)) t then "2025-12-25" else "2025-12-24".

Definition sample_strptime (text : string) : string + Q :=
  if (text =? "2025-12-25 08:00")%string then inr (- (150))
  else if (text =? "2025-12-25 10:30")%string then inr 0
  else inl "time data does not match format '%Y-%m-%d %H:%M'".

Definition sample_duration (user : UserData) : option Q := Some 2.

Definition sample_report (user : UserData) (items : list ItineraryItem)
    : string := "行程报告".

(** The state on entry to [traffic_query]. *)
Definition sample_state_before_query : TravelPlanState :=
  {| user_input := None; user_data := Some sample_user
   ; flight_options := None; train_options := None
   ; selected_option_raw := None; selected_transport := None
   ; pre_meeting_route := None; post_meeting_route := None
   ; final_itinerary := None; final_itinerary_report := None
   ; home_location := Some (sample_site 7 "家")
   ; meeting_location := Some sample_venue
   ; hotel_location := Some (sample_site 8 "酒店")
   ; error_message := None |}.

(** The state on entry to [generate_final_itinerary]: one pre-meeting hop
    and the meeting. *)
Definition sample_hop : ItineraryItem :=
  {| item_type := transport; item_description := "驾车前往会议地点"
   ; start_time := 0; end_time := 40
   ; item_location := sample_venue
   ; item_details := details_duration_min 40 |}.

Definition sample_meeting : ItineraryItem :=
  {| item_type := meeting; item_description := "商务会议"
   ; start_time := 210; end_time := 330
   ; item_location := sample_venue
   ; item_details := details_other |}.

Definition sample_state_planned : TravelPlanState :=
  {| user_input := None; user_data := Some sample_user
   ; flight_options := Some [sample_offer]; train_options := Some []
   ; selected_option_raw := Some sample_offer
   ; selected_transport := Some sample_transport
   ; pre_meeting_route := Some [sample_hop]
   ; post_meeting_route := Some [sample_meeting]
   ; final_itinerary := None; final_itinerary_report := None
   ; home_location := Some (sample_site 7 "家")
   ; meeting_location := Some sample_venue
   ; hotel_location := Some (sample_site 8 "酒店")
   ; error_message := None |}.

(** Company A of the scenario, its numbers in binary64. *)
Definition company_A64 : Binary64.Company :=
  {| Binary64.name := "A"; Binary64.location := sample_site 2 "A"
   ; Binary64.driving_time_min := Some 20%float
   ; Binary64.T_hub_to_i := Some 20%float
   ; Binary64.T_i_to_meeting := Some 25%float
   ; Binary64.T_total_trip := Some 45%float
   ; Binary64.T_buffer := Some 90%float
   ; Binary64.T_prev_to_i := None
   ; Binary64.S_attract := Some 9%float; Binary64.S_feas := Some 8%float
   ; Binary64.S_final := None |}.

(** The companies the filter cuts from the directory entries that carry
    address, name, lat and lon, each annotated with [minutes]. *)
Definition annotated (city : string) (minutes : Q)
    (entries : list DirectoryEntry) : list Company :=
  flat_map (fun e =>
              match entry_location city e with
              | Some (n, company_loc) =>
                  [ {| name := n; location := company_loc
                     ; driving_time_min := Some minutes
                     ; T_hub_to_i := None; T_i_to_meeting := None
                     ; T_total_trip := None; T_buffer := None
                     ; T_prev_to_i := None
                     ; S_attract := None; S_feas := None; S_final := None |} ]
              | None => []
              end) entries.

(** The answer lacks a key that the merge step reads: its name, or, for an
    answer that names a company of the dict, ['S_attract'], or ['S_feas']
    after a numeric ['S_attract']. *)
Definition lacks_a_key (d : Dict) (item : ScoredItem) : Prop :=
  match scored_name item with
  | None => True
  | Some k =>
      match d k with
      | None => False
      | Some _ =>
          scored_S_attract item = field_absent \/
          ((exists a, scored_S_attract item = field_number a) /\
           scored_S_feas item = field_absent)
      end
  end.


(** The same answers, with an ['S_feas'] for B that is not a number. *)
Definition scores_with_a_bad_value (companies : list Company) (t_available : Q)
    : list ScoredItem :=
  [ {| scored_name := Some "A"; scored_S_attract := field_number 9
     ; scored_S_feas := field_number 8 |}
  ; {| scored_name := Some "B"; scored_S_attract := field_number 7
     ; scored_S_feas := field_invalid |}
  ; {| scored_name := Some "C"; scored_S_attract := field_number 5
     ; scored_S_feas := field_number 5 |} ].

(** The instant a plan ends: the end of its last visit, or [start] for the
    empty plan. *)
Definition plan_end (start : Q) (plan : list Visit) : Q :=
  last (map visit_end_time plan) start.

(** The nodes run one after the other from [state], each update merged
    into the state before the next node runs; the edges are not consulted. *)
Fixpoint run_nodes (nodes : list Node) (state : TravelPlanState)
    : M (Outcome TravelPlanState) :=
  match nodes with
  | [] => ret (Returns state)
  | node :: rest =>
      r <- run_node node state ;;
      match r with
      | Raises => ret Raises
      | Returns update => run_nodes rest (merge update state)
      end
  end.

(** * Properties *)

(** ** The routing client *)


Ltac step_response :=
  match goal with
  | |- context [amap_route ?k ?o ?d] =>
      let E := fresh "E" in
      destruct (amap_route k o d) as [|?data] eqn:E
  | |- context [is_success ?b] =>
      let E := fresh "E" in destruct (is_success b) eqn:E
  | |- context [is_limit_error ?b] =>
      let E := fresh "E" in destruct (is_limit_error b) eqn:E
  | |- context [body_paths ?b] =>
      let E := fresh "E" in destruct (body_paths b) eqn:E
  end; cbn [fst snd requests sleeps].


Ltac unfold_retry :=
  cbn [retry_loop]; unfold bind, requests_get, time_sleep, ret;
  cbn [fst snd requests sleeps Nat.ltb Nat.leb MAX_RETRIES Nat.sub].






(** ** The scoring engine *)

(** C4. For a company carrying numeric [S_attract], [S_feas] and
    [T_total_trip], [calculate_final_score] returns
    0.5*S_attract + 0.3*S_feas - 0.1*T_total_trip
    + 0.05*(t_available - T_total_trip - 45), evaluated in binary64 as Python
    evaluates it; the score is determined by these four inputs alone; and
    with a budget of 180 the inputs (9, 8, 45), (7, 9, 25) and (5, 5, 110)
    score 6.9, 9.2 and -5.75, that is the floats these literals denote. *)
Theorem calculate_final_score_formula
    (company : Binary64.Company) (t_available a f t : float) :
  Binary64.S_attract company = Some a ->
  Binary64.S_feas company = Some f ->
  Binary64.T_total_trip company = Some t ->
  let score := fst (Binary64.calculate_final_score company t_available) in
  score = (0.5 * a + 0.3 * f - 0.1 * t + 0.05 * (t_available - t - 45))%float
  /\ (forall other : Binary64.Company,
        Binary64.S_attract other = Some a ->
        Binary64.S_feas other = Some f ->
        Binary64.T_total_trip other = Some t ->
        fst (Binary64.calculate_final_score other t_available) = score)
  /\ (t_available = 180%float -> a = 9%float -> f = 8%float ->
      t = 45%float -> score = 6.9%float)
  /\ (t_available = 180%float -> a = 7%float -> f = 9%float ->
      t = 25%float -> score = 9.2%float)
  /\ (t_available = 180%float -> a = 5%float -> f = 5%float ->
      t = 110%float -> score = (-5.75)%float).
Proof.
  intros A F T score. subst score.
  assert (E : forall c,
            Binary64.S_attract c = Some a ->
            Binary64.S_feas c = Some f ->
            Binary64.T_total_trip c = Some t ->
            fst (Binary64.calculate_final_score c t_available)
            = (0.5 * a + 0.3 * f - 0.1 * t
               + 0.05 * (t_available - t - 45))%float).
  { intros c A' F' T'. unfold Binary64.calculate_final_score.
    rewrite A', F', T'. reflexivity. }
  rewrite (E company A F T).
  split; [reflexivity|].
  split; [intros other A' F' T'; exact (E other A' F' T')|].
  repeat split; intros; subst; vm_compute; reflexivity.
Qed.

(** ** The forward walk and the repair loop *)

Lemma walk_segments (plan : list Visit) :
  forall loc t items w loc' t' items' w',
    walk plan loc t items w = (Some (loc', t', items'), w') ->
    exists segments,
      items' = items ++ segments /\ segments_of t plan segments t'.
Proof.
  induction plan as [|v plan IH]; intros loc t items w loc' t' items' w' H.
  - cbn in H. unfold ret in H. inversion H; subst.
    exists []. rewrite app_nil_r. split; reflexivity.
  - cbn [walk] in H. unfold bind in H.
    destruct (get_amap_driving_time loc (visit_location v) w) as [[hop|] w1];
      [|discriminate].
    apply IH in H. destruct H as (segments & E & S).
    eexists (_ :: _ :: segments). split.
    + rewrite E, <- app_assoc. reflexivity.
    + cbn. repeat split; assumption.
Qed.

Lemma segments_alternating (plan : list Visit) :
  forall start segments finish last arrival,
    segments_of start plan segments finish ->
    item_type last = transport ->
    start_time last = finish ->
    end_time last = arrival ->
    alternating start (segments ++ [last]) arrival.
Proof.
  induction plan as [|v plan IH]; intros start segments finish last arrival S T B E.
  - destruct segments; [|contradiction]. cbn in S. subst finish.
    cbn. auto.
  - destruct segments as [|hop [|visit segments]]; try contradiction.
    cbn in S. destruct S as (H1 & H2 & _ & H4 & H5 & H6 & _ & _ & S).
    specialize (IH _ _ _ _ _ S T B E).
    cbn [app alternating].
    destruct (segments ++ [last]) eqn:A.
    + destruct segments; discriminate.
    + repeat split; assumption.
Qed.

Lemma firstn_removelast_prefix {A : Type} (l : list A) (k : nat) :
  (k <= length (removelast l))%nat ->
  firstn k (removelast l) = firstn k l.
Proof.
  intros H. rewrite removelast_firstn_len in *.
  rewrite length_firstn in H. rewrite firstn_firstn. f_equal. lia.
Qed.

Lemma length_removelast_cons {A : Type} (x : A) (l : list A) :
  S (length (removelast (x :: l))) = length (x :: l).
Proof.
  rewrite removelast_firstn_len, length_firstn. cbn. lia.
Qed.

(** The loop never exhausts a fuel of one unfolding per candidate; it ends
    either with every candidate dropped or on an accepting walk over a
    prefix of the plan, and each walk before the last dropped exactly one
    candidate. *)
Lemma repair_loop_outcome (hub venue : Location) (t0 latest : Q) (fuel : nat) :
  forall (s : RepairState) (w : World),
    (length (final_visit_plan_data s) <= fuel)%nat ->
    exists s' w',
      repair_loop fuel hub venue t0 latest s w = (Some s', w') /\
      ((final_visit_plan_data s' = [] /\
        pre_meeting_route_final s' = pre_meeting_route_final s /\
        walks s' = (walks s + length (final_visit_plan_data s))%nat)
       \/
       (accepted hub venue t0 latest s' w' /\
        final_visit_plan_data s' =
          firstn (length (final_visit_plan_data s'))
                 (final_visit_plan_data s) /\
        (length (final_visit_plan_data s') + walks s' =
         length (final_visit_plan_data s) + walks s + 1)%nat)).
Proof.
  induction fuel as [|fuel IH]; intros s w L.
  - destruct (final_visit_plan_data s) eqn:P; [|cbn in L; lia].
    exists s, w. cbn. rewrite P. split; [reflexivity|].
    left. repeat split; auto; cbn; lia.
  - cbn [repair_loop].
    destruct (final_visit_plan_data s) as [|v plan] eqn:P.
    + exists s, w. split; [reflexivity|]. left. repeat split; auto; cbn; lia.
    + assert (Lpop : forall fa,
                (length (final_visit_plan_data (pop s fa)) <= fuel)%nat).
      { intros fa. cbn. rewrite P.
        pose proof (length_removelast_cons v plan). lia. }
      assert (Drop : forall fa w1,
        exists s' w',
          repair_loop fuel hub venue t0 latest (pop s fa) w1 = (Some s', w') /\
          ((final_visit_plan_data s' = [] /\
            pre_meeting_route_final s' = pre_meeting_route_final s /\
            walks s' = (walks s + length (v :: plan))%nat)
           \/
           (accepted hub venue t0 latest s' w' /\
            final_visit_plan_data s' =
              firstn (length (final_visit_plan_data s')) (v :: plan) /\
            (length (final_visit_plan_data s') + walks s' =
             length (v :: plan) + walks s + 1)%nat))).
      { intros fa w1. destruct (IH (pop s fa) w1 (Lpop fa)) as (s' & w' & R & C).
        exists s', w'. split; [exact R|].
        pose proof (length_removelast_cons v plan) as LR.
        cbn [pop final_visit_plan_data pre_meeting_route_final walks] in C.
        rewrite P in C.
        destruct C as [(C1 & C2 & C3)|(C1 & C2 & C3)].
        - left. repeat split; auto. lia.
        - right. split; [exact C1|]. split; [|lia].
          rewrite C2 at 1. apply firstn_removelast_prefix.
          rewrite C2. rewrite length_firstn. lia. }
      unfold bind.
      destruct (walk (v :: plan) hub t0 [] w) as [[[[loc t] segments]|] w1] eqn:W.
      * destruct (get_amap_driving_time loc venue w1) as [[c|] w2] eqn:G.
        -- destruct (Qle_bool (t + c) latest) eqn:Q.
           ++ eexists _, w2. split; [reflexivity|]. right.
              cbn [final_visit_plan_data pre_meeting_route_final
                   final_arrival_time walks].
              split; [|split].
              ** unfold accepted.
                 cbn [final_visit_plan_data pre_meeting_route_final
                      final_arrival_time walks].
                 exists w, w1, loc, t, segments, c.
                 eexists. split; [discriminate|].
                 split; [exact W|]. split; [exact G|].
                 split; [apply Qle_bool_iff; exact Q|].
                 split; [reflexivity|]. split; [reflexivity|].
                 cbn. auto.
              ** rewrite firstn_all. reflexivity.
              ** lia.
           ++ apply Drop.
        -- apply Drop.
      * apply Drop.
Qed.

(** C2. Handed a plan of [n] candidates, the repair loop terminates after at
    most [n + 1] forward walks. Each walk that does not accept drops exactly
    the last candidate, so the loop stops either with every candidate dropped
    after [n] walks and an empty route, or on a walk over the first
    [n + 1 - walks] candidates whose arrival meets the deadline. *)
Theorem feasibility_repair_terminates
    (arrival_hub_loc meeting_loc : Location)
    (arrival_at_hub_dt latest_arrival_needed : Q)
    (plan : list Visit) (w : World) :
  exists s' w',
    feasibility_repair arrival_hub_loc meeting_loc arrival_at_hub_dt
      latest_arrival_needed plan w = (Some s', w') /\
    (walks s' <= length plan + 1)%nat /\
    (forall s fa,
       final_visit_plan_data s <> [] ->
       final_visit_plan_data (pop s fa) = removelast (final_visit_plan_data s) /\
       (length (final_visit_plan_data (pop s fa))
        < length (final_visit_plan_data s))%nat) /\
    ((final_visit_plan_data s' = [] /\
      pre_meeting_route_final s' = [] /\
      walks s' = length plan)
     \/
     (exists arrival,
        (1 <= walks s')%nat /\
        final_visit_plan_data s' = firstn (length plan + 1 - walks s') plan /\
        final_visit_plan_data s' <> [] /\
        pre_meeting_route_final s' <> [] /\
        final_arrival_time s' = Some arrival /\
        arrival <= latest_arrival_needed)).
Proof.
  unfold feasibility_repair.
  destruct (repair_loop_outcome arrival_hub_loc meeting_loc arrival_at_hub_dt
              latest_arrival_needed (length plan)
              {| final_visit_plan_data := plan; pre_meeting_route_final := []
               ; final_arrival_time := None; walks := O |} w (le_n _))
    as (s' & w' & R & C).
  cbn [final_visit_plan_data pre_meeting_route_final walks] in C.
  exists s', w'. split; [exact R|].
  split; [destruct C as [(_ & _ & C)|(_ & _ & C)]; lia|].
  split.
  - intros s fa N. cbn [pop final_visit_plan_data]. split; [reflexivity|].
    destruct (final_visit_plan_data s) as [|v l]; [contradiction|].
    pose proof (length_removelast_cons v l). lia.
  - destruct C as [(C1 & C2 & C3)|(A & C2 & C3)].
    + left. auto.
    + right.
      destruct A as (w1 & w2 & loc & t & segments & c & last &
                     N & _ & _ & D & F & Rt & _).
      exists (t + c).
      pose proof (f_equal (@length _) C2) as HL.
      rewrite length_firstn in HL.
      split; [lia|]. split.
      { rewrite C2 at 1. f_equal. lia. }
      split; [exact N|]. split.
      { rewrite Rt. destruct segments; discriminate. }
      split; assumption.
Qed.

(** C10. A non-empty route returned by the repair loop starts with a transit
    hop leaving at the hub-arrival instant, alternates transit hops and
    45-minute visits, each segment starting when the previous one ends, and
    finishes with a transit hop that ends at the reported final arrival. *)
Theorem repaired_route_contiguous
    (arrival_hub_loc meeting_loc : Location)
    (arrival_at_hub_dt latest_arrival_needed : Q)
    (plan : list Visit) (w w' : World) (s' : RepairState) :
  feasibility_repair arrival_hub_loc meeting_loc arrival_at_hub_dt
    latest_arrival_needed plan w = (Some s', w') ->
  pre_meeting_route_final s' <> [] ->
  exists arrival hop visit rest,
    final_arrival_time s' = Some arrival /\
    pre_meeting_route_final s' = hop :: visit :: rest /\
    alternating arrival_at_hub_dt (pre_meeting_route_final s') arrival.
Proof.
  intros R N. unfold feasibility_repair in R.
  destruct (repair_loop_outcome arrival_hub_loc meeting_loc arrival_at_hub_dt
              latest_arrival_needed (length plan)
              {| final_visit_plan_data := plan; pre_meeting_route_final := []
               ; final_arrival_time := None; walks := O |} w (le_n _))
    as (s1 & w1 & R1 & C).
  rewrite R in R1. inversion R1; subst s1 w1. clear R1.
  cbn [final_visit_plan_data pre_meeting_route_final walks] in C.
  destruct C as [(_ & C & _)|(A & _)]; [contradiction|].
  destruct A as (wa & wb & loc & t & segments & c & last &
                 NE & W & _ & _ & F & Rt & T1 & T2 & T3 & _).
  apply walk_segments in W. destruct W as (segs & E & S).
  cbn [app] in E. subst segs.
  exists (t + c).
  destruct (final_visit_plan_data s') as [|v l]; [contradiction|].
  destruct segments as [|hop [|visit segments]]; try contradiction.
  exists hop, visit, (segments ++ [last]).
  split; [exact F|]. split; [rewrite Rt; reflexivity|].
  rewrite Rt. eapply segments_alternating; eauto.
Qed.

(** ** From the pool to the plan *)

Lemma eligible_companies_admitted (hub venue : Location) (available : Q)
    (companies : list Company) :
  forall w pool w',
    eligible_companies hub venue available companies w = (pool, w') ->
    forall c, In c pool -> admitted hub venue available c.
Proof.
  induction companies as [|company rest IH]; intros w pool w' H c I.
  - cbn in H. unfold ret in H. inversion H; subst. contradiction.
  - cbn [eligible_companies] in H. unfold bind in H.
    destruct (get_amap_driving_time hub (location company) w)
      as [hub_leg w1] eqn:G1.
    destruct (get_amap_driving_time (location company) venue w1)
      as [meeting_leg w2] eqn:G2.
    destruct hub_leg as [a|]; [|eauto].
    destruct meeting_leg as [b|]; [|eauto].
    destruct (Qle_bool (a + COMPANY_VISIT_DURATION_MINUTES + b) available)
      eqn:Q; [|eauto].
    destruct (eligible_companies hub venue available rest w2)
      as [available_companies w3] eqn:R.
    unfold ret in H. inversion H; subst. destruct I as [I|I]; [|eauto].
    subst c. exists a, b, w, w1, w2. cbn.
    repeat split; auto. apply Qle_bool_iff. exact Q.
Qed.

Lemma companies_by_name_sound (companies : list Company) :
  forall (d : Dict) (k : string) (c : Company),
    fold_left (fun d c => dict_set (name c) c d) companies d k = Some c ->
    (In c companies /\ name c = k) \/ d k = Some c.
Proof.
  induction companies as [|x rest IH]; intros d k c H.
  - right. exact H.
  - cbn [fold_left] in H. apply IH in H. destruct H as [[I N]|H].
    + left. split; [right; exact I|exact N].
    + unfold dict_set in H. destruct (k =? name x)%string eqn:E.
      * inversion H; subst. apply String.eqb_eq in E.
        left. split; [left; reflexivity|symmetry; exact E].
      * right. exact H.
Qed.

Lemma companies_by_name_lookup (companies : list Company) (k : string)
    (c : Company) :
  companies_by_name companies k = Some c -> In c companies /\ name c = k.
Proof.
  intros H. apply companies_by_name_sound in H.
  destruct H as [H|H]; [exact H|discriminate].
Qed.

Lemma merge_scores_sound (d : Dict) (scored : list ScoredItem) :
  forall merged,
    merge_scores d scored = Returns merged ->
    forall m, In m merged ->
      exists c, d (name m) = Some c /\ stems_from m c /\
                present (S_attract m) = true /\ present (S_feas m) = true.
Proof.
  induction scored as [|item rest IH]; intros merged H m I.
  - inversion H; subst. contradiction.
  - cbn [merge_scores] in H.
    destruct (scored_name item) as [k|]; [|discriminate].
    destruct (d k) as [original|] eqn:L; [|eauto].
    destruct (float_of (scored_S_attract item) (S_attract original));
      [|eauto|discriminate].
    destruct (float_of (scored_S_feas item) (S_feas original));
      [|eauto|discriminate].
    destruct (merge_scores d rest) as [tl|]; [|discriminate].
    inversion H; subst. destruct I as [I|I]; [|eauto].
    subst m. exists original. cbn. unfold stems_from. cbn.
    repeat split; auto.
Qed.

Lemma calculate_final_score_keeps (c : Company) (t_available : Q) :
  let c' := snd (calculate_final_score c t_available) in
  name c' = name c /\ location c' = location c /\
  T_hub_to_i c' = T_hub_to_i c /\ T_i_to_meeting c' = T_i_to_meeting c /\
  T_total_trip c' = T_total_trip c /\ T_prev_to_i c' = T_prev_to_i c /\
  S_attract c' = S_attract c /\ S_feas c' = S_feas c.
Proof.
  cbv zeta. unfold calculate_final_score.
  destruct (S_attract c) eqn:A, (S_feas c) eqn:F, (T_total_trip c) eqn:T;
    cbn; rewrite ?A, ?F, ?T; repeat split; reflexivity.
Qed.

Lemma calculate_final_score_assigns (c : Company) (t_available : Q) :
  S_final c = None ->
  present (S_final (snd (calculate_final_score c t_available))) = true ->
  present (S_attract c) = true /\ present (S_feas c) = true /\
  present (T_total_trip c) = true.
Proof.
  unfold calculate_final_score. intros N.
  destruct (S_attract c), (S_feas c), (T_total_trip c); cbn; rewrite ?N; auto;
    discriminate.
Qed.

Lemma insert_desc_perm (x : Q * Company) (l : list (Q * Company)) :
  Permutation (insert_desc x l) (x :: l).
Proof.
  induction l as [|y l IH]; cbn; [reflexivity|].
  destruct (Qle_bool (fst y) (fst x)); [reflexivity|].
  rewrite IH. apply perm_swap.
Qed.

Lemma sort_desc_perm (l : list (Q * Company)) : Permutation (sort_desc l) l.
Proof.
  induction l as [|x l IH]; cbn; [reflexivity|].
  rewrite insert_desc_perm. apply perm_skip, IH.
Qed.

Lemma decorate_keys (xs : list Company) :
  forall ds, decorate xs = Returns ds ->
    map snd ds = xs /\ map (fun d => Some (fst d)) ds = map S_final xs.
Proof.
  induction xs as [|x xs IH]; intros ds H.
  - inversion H; subst. split; reflexivity.
  - cbn [decorate] in H. destruct (S_final x) as [k|] eqn:K; [|discriminate].
    destruct (decorate xs) as [tl|]; [|discriminate].
    inversion H; subst. destruct (IH tl eq_refl) as [E1 E2].
    cbn. rewrite E1, E2, K. split; reflexivity.
Qed.

Lemma sorted_by_S_final_perm (xs sorted : list Company) :
  sorted_by_S_final xs = Returns sorted -> Permutation sorted xs.
Proof.
  unfold sorted_by_S_final. destruct (decorate xs) as [ds|] eqn:D; [|discriminate].
  intros H. inversion H; subst.
  destruct (decorate_keys _ _ D) as [E _]. rewrite <- E.
  apply Permutation_map, sort_desc_perm.
Qed.

(** A visit of the plan was cut from the company [c]. *)
Lemma greedy_loop_sound (sorted : list Company) :
  forall acc t remaining plan,
    greedy_loop sorted acc t remaining = Returns plan ->
    forall v, In v plan ->
      In v acc \/
      exists c, In c sorted /\ visit_name v = name c /\
                visit_location v = location c.
Proof.
  induction sorted as [|c rest IH]; intros acc t remaining plan H v I.
  - inversion H; subst. left. exact I.
  - cbn [greedy_loop] in H.
    destruct (hop_of _ c) as [hop|]; [|discriminate].
    destruct (Qle_bool (hop + COMPANY_VISIT_DURATION_MINUTES) remaining).
    + destruct (IH _ _ _ _ H v I) as [A|(c' & I' & N & L)].
      * apply in_app_or in A. destruct A as [A|[A|[]]]; [left; exact A|].
        right. exists c. subst v. cbn. auto.
      * right. exists c'. cbn. auto.
    + inversion H; subst. left. exact I.
Qed.

Lemma plan_multi_company_visit_sound (scored : list Company)
    (t_available t0 : Q) (hub venue : Location) (plan : list Visit) :
  plan_multi_company_visit scored t_available t0 hub venue = Returns plan ->
  forall v, In v plan ->
    exists m, In m scored /\ visit_name v = name m /\
              visit_location v = location m.
Proof.
  unfold plan_multi_company_visit. intros H v I.
  destruct (sorted_by_S_final _) as [sorted|] eqn:S; [|discriminate].
  destruct (greedy_loop_sound _ _ _ _ _ H v I) as [[]|(c & C & N & L)].
  apply sorted_by_S_final_perm in S.
  apply (Permutation_in _ S) in C. apply in_map_iff in C.
  destruct C as (m & E & M). exists m. subst c.
  destruct (calculate_final_score_keeps m t_available) as (K1 & K2 & _).
  rewrite K1 in N. rewrite K2 in L. auto.
Qed.

Lemma segments_visits (plan : list Visit) :
  forall start segments finish,
    segments_of start plan segments finish ->
    forall item, In item segments -> item_type item = company_visit ->
      exists v, In v plan /\ item_location item = visit_location v /\
                item_details item = details_company_name (visit_name v).
Proof.
  induction plan as [|v plan IH]; intros start segments finish S item I T.
  - destruct segments; [contradiction|contradiction].
  - destruct segments as [|hop [|visit segments]]; try contradiction.
    cbn in S. destruct S as (H1 & _ & _ & _ & _ & _ & H7 & H8 & S).
    destruct I as [I|[I|I]].
    + subst item. rewrite H1 in T. discriminate.
    + subst item. exists v. split; [left; reflexivity|]. auto.
    + destruct (IH _ _ _ S item I T) as (v' & I' & E).
      exists v'. split; [right; exact I'|exact E].
Qed.

Lemma firstn_In {A : Type} (k : nat) (l : list A) (x : A) :
  In x (firstn k l) -> In x l.
Proof.
  intros H. rewrite <- (firstn_skipn k l). apply in_or_app. left. exact H.
Qed.

(** C1. When [pre_meeting_plan] returns a non-empty route, the reported
    final arrival is no later than the meeting start minus the 30-minute
    buffer, and every visit of the route is a visit of a company of the pool,
    which was admitted on the answers of the routing client with
    T_hub_to_i + 45 + T_i_to_meeting <= available_minutes. *)
Theorem pre_meeting_plan_feasible
    (state : TravelPlanState) (w w' : World) (r : PreMeetingResult) :
  pre_meeting_plan state w = (Returns r, w') ->
  result_pre_meeting_route r <> [] ->
  exists user meeting_loc selected arrival_commute_min pool w_pool arrival,
    user_data state = Some user /\
    meeting_location state = Some meeting_loc /\
    selected_transport state = Some selected /\
    arrival_commute_of selected = Some arrival_commute_min /\
    let arrival_hub_loc := item_location selected in
    let latest_arrival_needed :=
      meeting_start_dt user - POST_ARRIVAL_BUFFER_MINUTES in
    let available_minutes := latest_arrival_needed - end_time selected in
    candidate_pool arrival_hub_loc meeting_loc arrival_commute_min
      available_minutes w = (pool, w_pool) /\
    result_final_arrival_at_venue r = Some arrival /\
    arrival <= latest_arrival_needed /\
    forall item,
      In item (result_pre_meeting_route r) ->
      item_type item = company_visit ->
      exists c,
        In c pool /\
        item_location item = location c /\
        item_details item = details_company_name (name c) /\
        admitted arrival_hub_loc meeting_loc available_minutes c.
Proof.
  unfold pre_meeting_plan. intros H N.
  destruct (user_data state) as [user|]; [|discriminate].
  destruct (meeting_location state) as [meeting_loc|]; [|discriminate].
  destruct (selected_transport state) as [selected|];
    [|inversion H; subst; contradiction].
  destruct (arrival_commute_of selected) as [acm|] eqn:AC; [|discriminate].
  unfold bind in H.
  set (hub := item_location selected) in *.
  set (latest := meeting_start_dt user - POST_ARRIVAL_BUFFER_MINUTES) in *.
  set (available := latest - end_time selected) in *.
  destruct (candidate_pool hub meeting_loc acm available w)
    as [pool w_pool] eqn:P.
  destruct pool as [|c0 pool0]; [inversion H; subst; contradiction|].
  set (pool := c0 :: pool0) in *.
  destruct (get_company_scores_by_llm pool available) as [|s0 scored0];
    [inversion H; subst; contradiction|].
  destruct (merge_scores (companies_by_name pool) (s0 :: scored0))
    as [merged|] eqn:Mg; [|discriminate].
  destruct (plan_multi_company_visit merged available (end_time selected)
              hub meeting_loc) as [plan|] eqn:Pl; [|discriminate].
  destruct plan as [|v0 plan0]; [inversion H; subst; contradiction|].
  set (plan := v0 :: plan0) in *.
  destruct (feasibility_repair hub meeting_loc (end_time selected) latest plan
              w_pool) as [[s|] w_end] eqn:Rp; [|discriminate].
  unfold ret in H. inversion H; subst r w_end. clear H.
  cbn [result_pre_meeting_route result_final_arrival_at_venue] in *.
  unfold feasibility_repair in Rp.
  destruct (repair_loop_outcome hub meeting_loc (end_time selected) latest
              (length plan)
              {| final_visit_plan_data := plan; pre_meeting_route_final := []
               ; final_arrival_time := None; walks := O |} w_pool (le_n _))
    as (s1 & w1 & R1 & C).
  rewrite Rp in R1. inversion R1; subst s1 w1. clear R1.
  cbn [final_visit_plan_data pre_meeting_route_final walks] in C.
  destruct C as [(_ & C & _)|(A & Pre & _)]; [contradiction|].
  destruct A as (wa & wb & loc & t & segments & c & last &
                 _ & W & _ & D & F & Rt & T1 & _).
  exists user, meeting_loc, selected, acm, pool, w_pool, (t + c).
  repeat (split; [reflexivity|]).
  split; [exact AC|].
  cbv zeta. fold hub latest available.
  split; [exact P|].
  split; [rewrite F; reflexivity|].
  split; [exact D|].
  intros item I T.
  apply walk_segments in W. destruct W as (segs & E & S).
  cbn [app] in E. subst segs. rewrite Rt in I.
  apply in_app_or in I. destruct I as [I|[I|[]]];
    [|subst item; rewrite T1 in T; discriminate].
  destruct (segments_visits _ _ _ _ S item I T) as (v & Iv & L & Dt).
  rewrite Pre in Iv. apply firstn_In in Iv.
  destruct (plan_multi_company_visit_sound _ _ _ _ _ _ Pl v Iv)
    as (m & Im & Nm & Lm).
  destruct (merge_scores_sound _ _ _ Mg m Im) as (orig & Lk & St & _).
  apply companies_by_name_lookup in Lk. destruct Lk as [Io No].
  destruct St as (SL & _).
  exists orig. split; [exact Io|].
  split; [congruence|]. split; [congruence|].
  unfold candidate_pool, bind in P.
  destruct (filter_companies_by_area_by_time hub (int_of (acm * 2)) w)
    as [first w_f].
  eapply eligible_companies_admitted; eauto.
Qed.

(** ** Who gets a composite score *)

Lemma filter_loop_unscored (center : Location) (max_minutes : Z) (city : string)
    (entries : list DirectoryEntry) :
  forall w nearby w',
    filter_loop center max_minutes city entries w = (nearby, w') ->
    forall c, In c nearby -> unscored c.
Proof.
  induction entries as [|e rest IH]; intros w nearby w' H c I.
  - cbn in H. unfold ret in H. inversion H; subst. contradiction.
  - cbn [filter_loop] in H.
    destruct (entry_location city e) as [[n loc]|]; [|eauto].
    unfold bind in H.
    destruct (get_amap_driving_time center loc w) as [[t|] w1]; [|eauto].
    destruct (Qle_bool t (inject_Z max_minutes)); [|eauto].
    destruct (filter_loop center max_minutes city rest w1) as [tl w2] eqn:R.
    unfold ret in H. inversion H; subst.
    destruct I as [I|I]; [subst c; repeat split|eauto].
Qed.

Lemma eligible_companies_unscored (hub venue : Location) (available : Q)
    (companies : list Company) :
  (forall c, In c companies -> unscored c) ->
  forall w pool w',
    eligible_companies hub venue available companies w = (pool, w') ->
    forall c, In c pool -> unscored c.
Proof.
  induction companies as [|company rest IH]; intros U w pool w' H c I.
  - cbn in H. unfold ret in H. inversion H; subst. contradiction.
  - assert (U' : forall c, In c rest -> unscored c)
      by (intros; apply U; right; assumption).
    cbn [eligible_companies] in H. unfold bind in H.
    destruct (get_amap_driving_time hub (location company) w) as [hub_leg w1].
    destruct (get_amap_driving_time (location company) venue w1)
      as [meeting_leg w2].
    destruct hub_leg as [a|]; [|eauto].
    destruct meeting_leg as [b|]; [|eauto].
    destruct (Qle_bool (a + COMPANY_VISIT_DURATION_MINUTES + b) available);
      [|eauto].
    destruct (eligible_companies hub venue available rest w2) as [tl w3] eqn:R.
    unfold ret in H. inversion H; subst.
    destruct I as [I|I]; [|eauto].
    subst c. apply (U company). left. reflexivity.
Qed.

Lemma candidate_pool_unscored (hub venue : Location) (acm available : Q)
    (w w' : World) (pool : list Company) :
  candidate_pool hub venue acm available w = (pool, w') ->
  forall c, In c pool -> unscored c.
Proof.
  unfold candidate_pool, bind, filter_companies_by_area_by_time. intros H.
  destruct (loc_city hub =? "")%string.
  - unfold ret in H. cbn in H. inversion H; subst. contradiction.
  - destruct (filter_loop hub (int_of (acm * 2)) (loc_city hub)
                (COMPANIES_DB (loc_city hub)) w) as [first w1] eqn:F.
    eapply eligible_companies_unscored; eauto.
    eapply filter_loop_unscored; eauto.
Qed.

Lemma candidate_pool_admitted (hub venue : Location) (acm available : Q)
    (w w' : World) (pool : list Company) :
  candidate_pool hub venue acm available w = (pool, w') ->
  forall c, In c pool -> admitted hub venue available c.
Proof.
  unfold candidate_pool, bind. intros H.
  destruct (filter_companies_by_area_by_time hub (int_of (acm * 2)) w)
    as [first w1].
  eapply eligible_companies_admitted; eauto.
Qed.

Lemma merge_scores_answered (d : Dict) (scored : list ScoredItem) :
  forall merged,
    merge_scores d scored = Returns merged ->
    forall m, In m merged ->
      exists item c a f,
        In item scored /\ scored_name item = Some (name m) /\
        d (name m) = Some c /\
        S_attract m = Some a /\ S_feas m = Some f /\
        float_of (scored_S_attract item) (S_attract c) = converted a /\
        float_of (scored_S_feas item) (S_feas c) = converted f.
Proof.
  induction scored as [|item rest IH]; intros merged H m I.
  - inversion H; subst. contradiction.
  - assert (Step : forall tl, merge_scores d rest = Returns tl -> In m tl ->
             exists item0 c a f,
               In item0 (item :: rest) /\ scored_name item0 = Some (name m) /\
               d (name m) = Some c /\
               S_attract m = Some a /\ S_feas m = Some f /\
               float_of (scored_S_attract item0) (S_attract c) = converted a /\
               float_of (scored_S_feas item0) (S_feas c) = converted f).
    { intros tl Htl Itl. destruct (IH tl Htl m Itl) as (i & c & a & f & Ii & R).
      exists i, c, a, f. split; [right; exact Ii|exact R]. }
    cbn [merge_scores] in H.
    destruct (scored_name item) as [k|] eqn:K; [|discriminate].
    destruct (d k) as [original|] eqn:L; [|eauto].
    destruct (float_of (scored_S_attract item) (S_attract original)) as [a| |]
      eqn:FA; [|eauto|discriminate].
    destruct (float_of (scored_S_feas item) (S_feas original)) as [f| |]
      eqn:FF; [|eauto|discriminate].
    destruct (merge_scores d rest) as [tl|]; [|discriminate].
    inversion H; subst. destruct I as [I|I]; [|eauto].
    subst m. exists item, original, a, f. cbn.
    split; [left; reflexivity|]. auto 10.
Qed.

Lemma float_of_unscored (field : ScoreField) (q : Q) :
  float_of field None = converted q -> field = field_number q.
Proof.
  destruct field; cbn; intros H; inversion H; reflexivity.
Qed.

(** When the merge step completes, the companies handed to the ranking are
    companies of the pool, both of whose legs the routing client answered,
    that the value-judgment service named and gave two numeric scores; they
    carry no composite score yet. [calculate_final_score] writes a
    composite score on a company that has none only when [S_attract],
    [S_feas] and [T_total_trip] are on it, and every visit the greedy pass
    selects is a visit of such a company. *)
Lemma composite_score_only_when_complete
    (arrival_hub_loc meeting_loc : Location)
    (arrival_commute_min available_minutes : Q)
    (w w_pool : World) (pool merged : list Company) :
  candidate_pool arrival_hub_loc meeting_loc arrival_commute_min
    available_minutes w = (pool, w_pool) ->
  merge_scores (companies_by_name pool)
    (get_company_scores_by_llm pool available_minutes) = Returns merged ->
  (forall m, In m merged ->
     fully_scored m /\ S_final m = None /\
     (exists c, In c pool /\ name c = name m /\ stems_from m c /\
                admitted arrival_hub_loc meeting_loc available_minutes c) /\
     (exists item a f,
        In item (get_company_scores_by_llm pool available_minutes) /\
        scored_name item = Some (name m) /\
        scored_S_attract item = field_number a /\
        scored_S_feas item = field_number f /\
        S_attract m = Some a /\ S_feas m = Some f))
  /\ (forall (c : Company) (t_available : Q),
        S_final c = None ->
        present (S_final (snd (calculate_final_score c t_available))) = true ->
        present (S_attract c) = true /\ present (S_feas c) = true /\
        present (T_total_trip c) = true)
  /\ (forall hub_arrival_dt plan,
        plan_multi_company_visit merged available_minutes hub_arrival_dt
          arrival_hub_loc meeting_loc = Returns plan ->
        forall v, In v plan ->
          exists m, In m merged /\ visit_name v = name m /\
                    visit_location v = location m /\ fully_scored m).
Proof.
  intros P Mg.
  assert (Full : forall m, In m merged ->
            fully_scored m /\ S_final m = None /\
            (exists c, In c pool /\ name c = name m /\ stems_from m c /\
                admitted arrival_hub_loc meeting_loc available_minutes c) /\
            (exists item a f,
               In item (get_company_scores_by_llm pool available_minutes) /\
               scored_name item = Some (name m) /\
               scored_S_attract item = field_number a /\
               scored_S_feas item = field_number f /\
               S_attract m = Some a /\ S_feas m = Some f)).
  { intros m I.
    destruct (merge_scores_sound _ _ _ Mg m I) as (c & L & St & PA & PF).
    destruct (merge_scores_answered _ _ _ Mg m I)
      as (item & c' & a & f & Ii & Nm & L' & Am & Fm & FA & FF).
    rewrite L in L'. inversion L'; subst c'. clear L'.
    apply companies_by_name_lookup in L. destruct L as [Ic Nc].
    pose proof (candidate_pool_admitted _ _ _ _ _ _ _ P c Ic) as Ad.
    destruct (candidate_pool_unscored _ _ _ _ _ _ _ P c Ic) as (UA & UF & US).
    rewrite UA in FA. rewrite UF in FF.
    apply float_of_unscored in FA. apply float_of_unscored in FF.
    destruct St as (S1 & S2 & S3 & S4 & S5).
    destruct Ad as (th & tm & w1 & w2 & w3 & G1 & G2 & H1 & H2 & H3 & Le).
    split; [|split; [|split]].
    - unfold fully_scored. rewrite S2, S3, H1, H2. auto.
    - rewrite S5. exact US.
    - exists c. split; [exact Ic|]. split; [exact Nc|].
      split; [repeat split; assumption|].
      exists th, tm, w1, w2, w3. auto 10.
    - exists item, a, f. auto 10. }
  split; [exact Full|]. split.
  - apply calculate_final_score_assigns.
  - intros t0 plan Pl v I.
    destruct (plan_multi_company_visit_sound _ _ _ _ _ _ Pl v I)
      as (m & Im & Nm & Lm).
    exists m. split; [exact Im|]. split; [exact Nm|]. split; [exact Lm|].
    apply Full. exact Im.
Qed.

Lemma merge_scores_raises_iff (d : Dict) (scored : list ScoredItem) :
  (forall k c, d k = Some c -> S_attract c = None /\ S_feas c = None) ->
  merge_scores d scored = Raises <->
  exists item, In item scored /\ lacks_a_key d item.
Proof.
  intros U. induction scored as [|item rest IH].
  - split; [discriminate|intros (i & [] & _)].
  - assert (Skip : ~ lacks_a_key d item ->
              (merge_scores d rest = Raises <->
               exists i, In i (item :: rest) /\ lacks_a_key d i)).
    { intros N. rewrite IH. split.
      - intros (i & I & L). exists i. split; [right; exact I|exact L].
      - intros (i & [E|I] & L); [subst i; contradiction|eauto]. }
    assert (Hit : lacks_a_key d item ->
              (Raises = @Raises (list Company) <->
               exists i, In i (item :: rest) /\ lacks_a_key d i)).
    { intros L. split; [|reflexivity]. intros _. exists item.
      split; [left; reflexivity|exact L]. }
    cbn [merge_scores]. unfold lacks_a_key in Skip, Hit.
    destruct (scored_name item) as [k|]; [|apply Hit; exact I].
    destruct (d k) as [c|] eqn:L; [|apply Skip; intros []].
    destruct (U k c L) as [UA UF]. rewrite UA, UF.
    destruct (scored_S_attract item) as [| |a]; cbn [float_of].
    + apply Hit. left. reflexivity.
    + apply Skip. intros [H|[(a & H) _]]; discriminate.
    + destruct (scored_S_feas item) as [| |f]; cbn [float_of].
      * apply Hit. right. split; [exists a; reflexivity|reflexivity].
      * apply Skip. intros [H|[_ H]]; discriminate.
      * destruct (merge_scores d rest) as [merged|] eqn:M.
        -- split; [discriminate|]. intros H.
           assert (N : ~ (field_number a = field_absent \/
                          (exists a0, field_number a = field_number a0) /\
                          field_number f = field_absent))
             by (intros [X|[_ X]]; discriminate).
           apply (Skip N) in H. discriminate.
        -- split; [intros _|reflexivity].
           assert (N : ~ (field_number a = field_absent \/
                          (exists a0, field_number a = field_number a0) /\
                          field_number f = field_absent))
             by (intros [X|[_ X]]; discriminate).
           apply (Skip N). reflexivity.
Qed.

(** What the merge step of [pre_meeting_plan] makes of the answers of the
    value-judgment service, for every answer. It raises, and the node with
    it, exactly when some answer lacks its name, or names a company of the
    pool and lacks ['S_attract'], or ['S_feas'] after a numeric
    ['S_attract']. Otherwise every company handed to the ranking is a
    company of the pool, with both legs answered, that the service named
    and gave two numeric scores -- answers that name no company of the pool
    or carry a score that is not a number are dropped -- and every visit
    the greedy pass selects is a visit of such a company. *)
Theorem score_merge_outcome
    (arrival_hub_loc meeting_loc : Location)
    (arrival_commute_min available_minutes : Q)
    (w w_pool : World) (pool : list Company) :
  candidate_pool arrival_hub_loc meeting_loc arrival_commute_min
    available_minutes w = (pool, w_pool) ->
  let answers := get_company_scores_by_llm pool available_minutes in
  let outcome := merge_scores (companies_by_name pool) answers in
  (outcome = Raises <->
   exists item, In item answers /\ lacks_a_key (companies_by_name pool) item)
  /\ (forall merged,
        outcome = Returns merged ->
        (forall m, In m merged ->
           fully_scored m /\ S_final m = None /\
           (exists c, In c pool /\ name c = name m /\ stems_from m c /\
                      admitted arrival_hub_loc meeting_loc available_minutes c) /\
           (exists item a f,
              In item answers /\
              scored_name item = Some (name m) /\
              scored_S_attract item = field_number a /\
              scored_S_feas item = field_number f /\
              S_attract m = Some a /\ S_feas m = Some f))
        /\ (forall hub_arrival_dt plan,
              plan_multi_company_visit merged available_minutes hub_arrival_dt
                arrival_hub_loc meeting_loc = Returns plan ->
              forall v, In v plan ->
                exists m, In m merged /\ visit_name v = name m /\
                          visit_location v = location m /\ fully_scored m)).
Proof.
  intros P. cbv zeta. split.
  - apply merge_scores_raises_iff. intros k c L.
    apply companies_by_name_lookup in L. destruct L as [I _].
    destruct (candidate_pool_unscored _ _ _ _ _ _ _ P c I) as (A & F & _).
    split; assumption.
  - intros merged Mg.
    destruct (composite_score_only_when_complete _ _ _ _ _ _ _ _ P Mg)
      as (H1 & _ & H3).
    split; [exact H1|exact H3].
Qed.

(** ** The transport selector *)

Lemma find_no_match {A : Type} (f : A -> bool) (l : list A) :
  (forall x, In x l -> f x = false) -> find f l = None.
Proof.
  induction l as [|x l IH]; intros H; [reflexivity|].
  cbn. rewrite (H x (or_introl eq_refl)). apply IH.
  intros y I. apply H. right. exact I.
Qed.

Lemma select_transport_unmatched (state : TravelPlanState) (w w' : World)
    (selected_id selected_type : option string) :
  chain_answers state w (chain_dict selected_id selected_type) w' ->
  matches_no_offer selected_id selected_type (transport_options_of state) ->
  select_transport_by_llm state w =
  (Returns [set_error_message (Some "LLM未返回有效或完整的交通选择。")], w').
Proof.
  intros (user & home_loc & meeting_loc & ref_option & rest & dep_hub &
          arr_hub & dep_coords & arr_coords & home_commute & arrival_commute &
          w1 & U & Hm & Mt & O & D & GD & A & GA & C1 & C2 & Ch) NM.
  unfold select_transport_by_llm. rewrite U, Hm, Mt.
  unfold transport_options_of in O, NM. rewrite O in *.
  rewrite D, GD, A, GA. unfold bind. rewrite C1, C2.
  unfold llm_choose_transport. rewrite Ch.
  rewrite (find_no_match _ _ NM). reflexivity.
Qed.

(** C6. When the transit-choice chain names a (type, id) pair that no offer
    carries, [select_transport_by_llm] returns an error message and no
    selected offer; the state of a run that had no selected offer still has
    none, the conditional edge leads to the end, and the run executes
    [select_transport_by_llm] and nothing after it. *)
Theorem unmatched_choice_ends_the_run
    (state : TravelPlanState) (w w' : World)
    (selected_id selected_type : option string) (limit : nat) :
  chain_answers state w (chain_dict selected_id selected_type) w' ->
  matches_no_offer selected_id selected_type (transport_options_of state) ->
  selected_option_raw state = None ->
  exists update state',
    select_transport_by_llm state w = (Returns update, w') /\
    (forall offer, ~ In (set_selected_option_raw offer) update) /\
    state' = merge update state /\
    selected_option_raw state' = None /\
    has_error state' = true /\
    decide_after_llm_select state' = None /\
    invoke (S limit) n_select_transport_by_llm state [] w
      = (Returns state', [n_select_transport_by_llm], w') /\
    ~ In n_calculate_final_transport [n_select_transport_by_llm].
Proof.
  intros CA NM Raw.
  pose proof (select_transport_unmatched _ _ _ _ _ CA NM) as Sel.
  eexists _, _. split; [exact Sel|].
  split; [intros offer [H|[]]; discriminate|].
  split; [reflexivity|].
  assert (R : selected_option_raw
                (merge [set_error_message
                          (Some "LLM未返回有效或完整的交通选择。")] state) = None)
    by exact Raw.
  split; [exact R|]. split; [reflexivity|].
  assert (Dec : decide_after_llm_select
                  (merge [set_error_message
                            (Some "LLM未返回有效或完整的交通选择。")] state) = None).
  { unfold decide_after_llm_select. rewrite R. reflexivity. }
  split; [exact Dec|]. split.
  - cbn [invoke run_node]. unfold bind. rewrite Sel.
    cbn [build_travel_graph]. rewrite Dec. reflexivity.
  - intros [H|[]]. discriminate.
Qed.

(** ** The order of the visits *)

Lemma decorate_spec (xs : list Company) :
  decorate xs =
  if forallb (fun c => present (S_final c)) xs
  then Returns (map keyed xs) else Raises.
Proof.
  induction xs as [|x xs IH]; [reflexivity|].
  cbn [decorate forallb map]. rewrite IH. unfold keyed at 2, key_of.
  destruct (S_final x); cbn; [|reflexivity].
  destruct (forallb _ xs); reflexivity.
Qed.

Lemma forallb_perm {A : Type} (f : A -> bool) (l1 l2 : list A) :
  Permutation l1 l2 -> forallb f l1 = forallb f l2.
Proof.
  induction 1; cbn; try congruence.
  destruct (f x), (f y); reflexivity.
Qed.

Lemma distinct_keys_perm (ds1 ds2 : list (Q * Company)) :
  Permutation ds1 ds2 -> distinct_keys ds1 -> distinct_keys ds2.
Proof.
  induction 1 as [|d l1 l2 P IH|d d' l|l1 l2 l3 P1 IH1 P2 IH2]; cbn; auto.
  - intros [H D]. split; [|auto].
    intros e I. apply H. apply Permutation_sym in P.
    apply (Permutation_in _ P I).
  - intros [H1 [H2 D]]. split; [|split; [|exact D]].
    + intros e [E|I]; [subst e|apply H2; exact I].
      intros Q. apply (H1 d (or_introl eq_refl)). symmetry. exact Q.
    + intros e I. apply H1. right. exact I.
Qed.

Lemma insert_desc_sorted (x : Q * Company) (l : list (Q * Company)) :
  StronglySorted strictly_before l ->
  (forall d, In d l -> ~ fst x == fst d) ->
  StronglySorted strictly_before (insert_desc x l).
Proof.
  induction 1 as [|y l S IH F]; intros D; cbn.
  - constructor; constructor.
  - destruct (Qle_bool (fst y) (fst x)) eqn:C.
    + apply Qle_bool_iff in C.
      assert (Lt : fst y < fst x).
      { apply Qle_lteq in C. destruct C as [C|C]; [exact C|].
        exfalso. apply (D y (or_introl eq_refl)). symmetry. exact C. }
      constructor; [constructor; assumption|].
      constructor; [exact Lt|].
      rewrite Forall_forall in *. intros z I. unfold strictly_before in *.
      eapply Qlt_trans; [apply F; exact I|exact Lt].
    + assert (Lt : fst x < fst y).
      { apply Qnot_le_lt. intros Le. apply Qle_bool_iff in Le. congruence. }
      constructor.
      * apply IH. intros d I. apply D. right. exact I.
      * rewrite Forall_forall in *. intros z I.
        apply (Permutation_in _ (insert_desc_perm x l)) in I.
        destruct I as [E|I]; [subst z; exact Lt|apply F; exact I].
Qed.

Lemma sort_desc_sorted (ds : list (Q * Company)) :
  distinct_keys ds -> StronglySorted strictly_before (sort_desc ds).
Proof.
  induction ds as [|d ds IH]; cbn; [constructor|].
  intros [H D]. apply insert_desc_sorted; [auto|].
  intros e I. apply H. apply (Permutation_in _ (sort_desc_perm ds) I).
Qed.

Lemma strictly_sorted_unique (l1 : list (Q * Company)) :
  forall l2,
    StronglySorted strictly_before l1 ->
    StronglySorted strictly_before l2 ->
    Permutation l1 l2 -> l1 = l2.
Proof.
  induction l1 as [|x l1 IH]; intros l2 S1 S2 P.
  - apply Permutation_nil in P. subst. reflexivity.
  - destruct l2 as [|y l2];
      [apply Permutation_sym, Permutation_nil in P; discriminate|].
    inversion S1 as [|? ? S1' F1]; subst.
    inversion S2 as [|? ? S2' F2]; subst.
    rewrite Forall_forall in F1, F2.
    assert (E : x = y).
    { assert (Ix : In x (y :: l2))
        by (apply (Permutation_in _ P); left; reflexivity).
      assert (Iy : In y (x :: l1))
        by (apply (Permutation_in _ (Permutation_sym P)); left; reflexivity).
      destruct Ix as [Ix|Ix]; [symmetry; exact Ix|].
      destruct Iy as [Iy|Iy]; [exact Iy|].
      exfalso. apply F2 in Ix. apply F1 in Iy. unfold strictly_before in *.
      apply (Qlt_irrefl (fst x)). eapply Qlt_trans; eassumption. }
    subst y. f_equal. apply IH; auto.
    eapply Permutation_cons_inv; exact P.
Qed.

Lemma distinct_scores_keys (t_available : Q) (l : list Company) :
  forallb (fun c => present (S_final c))
    (map (fun c => snd (calculate_final_score c t_available)) l) = true ->
  distinct_scores t_available l ->
  distinct_keys
    (map keyed (map (fun c => snd (calculate_final_score c t_available)) l)).
Proof.
  induction l as [|c l IH]; cbn [map forallb distinct_scores distinct_keys];
    [auto|].
  intros A [H D]. apply andb_true_iff in A. destruct A as [A1 A2].
  split; [|auto].
  intros d I. apply in_map_iff in I. destruct I as (s & E & I).
  apply in_map_iff in I. destruct I as (c' & E' & I). subst d s.
  assert (P' : present (S_final (snd (calculate_final_score c' t_available)))
               = true).
  { rewrite forallb_forall in A2. apply A2.
    apply (in_map (fun c => snd (calculate_final_score c t_available)) _ _ I). }
  unfold keyed, key_of. cbn [fst].
  destruct (S_final (snd (calculate_final_score c t_available))) as [k|] eqn:K;
    [|discriminate].
  destruct (S_final (snd (calculate_final_score c' t_available))) as [k'|] eqn:K';
    [|discriminate].
  apply (H c' k k' I K K').
Qed.

(** C9, as the code has it. The ranking is a stable sort by decreasing
    [S_final] with no second key: when the composite scores of the
    candidates are pairwise different, any two orderings of the same
    candidates give the same plan, visit for visit. *)
Theorem visit_order_unique_without_ties
    (l1 l2 : list Company) (t_available hub_arrival_dt : Q)
    (hub_location meeting_venue_location : Location) :
  Permutation l1 l2 ->
  distinct_scores t_available l1 ->
  plan_multi_company_visit l1 t_available hub_arrival_dt hub_location
    meeting_venue_location
  = plan_multi_company_visit l2 t_available hub_arrival_dt hub_location
      meeting_venue_location.
Proof.
  intros P D. unfold plan_multi_company_visit, sorted_by_S_final.
  set (sc := fun c => snd (calculate_final_score c t_available)).
  assert (Ps : Permutation (map sc l1) (map sc l2))
    by (apply Permutation_map; exact P).
  rewrite !decorate_spec.
  rewrite <- (forallb_perm _ _ _ Ps).
  destruct (forallb (fun c => present (S_final c)) (map sc l1)) eqn:A;
    [|reflexivity].
  assert (Pk : Permutation (map keyed (map sc l1)) (map keyed (map sc l2)))
    by (apply Permutation_map; exact Ps).
  assert (D1 : distinct_keys (map keyed (map sc l1)))
    by (apply distinct_scores_keys; assumption).
  assert (D2 : distinct_keys (map keyed (map sc l2)))
    by (eapply distinct_keys_perm; eassumption).
  assert (E : sort_desc (map keyed (map sc l1))
              = sort_desc (map keyed (map sc l2))).
  { apply strictly_sorted_unique; try (apply sort_desc_sorted; assumption).
    rewrite !sort_desc_perm. exact Pk. }
  rewrite E. reflexivity.
Qed.

(** * Further properties of the modelled code *)

(** ** The routing client, whatever the service answers *)

Ltac close_retry_leaf :=
  first [ exists 0%nat; split; [cbn; lia|]; split; [lia|];
          cbn; rewrite ?app_nil_r; reflexivity
        | exists 1%nat; split; [cbn; lia|]; split; [lia|];
          cbn; rewrite ?app_nil_r; reflexivity
        | exists 2%nat; split; [cbn; lia|]; split; [lia|];
          cbn; rewrite <- ?app_assoc; reflexivity
        | exists 3%nat; split; [cbn; lia|]; split; [lia|];
          cbn; rewrite <- ?app_assoc; reflexivity ].

(** Every call of [get_amap_driving_time], on any endpoints and against any
    routing service, sends at most three requests, and sleeps exactly once
    between two consecutive requests: 1s after the first, 2s after the
    second. The doubled wait of 4s is never slept. *)
Theorem get_amap_driving_time_backoff
    (origin destination : Location) (w : World) :
  let out := get_amap_driving_time origin destination w in
  exists n,
    requests (snd out) = (requests w + n)%nat /\
    (n <= 3)%nat /\
    sleeps (snd out) = sleeps w ++ firstn (n - 1) [1; 2].
Proof.
  cbv zeta. unfold get_amap_driving_time.
  destruct (negb api_key_configured); [cbn; close_retry_leaf|].
  destruct (negb (truthy (loc_lat origin)) || negb (truthy (loc_lat destination)));
    [cbn; close_retry_leaf|].
  change (seq 0 MAX_RETRIES) with [0; 1; 2]%nat.
  change INITIAL_WAIT_TIME with 1.
  unfold_retry. repeat step_response; close_retry_leaf.
Qed.

(** What a call costs: between zero and three requests. *)
Lemma get_amap_driving_time_cost (origin destination : Location) (w : World) :
  (requests w <= requests (snd (get_amap_driving_time origin destination w))
   <= requests w + 3)%nat.
Proof.
  unfold get_amap_driving_time.
  destruct (negb api_key_configured); [cbn; lia|].
  destruct (negb (truthy (loc_lat origin)) || negb (truthy (loc_lat destination)));
    [cbn; lia|].
  change (seq 0 MAX_RETRIES) with [0; 1; 2]%nat.
  unfold_retry. repeat step_response; lia.
Qed.

Ltac step_body :=
  match goal with
  | |- context [is_success ?b] =>
      let E := fresh "E" in destruct (is_success b) eqn:E
  | |- context [is_limit_error ?b] =>
      let E := fresh "E" in destruct (is_limit_error b) eqn:E
  | |- context [body_paths ?b] =>
      let E := fresh "E" in destruct (body_paths b) eqn:E
  end; cbn [fst snd requests sleeps].

Ltac close_answer_leaf H :=
  first
    [ discriminate H
    | inversion H; subst; clear H;
      first [ left; split; [reflexivity|]
            | right; left; split; [reflexivity|]
            | right; right; split; [reflexivity|] ];
      eexists; split; [|reflexivity];
      eexists _, _, _; repeat split; eassumption ].

Lemma retry_loop_answer (o d : Coords) (w w' : World) (t : Q)
    (r0 r1 r2 : Response) :
  amap_route (requests w) o d = r0 ->
  amap_route (S (requests w)) o d = r1 ->
  amap_route (S (S (requests w))) o d = r2 ->
  retry_loop [0; 1; 2]%nat 1 o d w = (Some t, w') ->
  (requests w' = S (requests w) /\
   exists s, succeeds_with r0 s /\ t = round1 (inject_Z s / 60))
  \/ (requests w' = S (S (requests w)) /\
      exists s, succeeds_with r1 s /\ t = round1 (inject_Z s / 60))
  \/ (requests w' = S (S (S (requests w))) /\
      exists s, succeeds_with r2 s /\ t = round1 (inject_Z s / 60)).
Proof.
  intros E0 E1 E2. unfold_retry.
  repeat (first
            [ rewrite E0 | rewrite E1 | rewrite E2
            | match goal with
              | |- context [match ?r with RequestException => _ | Json _ => _ end] =>
                  is_var r; destruct r
              end
            | step_body ];
          cbn [fst snd requests sleeps]);
    intros H; close_answer_leaf H.
Qed.

(** An estimate returned by [get_amap_driving_time] is either the fixed
    35-minute fallback, given without any request exactly when an endpoint
    has no usable latitude, or the rounded duration of the first path of the
    last answer received, which reported success. *)
Theorem get_amap_driving_time_answer
    (origin destination : Location) (w : World) (t : Q) :
  fst (get_amap_driving_time origin destination w) = Some t ->
  let w' := snd (get_amap_driving_time origin destination w) in
  api_key_configured = true /\
  ((truthy (loc_lat origin) && truthy (loc_lat destination) = false /\
    t = 35 /\ w' = w)
   \/
   (truthy (loc_lat origin) && truthy (loc_lat destination) = true /\
    exists seconds,
      (requests w < requests w')%nat /\
      succeeds_with
        (amap_route (requests w' - 1) (coords_of origin) (coords_of destination))
        seconds /\
      t = round1 (inject_Z seconds / 60))).
Proof.
  cbv zeta. unfold get_amap_driving_time.
  destruct api_key_configured; cbn [negb]; [|discriminate].
  intros H. split; [reflexivity|].
  destruct (truthy (loc_lat origin)), (truthy (loc_lat destination));
    cbn [negb orb andb] in *;
    try (left; cbn in H; inversion H; auto; fail).
  right. split; [reflexivity|].
  change (seq 0 MAX_RETRIES) with [0; 1; 2]%nat in *.
  change INITIAL_WAIT_TIME with 1 in *.
  destruct (retry_loop [0; 1; 2]%nat 1 (coords_of origin)
              (coords_of destination) w) as [r w'] eqn:R.
  cbn [fst snd] in *. subst r.
  destruct (retry_loop_answer _ _ _ _ _ _ _ _ eq_refl eq_refl eq_refl R)
    as [(N & s & S & T)|[(N & s & S & T)|(N & s & S & T)]];
    exists s; rewrite N; cbn [Nat.sub]; rewrite ?Nat.sub_0_r;
    (split; [lia|]); split; assumption.
Qed.

(** ** The candidate filter *)

Lemma filter_loop_sound (center : Location) (max_minutes : Z) (city : string)
    (entries : list DirectoryEntry) :
  forall w nearby w',
    filter_loop center max_minutes city entries w = (nearby, w') ->
    (forall c, In c nearby ->
       exists e, In e entries /\ retained center max_minutes city e c) /\
    subsequence (map (fun c => Some (name c)) nearby) (map db_name entries).
Proof.
  induction entries as [|e rest IH]; intros w nearby w' H.
  - cbn in H. unfold ret in H. inversion H; subst.
    split; [intros c []|constructor].
  - assert (Skip : forall w1,
              filter_loop center max_minutes city rest w1 = (nearby, w') ->
              (forall c, In c nearby ->
                 exists e0, In e0 (e :: rest) /\
                            retained center max_minutes city e0 c) /\
              subsequence (map (fun c => Some (name c)) nearby)
                          (map db_name (e :: rest))).
    { intros w1 H1. destruct (IH _ _ _ H1) as [S1 S2]. split.
      - intros c I. destruct (S1 c I) as (e0 & I0 & R).
        exists e0. split; [right; exact I0|exact R].
      - cbn. constructor. exact S2. }
    cbn [filter_loop] in H.
    destruct (entry_location city e) as [[n loc]|] eqn:L; [|eauto].
    unfold bind in H.
    destruct (get_amap_driving_time center loc w) as [[t|] w1] eqn:G; [|eauto].
    destruct (Qle_bool t (inject_Z max_minutes)) eqn:Le; [|eauto].
    destruct (filter_loop center max_minutes city rest w1) as [tl w2] eqn:R.
    unfold ret in H. inversion H; subst. clear H.
    destruct (IH _ _ _ R) as [S1 S2]. split.
    + intros c [I|I].
      * subst c. exists e. split; [left; reflexivity|].
        split; [exact L|]. exists t, w, w1. cbn.
        split; [exact G|]. split; [apply Qle_bool_iff; exact Le|reflexivity].
      * destruct (S1 c I) as (e0 & I0 & R0).
        exists e0. split; [right; exact I0|exact R0].
    + cbn [map name].
      assert (N : db_name e = Some n).
      { unfold entry_location in L.
        destruct (db_address e), (db_name e), (db_lat e), (db_lon e);
          try discriminate. inversion L; reflexivity. }
      cbn [map]. rewrite N. apply subsequence_keep. exact S2.
Qed.

(** Every company returned by [filter_companies_by_area_by_time] was cut
    from a directory entry of the center's city that carries all its keys,
    on an answer of the routing client no larger than the radius, which is
    the figure (rounded) it is annotated with; the companies come in
    directory order. *)
Theorem filter_companies_by_area_by_time_sound
    (center_location : Location) (max_driving_minutes : Z) (w : World) :
  let out :=
    filter_companies_by_area_by_time center_location max_driving_minutes w in
  let city := loc_city center_location in
  (forall c, In c (fst out) ->
     exists e, In e (COMPANIES_DB city) /\
               retained center_location max_driving_minutes city e c) /\
  subsequence (map (fun c => Some (name c)) (fst out))
              (map db_name (COMPANIES_DB city)) /\
  (city = "" -> out = ([], w)).
Proof.
  cbv zeta.
  destruct (filter_companies_by_area_by_time center_location
              max_driving_minutes w) as [nearby w'] eqn:H.
  cbn [fst]. unfold filter_companies_by_area_by_time in H.
  destruct (loc_city center_location =? "")%string eqn:E.
  - unfold ret in H. inversion H; subst. split; [intros c []|].
    split; [|auto].
    induction (COMPANIES_DB (loc_city center_location)); cbn; constructor; auto.
  - destruct (filter_loop_sound _ _ _ _ _ _ _ H) as [S1 S2].
    split; [exact S1|]. split; [exact S2|].
    intros C. rewrite C in E. discriminate.
Qed.

Lemma filter_loop_cost (center : Location) (max_minutes : Z) (city : string)
    (entries : list DirectoryEntry) :
  forall w nearby w',
    filter_loop center max_minutes city entries w = (nearby, w') ->
    (requests w <= requests w' <= requests w + 3 * length entries)%nat /\
    (length nearby <= length entries)%nat.
Proof.
  induction entries as [|e rest IH]; intros w nearby w' H.
  - cbn in H. unfold ret in H. inversion H; subst. cbn. lia.
  - cbn [filter_loop] in H.
    destruct (entry_location city e) as [[n loc]|].
    + unfold bind in H.
      pose proof (get_amap_driving_time_cost center loc w) as C.
      destruct (get_amap_driving_time center loc w) as [[t|] w1].
      * cbn [snd] in C.
        destruct (Qle_bool t (inject_Z max_minutes)).
        -- destruct (filter_loop center max_minutes city rest w1)
             as [tl w2] eqn:R.
           unfold ret in H. inversion H; subst.
           apply IH in R. cbn [length]. lia.
        -- apply IH in H. cbn [length]. lia.
      * cbn [snd] in C. apply IH in H. cbn [length]. lia.
    + apply IH in H. cbn [length]. lia.
Qed.

Lemma eligible_companies_cost (hub venue : Location) (available : Q)
    (companies : list Company) :
  forall w pool w',
    eligible_companies hub venue available companies w = (pool, w') ->
    (requests w <= requests w' <= requests w + 6 * length companies)%nat /\
    (length pool <= length companies)%nat.
Proof.
  induction companies as [|c rest IH]; intros w pool w' H.
  - cbn in H. unfold ret in H. inversion H; subst. cbn. lia.
  - cbn [eligible_companies] in H. unfold bind in H.
    pose proof (get_amap_driving_time_cost hub (location c) w) as C1.
    destruct (get_amap_driving_time hub (location c) w) as [hub_leg w1].
    pose proof (get_amap_driving_time_cost (location c) venue w1) as C2.
    destruct (get_amap_driving_time (location c) venue w1) as [meeting_leg w2].
    cbn [snd] in C1, C2.
    destruct hub_leg as [a|]; [|apply IH in H; cbn [length]; lia].
    destruct meeting_leg as [b|]; [|apply IH in H; cbn [length]; lia].
    destruct (Qle_bool (a + COMPANY_VISIT_DURATION_MINUTES + b) available);
      [|apply IH in H; cbn [length]; lia].
    destruct (eligible_companies hub venue available rest w2) as [tl w3] eqn:R.
    unfold ret in H. inversion H; subst. apply IH in R. cbn [length]. lia.
Qed.

(** Building the pool of eligible companies costs at most nine routing
    requests per directory entry of the hub's city (three for the radius
    test, six for the two legs of the eligibility test), and the pool is no
    longer than that directory. *)
Theorem candidate_pool_cost
    (arrival_hub_loc meeting_loc : Location)
    (arrival_commute_min available_minutes : Q) (w : World) :
  let out := candidate_pool arrival_hub_loc meeting_loc arrival_commute_min
               available_minutes w in
  let directory := COMPANIES_DB (loc_city arrival_hub_loc) in
  (requests w <= requests (snd out) <= requests w + 9 * length directory)%nat /\
  (length (fst out) <= length directory)%nat.
Proof.
  cbv zeta.
  destruct (candidate_pool arrival_hub_loc meeting_loc arrival_commute_min
              available_minutes w) as [pool w'] eqn:H.
  cbn [fst snd].
  unfold candidate_pool, bind, filter_companies_by_area_by_time in H.
  destruct (loc_city arrival_hub_loc =? "")%string.
  - unfold ret in H. cbn in H. inversion H; subst. cbn. lia.
  - destruct (filter_loop arrival_hub_loc (int_of (arrival_commute_min * 2))
                (loc_city arrival_hub_loc)
                (COMPANIES_DB (loc_city arrival_hub_loc)) w)
      as [first w1] eqn:F.
    apply filter_loop_cost in F. apply eligible_companies_cost in H. lia.
Qed.

(** ** What the repair loop costs *)

Lemma walk_cost (plan : list Visit) :
  forall loc t items w,
    let w' := snd (walk plan loc t items w) in
    (requests w <= requests w' <= requests w + 3 * length plan)%nat.
Proof.
  induction plan as [|v plan IH]; intros loc t items w; cbv zeta.
  - cbn. lia.
  - cbn [walk]. unfold bind.
    pose proof (get_amap_driving_time_cost loc (visit_location v) w) as C.
    destruct (get_amap_driving_time loc (visit_location v) w) as [[hop|] w1];
      cbn [snd] in C.
    + match goal with
      | |- context [walk plan ?l ?t' ?i w1] =>
          pose proof (IH l t' i w1) as R
      end.
      cbv zeta in R. cbn [length]. lia.
    + cbn. lia.
Qed.

Lemma repair_loop_cost (hub venue : Location) (t0 latest : Q) (fuel : nat) :
  forall (s : RepairState) (w : World),
    let w' := snd (repair_loop fuel hub venue t0 latest s w) in
    let n := length (final_visit_plan_data s) in
    (requests w <= requests w')%nat /\
    (2 * requests w' <= 2 * requests w + 3 * n * (n + 3))%nat.
Proof.
  induction fuel as [|fuel IH]; intros s w; cbv zeta.
  - cbn. destruct (final_visit_plan_data s); cbn; lia.
  - cbn [repair_loop].
    destruct (final_visit_plan_data s) as [|v plan] eqn:P; [cbn; lia|].
    assert (Drop : forall fa w1,
              (requests w <= requests w1)%nat ->
              (requests w1 <= requests w + 3 * length (v :: plan) + 3)%nat ->
              let w' := snd (repair_loop fuel hub venue t0 latest (pop s fa) w1) in
              (requests w <= requests w')%nat /\
              (2 * requests w'
               <= 2 * requests w
                  + 3 * length (v :: plan) * (length (v :: plan) + 3))%nat).
    { intros fa w1 L1 L2. cbv zeta.
      destruct (IH (pop s fa) w1) as [I1 I2].
      cbn [pop final_visit_plan_data] in I2. rewrite P in I2.
      pose proof (length_removelast_cons v plan) as LR.
      remember (length (removelast (v :: plan))) as k.
      remember (length (v :: plan)) as m.
      split; [lia|]. nia. }
    unfold bind.
    pose proof (walk_cost (v :: plan) hub t0 [] w) as W. cbv zeta in W.
    destruct (walk (v :: plan) hub t0 [] w) as [[[[loc t] segments]|] w1];
      cbn [snd] in W.
    + pose proof (get_amap_driving_time_cost loc venue w1) as G.
      destruct (get_amap_driving_time loc venue w1) as [[c|] w2];
        cbn [snd] in G.
      * destruct (Qle_bool (t + c) latest).
        -- unfold ret. cbn [snd]. cbn [length] in *.
           remember (length plan) as m. split; [lia|]. nia.
        -- apply Drop; lia.
      * apply Drop; lia.
    + apply Drop; lia.
Qed.

(** Repairing a plan of [n] candidates costs at most [3n(n+3)/2] routing
    requests: each walk over [k] candidates asks for [k + 1] hops of at most
    three requests each, and the walks are over [n], [n - 1], ... candidates. *)
Theorem feasibility_repair_cost
    (arrival_hub_loc meeting_loc : Location)
    (arrival_at_hub_dt latest_arrival_needed : Q)
    (plan : list Visit) (w : World) :
  let w' := snd (feasibility_repair arrival_hub_loc meeting_loc
                   arrival_at_hub_dt latest_arrival_needed plan w) in
  let n := length plan in
  (requests w <= requests w')%nat /\
  (2 * requests w' <= 2 * requests w + 3 * n * (n + 3))%nat.
Proof.
  unfold feasibility_repair.
  apply (repair_loop_cost arrival_hub_loc meeting_loc arrival_at_hub_dt
           latest_arrival_needed (length plan)
           {| final_visit_plan_data := plan; pre_meeting_route_final := []
            ; final_arrival_time := None; walks := O |} w).
Qed.

(** ** What the repair loop keeps of the plan *)

Lemma visited_app (r1 r2 : list ItineraryItem) :
  visited (r1 ++ r2) = visited r1 ++ visited r2.
Proof.
  unfold visited. apply flat_map_app.
Qed.

Lemma walk_visited (plan : list Visit) :
  forall loc t items w loc' t' items' w',
    walk plan loc t items w = (Some (loc', t', items'), w') ->
    visited items' = visited items ++ map visit_name plan.
Proof.
  induction plan as [|v plan IH]; intros loc t items w loc' t' items' w' H.
  - cbn in H. unfold ret in H. inversion H; subst.
    cbn. rewrite app_nil_r. reflexivity.
  - cbn [walk] in H. unfold bind in H.
    destruct (get_amap_driving_time loc (visit_location v) w) as [[hop|] w1];
      [|discriminate].
    apply IH in H. rewrite H, visited_app. cbn. rewrite <- app_assoc.
    reflexivity.
Qed.

Lemma repair_loop_visited (hub venue : Location) (t0 latest : Q) (fuel : nat) :
  forall s w s' w',
    repair_loop fuel hub venue t0 latest s w = (Some s', w') ->
    (final_visit_plan_data s' = [] /\
     pre_meeting_route_final s' = pre_meeting_route_final s)
    \/
    (final_visit_plan_data s' <> [] /\
     pre_meeting_route_final s' <> [] /\
     visited (pre_meeting_route_final s')
       = map visit_name (final_visit_plan_data s')).
Proof.
  induction fuel as [|fuel IH]; intros s w s' w' H.
  - cbn in H. destruct (final_visit_plan_data s) eqn:P; [|discriminate].
    unfold ret in H. inversion H; subst. left. auto.
  - cbn [repair_loop] in H.
    destruct (final_visit_plan_data s) as [|v plan] eqn:P.
    { unfold ret in H. inversion H; subst. left. auto. }
    assert (Drop : forall fa w1,
              repair_loop fuel hub venue t0 latest (pop s fa) w1 = (Some s', w') ->
              (final_visit_plan_data s' = [] /\
               pre_meeting_route_final s' = pre_meeting_route_final s)
              \/
              (final_visit_plan_data s' <> [] /\
               pre_meeting_route_final s' <> [] /\
               visited (pre_meeting_route_final s')
                 = map visit_name (final_visit_plan_data s'))).
    { intros fa w1 R. apply IH in R. exact R. }
    unfold bind in H.
    destruct (walk (v :: plan) hub t0 [] w) as [[[[loc t] segments]|] w1] eqn:W;
      [|eauto].
    destruct (get_amap_driving_time loc venue w1) as [[c|] w2]; [|eauto].
    destruct (Qle_bool (t + c) latest); [|eauto].
    unfold ret in H. inversion H; subst. clear H.
    cbn [final_visit_plan_data pre_meeting_route_final].
    right. split; [discriminate|]. split; [destruct segments; discriminate|].
    apply walk_visited in W. rewrite visited_app, W. cbn.
    rewrite app_nil_r. reflexivity.
Qed.

(** The repair loop only truncates: it always returns, the candidates it
    keeps are the first ones of the plan it was handed, and the route it
    returns visits exactly these candidates, in the order of the plan (none
    when the route is empty). *)
Theorem feasibility_repair_keeps_a_prefix
    (arrival_hub_loc meeting_loc : Location)
    (arrival_at_hub_dt latest_arrival_needed : Q)
    (plan : list Visit) (w : World) :
  exists s' w',
    feasibility_repair arrival_hub_loc meeting_loc arrival_at_hub_dt
      latest_arrival_needed plan w = (Some s', w') /\
    final_visit_plan_data s'
      = firstn (length (final_visit_plan_data s')) plan /\
    visited (pre_meeting_route_final s')
      = map visit_name (final_visit_plan_data s') /\
    (pre_meeting_route_final s' = [] <-> final_visit_plan_data s' = []).
Proof.
  unfold feasibility_repair.
  destruct (repair_loop_outcome arrival_hub_loc meeting_loc arrival_at_hub_dt
              latest_arrival_needed (length plan)
              {| final_visit_plan_data := plan; pre_meeting_route_final := []
               ; final_arrival_time := None; walks := O |} w (le_n _))
    as (s' & w' & R & C).
  cbn [final_visit_plan_data pre_meeting_route_final walks] in C.
  exists s', w'. split; [exact R|].
  split.
  { destruct C as [(C1 & _)|(_ & C2 & _)]; [rewrite C1; reflexivity|exact C2]. }
  destruct (repair_loop_visited _ _ _ _ _ _ _ _ _ R) as [(V1 & V2)|(V1 & V2 & V3)];
    cbn [pre_meeting_route_final] in *.
  - rewrite V1, V2. cbn. repeat split; reflexivity.
  - split; [exact V3|]. split; intros E; contradiction.
Qed.

Lemma repair_loop_rejected_arrival (hub venue : Location) (t0 latest : Q)
    (fuel : nat) :
  forall s w s' w',
    repair_loop fuel hub venue t0 latest s w = (Some s', w') ->
    final_visit_plan_data s' = [] ->
    final_arrival_time s' = final_arrival_time s \/
    exists a, final_arrival_time s' = Some a /\ latest < a.
Proof.
  induction fuel as [|fuel IH]; intros s w s' w' H E.
  - cbn in H. destruct (final_visit_plan_data s); [|discriminate].
    unfold ret in H. inversion H; subst. left. reflexivity.
  - cbn [repair_loop] in H.
    destruct (final_visit_plan_data s) as [|v plan] eqn:P.
    { unfold ret in H. inversion H; subst. left. reflexivity. }
    unfold bind in H.
    destruct (walk (v :: plan) hub t0 [] w) as [[[[loc t] segments]|] w1];
      [|exact (IH _ _ _ _ H E)].
    destruct (get_amap_driving_time loc venue w1) as [[c|] w2];
      [|exact (IH _ _ _ _ H E)].
    destruct (Qle_bool (t + c) latest) eqn:Le.
    + unfold ret in H. inversion H; subst. cbn in E. discriminate.
    + destruct (IH _ _ _ _ H E) as [Same|Late]; [|right; exact Late].
      right. exists (t + c). split; [exact Same|].
      apply Qnot_le_lt. intros L. apply Qle_bool_iff in L. congruence.
Qed.

(** When [pre_meeting_plan] returns an empty route, the final arrival it
    reports is absent (it returned before the repair loop), or the hub
    arrival plus the selected transport's commute (no walk got to the venue),
    or the arrival computed by a walk that was rejected -- an instant later
    than the deadline, for a route that was dropped. *)
Theorem pre_meeting_plan_empty_route_arrival
    (state : TravelPlanState) (w w' : World) (r : PreMeetingResult) :
  pre_meeting_plan state w = (Returns r, w') ->
  result_pre_meeting_route r = [] ->
  result_final_arrival_at_venue r = None \/
  exists user selected arrival_commute_min,
    user_data state = Some user /\
    selected_transport state = Some selected /\
    arrival_commute_of selected = Some arrival_commute_min /\
    (result_final_arrival_at_venue r
       = Some (end_time selected + arrival_commute_min)
     \/ exists a,
          result_final_arrival_at_venue r = Some a /\
          meeting_start_dt user - POST_ARRIVAL_BUFFER_MINUTES < a).
Proof.
  unfold pre_meeting_plan. intros H N.
  destruct (user_data state) as [user|]; [|discriminate].
  destruct (meeting_location state) as [meeting_loc|]; [|discriminate].
  destruct (selected_transport state) as [selected|];
    [|inversion H; subst; left; reflexivity].
  destruct (arrival_commute_of selected) as [acm|] eqn:AC; [|discriminate].
  unfold bind in H.
  destruct (candidate_pool _ _ _ _ w) as [pool w_pool].
  destruct pool as [|c0 pool0]; [inversion H; subst; left; reflexivity|].
  destruct (get_company_scores_by_llm _ _) as [|s0 scored0];
    [inversion H; subst; left; reflexivity|].
  destruct (merge_scores _ _) as [merged|]; [|discriminate].
  destruct (plan_multi_company_visit _ _ _ _ _) as [plan|]; [|discriminate].
  destruct plan as [|v0 plan0]; [inversion H; subst; left; reflexivity|].
  destruct (feasibility_repair _ _ _ _ _ w_pool) as [[s|] w_end] eqn:Rp;
    [|discriminate].
  unfold ret in H. inversion H; subst r w_end. clear H.
  cbn [result_pre_meeting_route result_final_arrival_at_venue] in *.
  right. exists user, selected, acm. repeat (split; [reflexivity|]).
  split; [exact AC|].
  unfold feasibility_repair in Rp.
  destruct (repair_loop_visited _ _ _ _ _ _ _ _ _ Rp) as [(V1 & _)|(_ & V2 & _)];
    [|contradiction].
  destruct (repair_loop_rejected_arrival _ _ _ _ _ _ _ _ _ Rp V1)
    as [Same|(a & Fa & Late)].
  - left. rewrite Same. reflexivity.
  - right. exists a. rewrite Fa. split; [reflexivity|exact Late].
Qed.

(** ** The greedy pass *)

Lemma calculate_final_score_incomplete (c : Company) (t_available : Q) :
  incomplete c -> calculate_final_score c t_available = (- (999), c).
Proof.
  unfold incomplete, calculate_final_score.
  intros [H|[H|H]]; rewrite H; destruct (S_attract c), (S_feas c);
    reflexivity.
Qed.

(** A company that lacks an ingredient of the composite score gets the
    sentinel -999 from [calculate_final_score] and is left unchanged; if it
    carries no composite score of its own, the ranking that follows raises:
    [plan_multi_company_visit] returns no plan at all for a list that
    contains such a company. *)
Theorem plan_multi_company_visit_incomplete
    (scored_companies : list Company) (c : Company)
    (t_available_total hub_arrival_dt : Q)
    (hub_location meeting_venue_location : Location) :
  In c scored_companies ->
  incomplete c ->
  S_final c = None ->
  calculate_final_score c t_available_total = (- (999), c) /\
  plan_multi_company_visit scored_companies t_available_total hub_arrival_dt
    hub_location meeting_venue_location = Raises.
Proof.
  intros I Inc N.
  pose proof (calculate_final_score_incomplete c t_available_total Inc) as E.
  split; [exact E|].
  unfold plan_multi_company_visit, sorted_by_S_final.
  rewrite decorate_spec.
  set (sc := fun c => snd (calculate_final_score c t_available_total)).
  destruct (forallb (fun c => present (S_final c)) (map sc scored_companies))
    eqn:A; [|reflexivity].
  exfalso. rewrite forallb_forall in A.
  specialize (A (sc c) (in_map sc _ _ I)).
  unfold sc in A. rewrite E in A. cbn [snd] in A. rewrite N in A.
  discriminate.
Qed.

Lemma greedy_loop_fits (deadline : Q) (sorted : list Company) :
  forall acc t remaining plan,
    greedy_loop sorted acc t remaining = Returns plan ->
    t + remaining == deadline ->
    (forall v, In v acc ->
       visit_end_time v = visit_start_time v + COMPANY_VISIT_DURATION_MINUTES /\
       visit_end_time v <= deadline) ->
    forall v, In v plan ->
      visit_end_time v = visit_start_time v + COMPANY_VISIT_DURATION_MINUTES /\
      visit_end_time v <= deadline.
Proof.
  induction sorted as [|c rest IH]; intros acc t remaining plan H E A v I.
  - inversion H; subst. apply A. exact I.
  - cbn [greedy_loop] in H.
    destruct (hop_of _ c) as [hop|]; [|discriminate].
    destruct (Qle_bool (hop + COMPANY_VISIT_DURATION_MINUTES) remaining) eqn:Le.
    + apply Qle_bool_iff in Le.
      refine (IH _ _ _ _ H _ _ v I).
      * unfold COMPANY_VISIT_DURATION_MINUTES in *. lra.
      * intros u Iu. apply in_app_or in Iu.
        destruct Iu as [Iu|[Iu|[]]]; [apply A; exact Iu|].
        subst u. cbn. split; [reflexivity|].
        unfold COMPANY_VISIT_DURATION_MINUTES in *. lra.
    + inversion H; subst. apply A. exact I.
Qed.

(** Every visit of the tentative plan lasts 45 minutes and ends within the
    budget: no later than the hub arrival plus the available minutes. *)
Theorem plan_multi_company_visit_fits
    (scored_companies : list Company)
    (t_available_total hub_arrival_dt : Q)
    (hub_location meeting_venue_location : Location) (plan : list Visit) :
  plan_multi_company_visit scored_companies t_available_total hub_arrival_dt
    hub_location meeting_venue_location = Returns plan ->
  forall v, In v plan ->
    visit_end_time v = visit_start_time v + COMPANY_VISIT_DURATION_MINUTES /\
    visit_end_time v <= hub_arrival_dt + t_available_total.
Proof.
  unfold plan_multi_company_visit. intros H.
  destruct (sorted_by_S_final _) as [sorted|]; [|discriminate].
  apply (greedy_loop_fits _ _ _ _ _ _ H); [reflexivity|intros v []].
Qed.

Lemma insert_desc_descending (x : Q * Company) (l : list (Q * Company)) :
  StronglySorted (fun a b => fst b <= fst a) l ->
  StronglySorted (fun a b => fst b <= fst a) (insert_desc x l).
Proof.
  induction 1 as [|y l S IH F]; cbn.
  - constructor; constructor.
  - destruct (Qle_bool (fst y) (fst x)) eqn:C.
    + apply Qle_bool_iff in C.
      constructor; [constructor; assumption|].
      constructor; [exact C|].
      rewrite Forall_forall in *. intros z I.
      eapply Qle_trans; [apply F; exact I|exact C].
    + assert (Lt : fst x < fst y).
      { apply Qnot_le_lt. intros Le. apply Qle_bool_iff in Le. congruence. }
      constructor; [exact IH|].
      rewrite Forall_forall in *. intros z I.
      apply (Permutation_in _ (insert_desc_perm x l)) in I.
      destruct I as [E|I]; [subst z; apply Qlt_le_weak; exact Lt|apply F; exact I].
Qed.

Lemma sort_desc_descending (ds : list (Q * Company)) :
  StronglySorted (fun a b => fst b <= fst a) (sort_desc ds).
Proof.
  induction ds as [|d ds IH]; cbn; [constructor|].
  apply insert_desc_descending. exact IH.
Qed.

Lemma descending_of_keyed (ds : list (Q * Company)) :
  StronglySorted (fun a b => fst b <= fst a) ds ->
  (forall d, In d ds -> fst d = key_of (snd d)) ->
  descending (map snd ds).
Proof.
  unfold descending. induction 1 as [|d ds S IH F]; intros K; cbn.
  - constructor.
  - constructor; [apply IH; intros; apply K; right; assumption|].
    rewrite Forall_forall in *. intros c I.
    apply in_map_iff in I. destruct I as (e & E & I). subst c.
    rewrite <- (K d (or_introl eq_refl)), <- (K e (or_intror I)).
    apply F. exact I.
Qed.

Lemma sorted_by_S_final_descending (xs sorted : list Company) :
  sorted_by_S_final xs = Returns sorted -> descending sorted.
Proof.
  unfold sorted_by_S_final. rewrite decorate_spec.
  destruct (forallb _ xs); [|discriminate].
  intros H. inversion H; subst. clear H.
  apply descending_of_keyed; [apply sort_desc_descending|].
  intros d I. apply (Permutation_in _ (sort_desc_perm _)) in I.
  apply in_map_iff in I. destruct I as (c & E & _). subst d. reflexivity.
Qed.

Lemma greedy_loop_prefix (sorted : list Company) :
  forall acc t remaining plan,
    greedy_loop sorted acc t remaining = Returns plan ->
    exists k,
      (k <= length sorted)%nat /\
      map visit_name plan
        = map visit_name acc ++ map name (firstn k sorted) /\
      map visit_location plan
        = map visit_location acc ++ map location (firstn k sorted).
Proof.
  induction sorted as [|c rest IH]; intros acc t remaining plan H.
  - inversion H; subst. exists 0%nat. cbn. rewrite !app_nil_r. auto.
  - cbn [greedy_loop] in H.
    destruct (hop_of _ c) as [hop|]; [|discriminate].
    destruct (Qle_bool (hop + COMPANY_VISIT_DURATION_MINUTES) remaining).
    + apply IH in H. destruct H as (k & L & N & P).
      exists (S k). split; [cbn; lia|].
      rewrite N, P, !map_app, <- !app_assoc. cbn. auto.
    + inversion H; subst. exists 0%nat. cbn. rewrite !app_nil_r.
      split; [lia|auto].
Qed.

Lemma plan_end_app (start : Q) (acc : list Visit) (v : Visit) :
  plan_end start (acc ++ [v]) = visit_end_time v.
Proof.
  unfold plan_end. rewrite map_app. cbn [map]. apply last_last.
Qed.

Lemma greedy_loop_stops (sorted : list Company) (start budget : Q) :
  forall acc t remaining plan,
    greedy_loop sorted acc t remaining = Returns plan ->
    t = plan_end start acc ->
    t + remaining == start + budget ->
    exists k,
      length plan = (length acc + k)%nat /\
      match skipn k sorted with
      | [] => True
      | c :: _ =>
          exists hop,
            hop_of (match plan with [] => true | _ => false end) c
              = Returns hop /\
            start + budget
              < plan_end start plan + hop + COMPANY_VISIT_DURATION_MINUTES
      end.
Proof.
  induction sorted as [|c rest IH]; intros acc t remaining plan H T B.
  - inversion H; subst. exists 0%nat. split; [lia|exact I].
  - cbn [greedy_loop] in H.
    destruct (hop_of _ c) as [hop|] eqn:Hop; [|discriminate].
    destruct (Qle_bool (hop + COMPANY_VISIT_DURATION_MINUTES) remaining) eqn:C.
    + destruct (IH _ _ _ _ H) as (k & L & St).
      * rewrite plan_end_app. reflexivity.
      * rewrite <- B. ring.
      * exists (S k). rewrite length_app in L. cbn [length] in L.
        split; [lia|exact St].
    + inversion H; subst plan. exists 0%nat. split; [lia|].
      cbn [skipn]. exists hop. split; [exact Hop|].
      assert (Lt : remaining < hop + COMPANY_VISIT_DURATION_MINUTES).
      { apply Qnot_le_lt. intros Le. apply Qle_bool_iff in Le. congruence. }
      rewrite <- T, <- B.
      setoid_replace (t + hop + COMPANY_VISIT_DURATION_MINUTES)
        with (t + (hop + COMPANY_VISIT_DURATION_MINUTES)) by ring.
      apply Qplus_lt_r. exact Lt.
Qed.

(** The greedy pass commits a prefix of the ranking and stops at the first
    company that does not fit: the plan returned by
    [plan_multi_company_visit] visits the first [k] companies of the list
    sorted by non-increasing composite score, in that order, at their own
    locations; and either the ranking is exhausted, or the company that
    comes next in it, charged its hop and the 45 minutes of a visit after
    the plan ends, would not end before the budget does (in exact
    arithmetic it would end after it; where both ends coincide, the
    floating-point test of the code may go either way). *)
Theorem plan_multi_company_visit_prefix
    (scored_companies : list Company)
    (t_available_total hub_arrival_dt : Q)
    (hub_location meeting_venue_location : Location) (plan : list Visit) :
  plan_multi_company_visit scored_companies t_available_total hub_arrival_dt
    hub_location meeting_venue_location = Returns plan ->
  exists ranking,
    Permutation ranking
      (map (fun c => snd (calculate_final_score c t_available_total))
           scored_companies) /\
    descending ranking /\
    map visit_name plan = map name (firstn (length plan) ranking) /\
    map visit_location plan = map location (firstn (length plan) ranking) /\
    match skipn (length plan) ranking with
    | [] => True
    | c :: _ =>
        exists hop,
          hop_of (match plan with [] => true | _ => false end) c
            = Returns hop /\
          hub_arrival_dt + t_available_total
            <= plan_end hub_arrival_dt plan + hop
               + COMPANY_VISIT_DURATION_MINUTES
    end.
Proof.
  unfold plan_multi_company_visit. intros H.
  destruct (sorted_by_S_final _) as [sorted|] eqn:S; [|discriminate].
  exists sorted. split; [apply sorted_by_S_final_perm; exact S|].
  split; [apply sorted_by_S_final_descending in S; exact S|].
  destruct (greedy_loop_stops sorted hub_arrival_dt t_available_total
              _ _ _ _ H eq_refl (Qeq_refl _)) as (k' & L' & Stop).
  apply greedy_loop_prefix in H. destruct H as (k & L & N & P).
  cbn [map app] in N, P. cbn [length] in L'.
  assert (K : length plan = k).
  { rewrite <- (length_map visit_name plan), N, length_map.
    apply firstn_length_le. exact L. }
  rewrite K. split; [exact N|]. split; [exact P|].
  rewrite <- K, L'. cbn [Nat.add].
  destruct (skipn k' sorted) as [|c rest]; [exact I|].
  destruct Stop as (hop & Hop & Lt). exists hop.
  split; [exact Hop|apply Qlt_le_weak; exact Lt].
Qed.

(** ** The transport selector, whatever the chain answers *)

Lemma find_first {A : Type} (f : A -> bool) (l : list A) (x : A) :
  find f l = Some x ->
  exists before after,
    l = before ++ x :: after /\ f x = true /\
    forall y, In y before -> f y = false.
Proof.
  induction l as [|a l IH]; cbn; [discriminate|].
  destruct (f a) eqn:F.
  - intros H. inversion H; subst. exists [], l. cbn.
    split; [reflexivity|]. split; [exact F|intros y []].
  - intros H. destruct (IH H) as (before & after & E & T & N).
    exists (a :: before), after. subst l. cbn. split; [reflexivity|].
    split; [exact T|]. intros y [Y|Y]; [subst y; exact F|auto].
Qed.

(** An offer returned by [llm_choose_transport] is never taken from the
    chain's answer: it is the first offer of the original list that carries
    both the id and the type the chain named. *)
Theorem llm_choose_transport_resolves
    (transport_options : list Offer) (user : UserData)
    (home_commute_time arrival_commute_time : Q) (selected : Offer) :
  llm_choose_transport transport_options user home_commute_time
    arrival_commute_time = Some selected ->
  exists selected_id selected_type before after,
    transport_chain transport_options home_commute_time arrival_commute_time
      (departure_date user) (meeting_start_dt user)
      (meeting_start_dt user
       - (PRE_MEETING_BUFFER_MINUTES + arrival_commute_time))
      = chain_dict selected_id selected_type /\
    transport_options = before ++ selected :: after /\
    get_eqb (offer_id selected) selected_id = true /\
    get_eqb (offer_type selected) selected_type = true /\
    forall opt, In opt before ->
      same_offer selected_id selected_type opt = false.
Proof.
  unfold llm_choose_transport.
  destruct (transport_chain _ _ _ _ _ _) as [| |sid sty] eqn:C;
    try discriminate.
  destruct (find (same_offer sid sty) transport_options) as [o|] eqn:F;
    [|discriminate].
  destruct (offer_truthy o); [|discriminate].
  intros H. inversion H; subst o. clear H.
  destruct (find_first _ _ _ F) as (before & after & E & T & N).
  exists sid, sty, before, after. split; [reflexivity|].
  split; [exact E|].
  unfold same_offer in T. apply andb_true_iff in T. destruct T as [T1 T2].
  auto.
Qed.

Lemma llm_choose_transport_member (options : list Offer) (user : UserData)
    (hc ac : Q) (o : Offer) :
  llm_choose_transport options user hc ac = Some o -> In o options.
Proof.
  unfold llm_choose_transport.
  destruct (transport_chain _ _ _ _ _ _) as [| |sid sty]; try discriminate.
  destruct (find (same_offer sid sty) options) as [x|] eqn:F; [|discriminate].
  destruct (offer_truthy x); [|discriminate].
  intros H. inversion H; subst. apply find_some in F. apply F.
Qed.

(** When [select_transport_by_llm] returns, it has sent at most six routing
    requests, and its update is either one non-empty error message, or a
    selected offer together with a cleared error message; a selected offer
    is one of the flight and train options of the state and carries a
    departure time. *)
Theorem select_transport_by_llm_outcome
    (state : TravelPlanState) (w w' : World) (update : list Assignment) :
  select_transport_by_llm state w = (Returns update, w') ->
  (requests w <= requests w' <= requests w + 6)%nat /\
  ((exists msg, update = [set_error_message (Some msg)] /\ msg <> "")
   \/
   (exists offer,
      update = [set_selected_option_raw offer; set_error_message None] /\
      In offer (transport_options_of state) /\
      present (departure_time offer) = true)).
Proof.
  unfold select_transport_by_llm, transport_options_of.
  destruct (user_data state) as [user|]; [|discriminate].
  destruct (home_location state) as [home_loc|]; [|discriminate].
  destruct (meeting_location state) as [meeting_loc|]; [|discriminate].
  destruct (get_list (flight_options state) ++ get_list (train_options state))
    as [|ref_option rest] eqn:O.
  { intros H. inversion H; subst. split; [lia|].
    left. eexists. split; [reflexivity|discriminate]. }
  destruct (departure_hub ref_option) as [dep|]; [|discriminate].
  destruct (amap_geocode dep (loc_city home_loc)) as [dc|].
  2:{ intros H. inversion H; subst. split; [lia|].
      left. eexists. split; [reflexivity|discriminate]. }
  destruct (arrival_hub ref_option) as [arr|]; [|discriminate].
  destruct (amap_geocode arr (loc_city meeting_loc)) as [ac|].
  2:{ intros H. inversion H; subst. split; [lia|].
      left. eexists. split; [reflexivity|discriminate]. }
  unfold bind.
  pose proof (get_amap_driving_time_cost home_loc
                (hub_location home_loc dep dc) w) as C1.
  destruct (get_amap_driving_time home_loc (hub_location home_loc dep dc) w)
    as [hc w1].
  pose proof (get_amap_driving_time_cost (hub_location meeting_loc arr ac)
                meeting_loc w1) as C2.
  destruct (get_amap_driving_time (hub_location meeting_loc arr ac)
              meeting_loc w1) as [acm w2].
  cbn [snd] in C1, C2.
  destruct (llm_choose_transport (ref_option :: rest) user
              (or_default hc 60) (or_default acm 60)) as [o|] eqn:L.
  - destruct (present (departure_time o)) eqn:D;
      intros H; inversion H; subst; (split; [lia|]).
    + right. exists o. split; [reflexivity|].
      split; [apply (llm_choose_transport_member _ _ _ _ _ L)|exact D].
    + left. eexists. split; [reflexivity|discriminate].
  - intros H. inversion H; subst. split; [lia|].
    left. eexists. split; [reflexivity|discriminate].
Qed.

(** ** When [pre_meeting_plan] cannot raise *)

Lemma merge_scores_returns (d : Dict) (scored : list ScoredItem) :
  (forall item, In item scored -> well_formed item) ->
  exists merged, merge_scores d scored = Returns merged.
Proof.
  induction scored as [|item rest IH]; intros W.
  - exists []. reflexivity.
  - destruct IH as (tl & E); [intros; apply W; right; assumption|].
    destruct (W item (or_introl eq_refl)) as (N & A & F).
    cbn [merge_scores]. rewrite E.
    destruct (scored_name item) as [k|]; [|contradiction].
    destruct (d k) as [original|]; [|eauto].
    destruct (scored_S_attract item); try contradiction; cbn; eauto.
    destruct (scored_S_feas item); try contradiction; cbn; eauto.
Qed.

Lemma greedy_loop_returns (sorted : list Company) :
  (forall c, In c sorted -> present (T_hub_to_i c) = true) ->
  forall acc t remaining,
    exists plan, greedy_loop sorted acc t remaining = Returns plan.
Proof.
  induction sorted as [|c rest IH]; intros P acc t remaining.
  - eexists. reflexivity.
  - cbn [greedy_loop].
    assert (H : forall first, exists hop, hop_of first c = Returns hop).
    { intros first. unfold hop_of. pose proof (P c (or_introl eq_refl)) as Pc.
      destruct (T_hub_to_i c) as [h|]; [|discriminate].
      destruct first; [eauto|].
      destruct (T_prev_to_i c) as [p|]; cbn; [|eauto].
      destruct (negb (Qeq_bool p 0)); eauto. }
    destruct (H (match acc with [] => true | _ => false end)) as (hop & E).
    rewrite E.
    destruct (Qle_bool _ remaining); [|eexists; reflexivity].
    apply IH. intros; apply P; right; assumption.
Qed.

Lemma plan_multi_company_visit_returns (merged : list Company)
    (t_available t0 : Q) (hub venue : Location) :
  (forall m, In m merged ->
     present (S_attract m) = true /\ present (S_feas m) = true /\
     present (T_total_trip m) = true /\ present (T_hub_to_i m) = true) ->
  exists plan,
    plan_multi_company_visit merged t_available t0 hub venue = Returns plan.
Proof.
  intros P. unfold plan_multi_company_visit.
  set (sc := fun c => snd (calculate_final_score c t_available)).
  assert (Full : forall c, In c (map sc merged) ->
            present (S_final c) = true /\ present (T_hub_to_i c) = true).
  { intros c I. apply in_map_iff in I. destruct I as (m & E & I). subst c.
    destruct (P m I) as (A & F & T & Hb). unfold sc, calculate_final_score.
    destruct (S_attract m), (S_feas m), (T_total_trip m); try discriminate.
    cbn. auto. }
  destruct (sorted_by_S_final (map sc merged)) as [sorted|] eqn:S.
  - apply greedy_loop_returns. intros c I.
    apply sorted_by_S_final_perm in S.
    apply (Permutation_in _ S) in I. apply Full. exact I.
  - exfalso. unfold sorted_by_S_final in S. rewrite decorate_spec in S.
    destruct (forallb (fun c => present (S_final c)) (map sc merged)) eqn:A;
      [discriminate|].
    assert (A' : forallb (fun c => present (S_final c)) (map sc merged) = true)
      by (apply forallb_forall; intros c I; apply Full; exact I).
    congruence.
Qed.

Lemma pre_meeting_plan_total
    (state : TravelPlanState) (w : World)
    (user : UserData) (meeting_loc : Location) :
  user_data state = Some user ->
  meeting_location state = Some meeting_loc ->
  (forall selected, selected_transport state = Some selected ->
     arrival_commute_of selected <> None) ->
  (forall companies t item,
     In item (get_company_scores_by_llm companies t) -> well_formed item) ->
  exists r w', pre_meeting_plan state w = (Returns r, w').
Proof.
  intros U Mt Sel WF. unfold pre_meeting_plan. rewrite U, Mt.
  destruct (selected_transport state) as [selected|] eqn:St;
    [|eexists _, _; reflexivity].
  destruct (arrival_commute_of selected) as [acm|] eqn:AC;
    [|exfalso; exact (Sel selected eq_refl AC)].
  unfold bind.
  set (hub := item_location selected).
  set (latest := meeting_start_dt user - POST_ARRIVAL_BUFFER_MINUTES).
  set (available := latest - end_time selected).
  destruct (candidate_pool hub meeting_loc acm available w)
    as [pool w_pool] eqn:P.
  destruct pool as [|c0 pool0]; [eexists _, _; reflexivity|].
  set (pool := c0 :: pool0) in *.
  destruct (get_company_scores_by_llm pool available) as [|s0 scored0] eqn:Sc;
    [eexists _, _; reflexivity|].
  destruct (merge_scores_returns (companies_by_name pool) (s0 :: scored0))
    as (merged & Mg).
  { intros item I. apply (WF pool available). rewrite Sc. exact I. }
  rewrite Mg.
  destruct (plan_multi_company_visit_returns merged available
              (end_time selected) hub meeting_loc) as (plan & Pl).
  { intros m I.
    destruct (merge_scores_sound _ _ _ Mg m I) as (c & L & St' & PA & PF).
    apply companies_by_name_lookup in L. destruct L as [Ic _].
    destruct (candidate_pool_admitted _ _ _ _ _ _ _ P c Ic)
      as (th & tm & w1 & w2 & w3 & _ & _ & H1 & H2 & H3 & _).
    destruct St' as (_ & S2 & _ & S4 & _).
    rewrite S2, S4, H1, H3. auto. }
  rewrite Pl.
  destruct plan as [|v0 plan0]; [eexists _, _; reflexivity|].
  destruct (repair_loop_outcome hub meeting_loc (end_time selected) latest
              (length (v0 :: plan0))
              {| final_visit_plan_data := v0 :: plan0
               ; pre_meeting_route_final := []
               ; final_arrival_time := None; walks := O |} w_pool (le_n _))
    as (s' & w' & R & _).
  unfold feasibility_repair. rewrite R. eexists _, _. reflexivity.
Qed.

(** [pre_meeting_plan] returns -- no [KeyError] escapes it -- whenever the
    state carries the user data, the meeting location and, if a transport is
    selected, its commute details, and every answer of the value-judgment
    service has a name and both score keys (whatever their values). *)
Theorem pre_meeting_plan_returns
    (state : TravelPlanState) (w : World)
    (user : UserData) (meeting_loc : Location) :
  user_data state = Some user ->
  meeting_location state = Some meeting_loc ->
  (forall selected, selected_transport state = Some selected ->
     arrival_commute_of selected <> None) ->
  (forall companies t item,
     In item (get_company_scores_by_llm companies t) -> well_formed item) ->
  exists r w', pre_meeting_plan state w = (Returns r, w').
Proof.
  exact (pre_meeting_plan_total state w user meeting_loc).
Qed.

(** ** The graph *)

Lemma build_travel_graph_next (node next : Node) (state : TravelPlanState) :
  build_travel_graph node state = Some next ->
  pipeline_from node = node :: pipeline_from next.
Proof.
  destruct node; cbn;
    unfold decide_next_step, decide_after_traffic_query,
           decide_after_llm_select, decide_after_traffic_calculation;
    repeat match goal with
           | |- context [if ?b then _ else _] => destruct b
           | |- context [match ?x with Some _ => _ | None => _ end] => destruct x
           end;
    intros H; inversion H; reflexivity.
Qed.

Lemma pipeline_from_head (node : Node) :
  exists rest, pipeline_from node = node :: rest.
Proof.
  destruct node; eexists; reflexivity.
Qed.

Lemma invoke_trace (limit : nat) :
  forall node state executed w,
    let out := invoke limit node state executed w in
    (exists k, snd (fst out) = executed ++ firstn k (pipeline_from node)) /\
    ((length (pipeline_from node) <= limit)%nat ->
     fst (fst out) = Raises ->
     exists before last s wl,
       snd (fst out) = before ++ [last] /\
       fst (run_node last s wl) = Raises).
Proof.
  induction limit as [|limit IH]; intros node state executed w; cbv zeta.
  - cbn. split; [exists 0%nat; rewrite app_nil_r; reflexivity|].
    intros L. destruct (pipeline_from_head node) as (rest & E).
    rewrite E in L. cbn in L. lia.
  - cbn [invoke]. unfold bind.
    destruct (pipeline_from_head node) as (rest & E).
    destruct (run_node node state w) as [[update|] w1] eqn:R.
    + destruct (build_travel_graph node (merge update state)) as [next|] eqn:B.
      * pose proof (build_travel_graph_next _ _ _ B) as N.
        destruct (IH next (merge update state) (executed ++ [node]) w1)
          as [(k & T) F].
        split.
        -- exists (S k). rewrite T, N, <- app_assoc. reflexivity.
        -- intros L. apply F. rewrite N in L. cbn in L. lia.
      * unfold ret. cbn [fst snd]. split; [|discriminate].
        exists 1%nat. rewrite E. reflexivity.
    + unfold ret. cbn [fst snd]. split.
      * exists 1%nat. rewrite E. reflexivity.
      * intros _ _. exists executed, node, state, w. rewrite R. auto.
Qed.

Lemma run_nodes_app (l1 l2 : list Node) :
  forall state w,
    run_nodes (l1 ++ l2) state w
    = match run_nodes l1 state w with
      | (Returns s, w1) => run_nodes l2 s w1
      | (Raises, w1) => (Raises, w1)
      end.
Proof.
  induction l1 as [|node rest IH]; intros state w; [reflexivity|].
  cbn [app run_nodes]. unfold bind.
  destruct (run_node node state w) as [[update|] w1]; [apply IH|reflexivity].
Qed.

Lemma invoke_run (limit : nat) :
  forall node state0 w0 state executed w,
    run_nodes executed state0 w0 = (Returns state, w) ->
    let out := invoke limit node state executed w in
    ((length (pipeline_from node) <= limit)%nat ->
     fst (fst out) = Raises ->
     exists before last s wl,
       snd (fst out) = before ++ [last] /\
       run_nodes before state0 w0 = (Returns s, wl) /\
       run_node last s wl = (Raises, snd out)) /\
    (forall state',
       fst (fst out) = Returns state' ->
       run_nodes (snd (fst out)) state0 w0 = (Returns state', snd out) /\
       exists before last,
         snd (fst out) = before ++ [last] /\
         build_travel_graph last state' = None).
Proof.
  induction limit as [|limit IH]; intros node state0 w0 state executed w R;
    cbv zeta.
  - cbn. split; [|discriminate].
    intros L. destruct (pipeline_from_head node) as (rest & E).
    rewrite E in L. cbn in L. lia.
  - cbn [invoke]. unfold bind.
    destruct (run_node node state w) as [[update|] w1] eqn:N.
    + assert (R' : run_nodes (executed ++ [node]) state0 w0
                   = (Returns (merge update state), w1)).
      { rewrite run_nodes_app, R. cbn [run_nodes]. unfold bind.
        rewrite N. reflexivity. }
      destruct (build_travel_graph node (merge update state)) as [next|] eqn:B.
      * pose proof (build_travel_graph_next _ _ _ B) as Nx.
        destruct (IH next state0 w0 (merge update state) (executed ++ [node])
                    w1 R') as [F G].
        split; [|exact G].
        intros L. apply F. rewrite Nx in L. cbn in L. lia.
      * unfold ret. cbn [fst snd]. split; [discriminate|].
        intros state' E. inversion E; subst state'.
        split; [exact R'|]. exists executed, node. auto.
    + unfold ret. cbn [fst snd]. split; [|discriminate].
      intros _ _. exists executed, node, state, w. auto.
Qed.

(** A run started at [check_constraints] executes a prefix of the pipeline
    check_constraints, geocode_locations, traffic_query,
    select_transport_by_llm, calculate_final_transport, pre_meeting_plan,
    post_meeting_plan, generate_final_itinerary: no node runs twice or out
    of turn. With a recursion limit of 9 or more the limit is never what
    stops the run: if it fails, the nodes before the last one executed all
    returned, and the last one raised on the state they left; if it
    returns, its result is the state left by the nodes executed, run in
    order, and the edge of the last of them leads to the end. *)
Theorem invoke_follows_the_pipeline
    (recursion_limit : nat) (state : TravelPlanState) (w : World) :
  let out := invoke recursion_limit n_check_constraints state [] w in
  let executed := snd (fst out) in
  (exists k, executed = firstn k pipeline) /\
  ((9 <= recursion_limit)%nat ->
   fst (fst out) = Raises ->
   exists before last s wl,
     executed = before ++ [last] /\
     run_nodes before state w = (Returns s, wl) /\
     run_node last s wl = (Raises, snd out)) /\
  ((9 <= recursion_limit)%nat ->
   forall state',
     fst (fst out) = Returns state' ->
     run_nodes executed state w = (Returns state', snd out) /\
     exists before last,
       executed = before ++ [last] /\
       build_travel_graph last state' = None).
Proof.
  cbv zeta.
  destruct (invoke_trace recursion_limit n_check_constraints state [] w)
    as [T _].
  destruct (invoke_run recursion_limit n_check_constraints state w state [] w
              eq_refl) as [F G].
  split; [exact T|]. split.
  - intros L. apply F. cbn. lia.
  - intros _. exact G.
Qed.

(** ** The filter around a center without coordinates *)

Lemma filter_loop_unresolved (center : Location) (max_minutes : Z)
    (city : string) (entries : list DirectoryEntry) (w : World) :
  truthy (loc_lat center) = false ->
  filter_loop center max_minutes city entries w
  = (if api_key_configured && Qle_bool 35 (inject_Z max_minutes)
     then annotated city (round1 35) entries else [], w).
Proof.
  intros T. induction entries as [|e rest IH].
  - destruct (api_key_configured && _); reflexivity.
  - cbn [filter_loop annotated flat_map].
    destruct (entry_location city e) as [[n loc]|]; [|exact IH].
    unfold bind, get_amap_driving_time. rewrite T.
    destruct api_key_configured; cbn [negb andb orb] in *; unfold ret.
    + destruct (Qle_bool 35 (inject_Z max_minutes)); [|exact IH].
      rewrite IH. reflexivity.
    + exact IH.
Qed.

(** C7, amended. [filter_companies_by_area_by_time] returns the empty list
    for a center without a city, and does not look at the center's
    coordinates. Around a center whose latitude is absent no routing
    request is sent: the routing client answers its 35-minute fallback, so
    with the key configured and a radius of 35 minutes or more the filter
    returns every directory entry of the city that carries its four keys,
    annotated with 35 rounded; with a smaller radius, or without the key, it
    returns the empty list. *)
Theorem unresolved_center_gets_the_fallback
    (center_location : Location) (max_driving_minutes : Z) (w : World) :
  truthy (loc_lat center_location) = false ->
  let out :=
    filter_companies_by_area_by_time center_location max_driving_minutes w in
  let city := loc_city center_location in
  snd out = w /\
  (city = "" -> fst out = []) /\
  (api_key_configured = false -> fst out = []) /\
  ((max_driving_minutes < 35)%Z -> fst out = []) /\
  (city <> "" -> api_key_configured = true -> (35 <= max_driving_minutes)%Z ->
   fst out = annotated city (round1 35) (COMPANIES_DB city)).
Proof.
  intros T. cbv zeta. unfold filter_companies_by_area_by_time.
  destruct (loc_city center_location =? "")%string eqn:E.
  - apply String.eqb_eq in E. cbn.
    split; [reflexivity|]. split; [reflexivity|]. split; [reflexivity|].
    split; [reflexivity|]. intros N. contradiction.
  - apply String.eqb_neq in E.
    rewrite (filter_loop_unresolved _ _ _ _ _ T). cbn [fst snd].
    split; [reflexivity|]. split; [intros C; contradiction|].
    split; [intros K; rewrite K; reflexivity|]. split.
    + intros Lt.
      assert (Q35 : Qle_bool 35 (inject_Z max_driving_minutes) = false).
      { destruct (Qle_bool 35 (inject_Z max_driving_minutes)) eqn:B;
          [|reflexivity].
        apply Qle_bool_iff in B. unfold Qle in B. cbn in B. lia. }
      rewrite Q35, andb_false_r. reflexivity.
    + intros _ K Le.
      assert (Q35 : Qle_bool 35 (inject_Z max_driving_minutes) = true).
      { apply Qle_bool_iff. unfold Qle. cbn. lia. }
      rewrite K, Q35. reflexivity.
Qed.

(** ** The data file *)

Lemma data_get_set_same (city : string) (v : list CompanyInfo) (data : Data) :
  data_get city (data_set city v data) = Some v.
Proof.
  induction data as [|[k old] rest IH]; cbn.
  - rewrite String.eqb_refl. reflexivity.
  - destruct (k =? city)%string eqn:E; cbn; rewrite E; [reflexivity|exact IH].
Qed.

Lemma data_get_set_other (city other : string) (v : list CompanyInfo)
    (data : Data) :
  other <> city ->
  data_get other (data_set city v data) = data_get other data.
Proof.
  intros N. induction data as [|[k old] rest IH]; cbn.
  - destruct (city =? other)%string eqn:E; [|reflexivity].
    apply String.eqb_eq in E. congruence.
  - destruct (k =? city)%string eqn:E; cbn.
    + apply String.eqb_eq in E. subst k.
      destruct (city =? other)%string eqn:E'; [|reflexivity].
      apply String.eqb_eq in E'. congruence.
    + destruct (k =? other)%string; [reflexivity|exact IH].
Qed.

Lemma carries_spec (company_id : string) (c : CompanyInfo) :
  carries company_id c = true <-> info_id c = Some company_id.
Proof.
  unfold carries, get_eqb. destruct (info_id c) as [i|].
  - rewrite String.eqb_eq. split; congruence.
  - split; discriminate.
Qed.

(** Adding a company appends it to the list of its city and to no other:
    read back, the city holds its former companies followed by the new one,
    whose id is the city name and the new length of the list in three
    digits, and whose coordinates are the geocoder's, or 0.0 and 0.0 when
    the address could not be geocoded. A missing or undecodable file counts
    as empty. *)
Theorem add_company_appends (city label address : string) (file : DataFile) :
  let file' := add_company city label address file in
  let before := get_companies_by_city city file in
  (exists info,
     get_companies_by_city city file' = before ++ [info] /\
     info_id info = Some (city ++ format_03 (S (length before)))%string /\
     info_name info = Some label /\
     info_address info = Some address /\
     (forall lat lon, amap_geocode address city = Some (lat, lon) ->
        info_lat info = Some (Some lat) /\ info_lon info = Some (Some lon)) /\
     (amap_geocode address city = None ->
        info_lat info = Some (Some 0) /\ info_lon info = Some (Some 0))) /\
  (forall other, other <> city ->
     get_companies_by_city other file' = get_companies_by_city other file).
Proof.
  cbv zeta. unfold add_company, get_companies_by_city, _save_data.
  set (data := _load_data file).
  assert (G : get_list (data_get city
                (if present (data_get city data) then data
                 else data_set city [] data))
              = get_list (data_get city data)).
  { destruct (data_get city data) eqn:E; cbn; [rewrite E; reflexivity|].
    rewrite data_get_set_same. reflexivity. }
  cbn [_load_data]. rewrite G. split.
  - eexists. rewrite data_get_set_same. cbn [get_list].
    split; [reflexivity|]. cbn.
    rewrite Nat.add_1_r. split; [reflexivity|].
    split; [reflexivity|]. split; [reflexivity|]. split.
    + intros lat lon E. rewrite E. split; reflexivity.
    + intros E. rewrite E. split; reflexivity.
  - intros other N. rewrite data_get_set_other by exact N.
    destruct (present (data_get city data)); [reflexivity|].
    rewrite data_get_set_other by exact N. reflexivity.
Qed.

Lemma filter_carries_none (company_id : string) (companies : list CompanyInfo) :
  (forall c, In c companies -> info_id c <> Some company_id) ->
  filter (fun c => negb (carries company_id c)) companies = companies.
Proof.
  induction companies as [|c rest IH]; intros H; [reflexivity|]. cbn.
  destruct (carries company_id c) eqn:E.
  - apply carries_spec in E. exfalso. exact (H c (or_introl eq_refl) E).
  - cbn. f_equal. apply IH. intros; apply H; right; assumption.
Qed.

Lemma filter_shorter (company_id : string) (companies : list CompanyInfo) :
  (length (filter (fun c => negb (carries company_id c)) companies)
     <= length companies)%nat /\
  ((length (filter (fun c => negb (carries company_id c)) companies)
      < length companies)%nat <->
   exists c, In c companies /\ info_id c = Some company_id).
Proof.
  induction companies as [|c rest [L IH]]; cbn.
  - split; [lia|]. split; [lia|]. intros (c & [] & _).
  - destruct (carries company_id c) eqn:E; cbn.
    + split; [lia|]. split; [|lia]. intros _. exists c.
      split; [left; reflexivity|apply carries_spec; exact E].
    + split; [lia|]. split.
      * intros H. destruct IH as [IH _].
        destruct IH as (x & I & C); [lia|]. exists x. auto.
      * intros (x & [->|I] & C).
        -- apply carries_spec in C. congruence.
        -- destruct IH as [_ IH]. assert (exists c, In c rest /\ info_id c = Some company_id) by eauto.
           apply IH in H. lia.
Qed.

(** Deleting by id answers [True] exactly when a company of the city
    carried the id; the city then holds its other companies, in their
    order, and none with that id (every company carrying it is removed, not
    only the first). Other cities are never touched, and on [False] the
    file is not written at all. *)
Theorem delete_company_removes (city company_id : string) (file : DataFile) :
  let out := delete_company city company_id file in
  let before := get_companies_by_city city file in
  (fst out = true <->
   exists c, In c before /\ info_id c = Some company_id) /\
  (fst out = false -> snd out = file) /\
  get_companies_by_city city (snd out)
    = filter (fun c => negb (carries company_id c)) before /\
  (forall c, In c (get_companies_by_city city (snd out)) ->
     info_id c <> Some company_id) /\
  (forall other, other <> city ->
     get_companies_by_city other (snd out) = get_companies_by_city other file).
Proof.
  cbv zeta.
  assert (K : forall l c,
            In c (filter (fun c => negb (carries company_id c)) l) ->
            info_id c <> Some company_id).
  { intros l c I C. apply filter_In in I. destruct I as [_ I].
    apply carries_spec in C. rewrite C in I. discriminate. }
  unfold delete_company, get_companies_by_city.
  set (data := _load_data file).
  destruct (data_get city data) as [companies|] eqn:G; cbn [get_list fst snd].
  - fold (carries company_id).
    change (fun c => negb (get_eqb (info_id c) (Some company_id)))
      with (fun c => negb (carries company_id c)).
    destruct (filter_shorter company_id companies) as [L S].
    destruct (Nat.ltb_spec
                (length (filter (fun c => negb (carries company_id c)) companies))
                (length companies)) as [Lt|Ge]; cbn [fst snd].
    + split; [split; [intros _; apply S; exact Lt|reflexivity]|].
      split; [discriminate|].
      cbn [_load_data _save_data]. rewrite data_get_set_same. cbn [get_list].
      split; [reflexivity|]. split; [apply K|].
      intros other N. rewrite data_get_set_other by exact N. reflexivity.
    + assert (No : forall c, In c companies -> info_id c <> Some company_id).
      { intros c I C. assert (exists c, In c companies /\ info_id c = Some company_id) by eauto.
        apply S in H. lia. }
      split; [split; [discriminate|]|].
      { intros (c & I & C). exfalso. exact (No c I C). }
      split; [reflexivity|]. fold data. rewrite G. cbn [get_list].
      split; [symmetry; apply filter_carries_none; exact No|].
      split; [exact No|reflexivity].
  - split; [split; [discriminate|intros (c & [] & _)]|].
    split; [reflexivity|]. fold data. rewrite G. cbn.
    split; [reflexivity|]. split; [intros c []|reflexivity].
Qed.

Lemma update_first_none (company_id : string) (updates : CompanyInfo)
    (companies : list CompanyInfo) :
  (forall c, In c companies -> info_id c <> Some company_id) ->
  update_first company_id updates companies = None.
Proof.
  induction companies as [|c rest IH]; intros H; [reflexivity|]. cbn.
  fold (carries company_id c).
  destruct (carries company_id c) eqn:E.
  - apply carries_spec in E. exfalso. exact (H c (or_introl eq_refl) E).
  - rewrite IH; [reflexivity|]. intros; apply H; right; assumption.
Qed.

Lemma update_first_hit (company_id : string) (updates : CompanyInfo)
    (before : list CompanyInfo) (c : CompanyInfo) (after : list CompanyInfo) :
  info_id c = Some company_id ->
  (forall b, In b before -> info_id b <> Some company_id) ->
  update_first company_id updates (before ++ c :: after)
    = Some (before ++ dict_update c updates :: after, dict_update c updates).
Proof.
  intros C. induction before as [|b rest IH]; intros H; cbn.
  - fold (carries company_id c). apply carries_spec in C. rewrite C. reflexivity.
  - fold (carries company_id b).
    destruct (carries company_id b) eqn:E.
    + apply carries_spec in E. exfalso. exact (H b (or_introl eq_refl) E).
    + rewrite IH; [reflexivity|]. intros; apply H; right; assumption.
Qed.

(** An update changes the first company of the city that carries the id,
    and only that one: later companies with the same id, and other cities,
    stay as they were. Without any such company the answer is [False] and
    the file is not written. The success message reads the company's name
    after the file was saved: for a company without a name the update is
    stored and the call then raises. *)
Theorem update_company_first_match
    (city company_id : string) (updates : CompanyInfo) (file : DataFile) :
  let out := update_company city company_id updates file in
  let companies := get_companies_by_city city file in
  ((forall c, In c companies -> info_id c <> Some company_id) ->
   out = (Returns false, file)) /\
  (forall before c after,
     companies = before ++ c :: after ->
     info_id c = Some company_id ->
     (forall b, In b before -> info_id b <> Some company_id) ->
     get_companies_by_city city (snd out)
       = before ++ dict_update c updates :: after /\
     (forall other, other <> city ->
        get_companies_by_city other (snd out)
          = get_companies_by_city other file) /\
     fst out = if present (info_name (dict_update c updates))
               then Returns true else Raises).
Proof.
  cbv zeta. unfold update_company, get_companies_by_city.
  set (data := _load_data file).
  destruct (data_get city data) as [companies|] eqn:G; cbn [get_list].
  - split.
    + intros No. rewrite update_first_none by exact No. reflexivity.
    + intros before c after E C No. subst companies.
      rewrite update_first_hit by assumption.
      assert (S : forall r : Outcome bool,
                snd (r, _save_data (data_set city
                       (before ++ dict_update c updates :: after) data))
                = file_json (data_set city
                       (before ++ dict_update c updates :: after) data))
        by reflexivity.
      destruct (info_name (dict_update c updates)); cbn [present fst];
        rewrite S; cbn [_load_data]; rewrite data_get_set_same; cbn [get_list];
        (split; [reflexivity|]); (split; [|reflexivity]);
        intros other N; rewrite data_get_set_other by exact N; reflexivity.
  - split; [reflexivity|].
    intros before c after E. destruct before; discriminate.
Qed.

Lemma add_company_get (city label address : string) (file : DataFile) :
  get_companies_by_city city (add_company city label address file)
  = get_companies_by_city city file ++
    [ {| info_id :=
           Some (city ++ format_03
                   (length (get_companies_by_city city file) + 1))%string
       ; info_name := Some label
       ; info_address := Some address
       ; info_lat :=
           Some (Some match amap_geocode address city with
                      | Some c => fst c
                      | None => 0
                      end)
       ; info_lon :=
           Some (Some match amap_geocode address city with
                      | Some c => snd c
                      | None => 0
                      end)
       ; info_industry := Some "待分类"
       ; info_description := Some "用户新增" |} ].
Proof.
  unfold add_company, get_companies_by_city, _save_data.
  set (data := _load_data file).
  assert (G : get_list (data_get city
                (if present (data_get city data) then data
                 else data_set city [] data))
              = get_list (data_get city data)).
  { destruct (data_get city data) eqn:E; cbn; [rewrite E; reflexivity|].
    rewrite data_get_set_same. reflexivity. }
  cbn [_load_data]. rewrite G, data_get_set_same. reflexivity.
Qed.

(** Ids are made of the length of the list, so they are reused after a
    deletion: when the newest company of a city holds the id that
    [add_company] gave it and one older company is deleted, the next
    company added receives the id of the newest one, and both are kept, one
    after the other, at the end of the list. *)
Theorem add_company_reuses_an_id
    (city label address company_id : string) (file : DataFile)
    (others : list CompanyInfo) (newest : CompanyInfo) :
  get_companies_by_city city file = others ++ [newest] ->
  info_id newest
    = Some (city ++ format_03 (length (others ++ [newest])))%string ->
  company_id <> (city ++ format_03 (length (others ++ [newest])))%string ->
  length (filter (carries company_id) others) = 1%nat ->
  let file' := snd (delete_company city company_id file) in
  let file'' := add_company city label address file' in
  exists rest added,
    get_companies_by_city city file'' = rest ++ [newest; added] /\
    info_id added = info_id newest.
Proof.
  intros G Id N One. cbv zeta.
  pose proof (filter_length (carries company_id) others) as FL.
  assert (Keep : carries company_id newest = false).
  { destruct (carries company_id newest) eqn:C; [|reflexivity].
    apply carries_spec in C. congruence. }
  assert (D : get_companies_by_city city
                (snd (delete_company city company_id file))
              = filter (fun c => negb (carries company_id c)) others
                ++ [newest]).
  { unfold delete_company. unfold get_companies_by_city in G.
    destruct (data_get city (_load_data file)) as [companies|];
      [|destruct others; discriminate].
    cbn [get_list] in G. subst companies.
    change (fun c => negb (get_eqb (info_id c) (Some company_id)))
      with (fun c => negb (carries company_id c)).
    rewrite filter_app. cbn [filter]. rewrite Keep. cbn [negb].
    rewrite !length_app. cbn [length].
    destruct (Nat.ltb_spec
                (length (filter (fun c => negb (carries company_id c)) others) + 1)
                (length others + 1)) as [_|Ge]; [|lia].
    cbn [snd]. unfold get_companies_by_city, _save_data. cbn [_load_data].
    rewrite data_get_set_same. reflexivity. }
  rewrite add_company_get, D.
  eexists _, _. rewrite <- app_assoc. cbn [app].
  split; [reflexivity|]. cbn [info_id]. rewrite Id.
  rewrite !length_app. cbn [length].
  replace (length (filter (fun c => negb (carries company_id c)) others) + 1 + 1)%nat
    with (length others + 1)%nat by lia.
  reflexivity.
Qed.

(** ** From the data file to the filter *)

Lemma filter_loop_app (center : Location) (max_minutes : Z) (city : string)
    (l1 l2 : list DirectoryEntry) :
  forall w,
    filter_loop center max_minutes city (l1 ++ l2) w
    = let (r1, w1) := filter_loop center max_minutes city l1 w in
      let (r2, w2) := filter_loop center max_minutes city l2 w1 in
      (r1 ++ r2, w2).
Proof.
  induction l1 as [|e rest IH]; intros w.
  - cbn. destruct (filter_loop center max_minutes city l2 w). reflexivity.
  - cbn [app filter_loop].
    destruct (entry_location city e) as [[n loc]|]; [|apply IH].
    unfold bind.
    destruct (get_amap_driving_time center loc w) as [[t|] w0]; [|apply IH].
    destruct (Qle_bool t (inject_Z max_minutes)); [|apply IH].
    rewrite IH.
    destruct (filter_loop center max_minutes city rest w0) as [r1 w1].
    unfold ret. cbn iota.
    destruct (filter_loop center max_minutes city l2 w1) as [r2 w2].
    reflexivity.
Qed.

(** A company whose address could not be geocoded is stored at latitude and
    longitude 0.0; once the directory is loaded from the file again, the
    routing client takes it for unresolved and answers its 35-minute
    fallback, so the company passes every radius of 35 minutes or more from
    any center of its city, at the end of the list, without a single
    routing request being spent on it. *)
Theorem ungeocoded_company_passes_the_filter
    (city label address : string) (file : DataFile)
    (center_location : Location) (max_driving_minutes : Z) (w : World) :
  api_key_configured = true ->
  amap_geocode address city = None ->
  loc_city center_location = city ->
  city <> "" ->
  (35 <= max_driving_minutes)%Z ->
  (forall c, COMPANIES_DB c
             = loaded_directory (add_company city label address file) c) ->
  let old := filter_loop center_location max_driving_minutes city
               (loaded_directory file city) w in
  exists c,
    filter_companies_by_area_by_time center_location max_driving_minutes w
      = (fst old ++ [c], snd old) /\
    name c = label /\
    driving_time_min c = Some (round1 35) /\
    loc_lat (location c) = Some 0 /\
    loc_lon (location c) = Some 0.
Proof.
  intros Key Geo City NE Max DB. cbv zeta.
  unfold filter_companies_by_area_by_time. rewrite City.
  destruct (city =? "")%string eqn:E; [apply String.eqb_eq in E; contradiction|].
  rewrite DB. unfold loaded_directory.
  fold (get_companies_by_city city (add_company city label address file)).
  rewrite add_company_get, map_app, filter_loop_app.
  fold (get_companies_by_city city file).
  destruct (filter_loop center_location max_driving_minutes city
              (map directory_entry (get_companies_by_city city file)) w)
    as [r1 w1].
  rewrite Geo. cbn [map directory_entry filter_loop entry_location
                    info_id info_name info_address info_lat info_lon
                    db_name db_address db_lat db_lon].
  unfold bind, get_amap_driving_time. rewrite Key. cbn [negb loc_lat].
  replace (truthy (Some 0)) with false by reflexivity.
  cbn [negb]. rewrite orb_true_r. unfold ret.
  assert (Q35 : Qle_bool 35 (inject_Z max_driving_minutes) = true).
  { apply Qle_bool_iff. unfold Qle. cbn. lia. }
  rewrite Q35. eexists. cbn [fst snd].
  split; [reflexivity|]. cbn. auto.
Qed.

(** ** The nodes around the planner *)

Lemma select_transport_no_options (state : TravelPlanState) (w : World) :
  fst (select_transport_by_llm state w)
    = Returns [set_error_message
                 (Some "交通选择失败：无任何交通选项可供选择。")] ->
  transport_options_of state = [].
Proof.
  unfold select_transport_by_llm, transport_options_of.
  destruct (user_data state) as [user|]; [|discriminate].
  destruct (home_location state) as [home_loc|]; [|discriminate].
  destruct (meeting_location state) as [meeting_loc|]; [|discriminate].
  destruct (get_list (flight_options state) ++ get_list (train_options state))
    as [|ref_option rest]; [reflexivity|].
  destruct (departure_hub ref_option) as [dep|]; [|discriminate].
  destruct (amap_geocode dep (loc_city home_loc)) as [dc|];
    [|cbn; discriminate].
  destruct (arrival_hub ref_option) as [arr|]; [|discriminate].
  destruct (amap_geocode arr (loc_city meeting_loc)) as [ac|];
    [|cbn; discriminate].
  unfold bind.
  destruct (get_amap_driving_time home_loc (hub_location home_loc dep dc) w)
    as [h w1].
  destruct (get_amap_driving_time (hub_location meeting_loc arr ac)
              meeting_loc w1) as [a w2].
  destruct (llm_choose_transport _ _ _ _) as [sel|]; [|cbn; discriminate].
  destruct (present (departure_time sel)); cbn; discriminate.
Qed.

(** [traffic_query] asks both providers for the day before the meeting and
    for the meeting day. When all four answers are empty it reports an
    error and the graph ends the run; otherwise the graph moves on to the
    selector, whose option list is then the flights of the day before, the
    flights of the meeting day, the trains of the day before and the trains
    of the meeting day, in this order, so that the selector's own
    no-option error cannot occur. *)
Theorem traffic_query_feeds_the_selector
    (state : TravelPlanState) (w w' : World) (update : list Assignment) :
  nodes_traffic_query state w = (Returns update, w') ->
  let state' := merge update state in
  exists user home_loc meeting_loc,
    user_data state = Some user /\
    home_location state = Some home_loc /\
    meeting_location state = Some meeting_loc /\
    let origin := loc_city home_loc in
    let destination := loc_city meeting_loc in
    let target_date := strftime_date (meeting_start_dt user) in
    let previous_date := strftime_date (meeting_start_dt user - 24 * 60) in
    let found :=
      query_flight_api origin destination previous_date
      ++ query_flight_api origin destination target_date
      ++ query_train_api origin destination previous_date
      ++ query_train_api origin destination target_date in
    (found = [] /\
     decide_after_traffic_query state' = None /\
     exists msg, update = [set_error_message (Some msg)])
    \/
    (found <> [] /\
     decide_after_traffic_query state' = Some n_select_transport_by_llm /\
     transport_options_of state' = found /\
     forall w1,
       fst (select_transport_by_llm state' w1)
         <> Returns [set_error_message
                       (Some "交通选择失败：无任何交通选项可供选择。")]).
Proof.
  unfold nodes_traffic_query. cbv zeta.
  destruct (user_data state) as [user|]; [|discriminate].
  destruct (home_location state) as [home_loc|]; [|discriminate].
  destruct (meeting_location state) as [meeting_loc|]; [|discriminate].
  exists user, home_loc, meeting_loc.
  split; [reflexivity|]. split; [reflexivity|]. split; [reflexivity|].
  set (fp := query_flight_api _ _ (strftime_date (meeting_start_dt user - 24 * 60))) in *.
  set (ft := query_flight_api _ _ (strftime_date (meeting_start_dt user))) in *.
  set (tp := query_train_api _ _ (strftime_date (meeting_start_dt user - 24 * 60))) in *.
  set (tt' := query_train_api _ _ (strftime_date (meeting_start_dt user))) in *.
  destruct (Nat.eqb_spec (length (fp ++ ft) + length (tp ++ tt')) 0) as [Z|NZ].
  - left. inversion H; subst.
    assert (E1 : fp ++ ft = []) by (apply length_zero_iff_nil; lia).
    assert (E2 : tp ++ tt' = []) by (apply length_zero_iff_nil; lia).
    split; [rewrite app_assoc, E1; exact E2|].
    split; [reflexivity|]. eexists. reflexivity.
  - right. inversion H; subst.
    assert (F : transport_options_of
                  (merge [set_flight_options (fp ++ ft);
                          set_train_options (tp ++ tt');
                          set_error_message None] state)
                = fp ++ ft ++ tp ++ tt')
      by (unfold transport_options_of; cbn; rewrite <- app_assoc; reflexivity).
    assert (NE : fp ++ ft ++ tp ++ tt' <> []).
    { intros E. rewrite app_assoc in E. apply app_eq_nil in E.
      destruct E as [E1 E2]. rewrite E1, E2 in NZ. cbn in NZ. lia. }
    split; [exact NE|]. split; [reflexivity|]. split; [exact F|].
    intros w1 E. apply select_transport_no_options in E.
    rewrite F in E. exact (NE E).
Qed.

Lemma or_else_nonzero (x : option Q) (d : Q) :
  ~ d == 0 -> ~ or_else x d == 0.
Proof.
  intros D. unfold or_else. destruct x as [v|]; [|exact D].
  destruct (Qeq_bool v 0) eqn:E; [exact D|].
  apply Qeq_bool_neq. exact E.
Qed.

Lemma calculate_final_transport_cases
    (state : TravelPlanState) (w w' : World) (update : list Assignment) :
  nodes_calculate_final_transport state w = (Returns update, w') ->
  (requests w <= requests w' <= requests w + 6)%nat /\
  ((exists msg, update = [set_error_message (Some msg)] /\ msg <> "" /\ w' = w)
   \/
   (exists item raw user meeting_loc home_commute arrival_commute,
      update = [set_selected_transport item; set_user_data user;
                set_error_message None] /\
      selected_option_raw state = Some raw /\
      user_data state = Some user /\
      meeting_location state = Some meeting_loc /\
      item_type item = transport /\
      loc_city (item_location item) = loc_city meeting_loc /\
      loc_name (item_location item) = arrival_hub raw /\
      present (loc_lat (item_location item)) = true /\
      item_details item
        = details_transport raw home_commute arrival_commute
            (end_time item + arrival_commute) /\
      arrival_commute_of item = Some arrival_commute /\
      ~ home_commute == 0 /\
      ~ arrival_commute == 0)).
Proof.
  unfold nodes_calculate_final_transport. cbv zeta.
  assert (Err : forall msg,
            msg <> "" ->
            ret (Returns [set_error_message (Some msg)]) w
              = (Returns update, w') ->
            (requests w <= requests w' <= requests w + 6)%nat /\
            ((exists m, update = [set_error_message (Some m)] /\ m <> "" /\ w' = w)
             \/ False)).
  { intros msg N H. inversion H; subst. split; [lia|].
    left. eexists. split; [reflexivity|]. split; [exact N|reflexivity]. }
  assert (Err' : forall msg,
            msg <> "" ->
            ret (Returns [set_error_message (Some msg)]) w
              = (Returns update, w') ->
            (requests w <= requests w' <= requests w + 6)%nat /\
            ((exists m, update = [set_error_message (Some m)] /\ m <> "" /\ w' = w)
             \/
             (exists item raw user meeting_loc home_commute arrival_commute,
                update = [set_selected_transport item; set_user_data user;
                          set_error_message None] /\
                selected_option_raw state = Some raw /\
                user_data state = Some user /\
                meeting_location state = Some meeting_loc /\
                item_type item = transport /\
                loc_city (item_location item) = loc_city meeting_loc /\
                loc_name (item_location item) = arrival_hub raw /\
                present (loc_lat (item_location item)) = true /\
                item_details item
                  = details_transport raw home_commute arrival_commute
                      (end_time item + arrival_commute) /\
                arrival_commute_of item = Some arrival_commute /\
                ~ home_commute == 0 /\
                ~ arrival_commute == 0))).
  { intros msg N H. destruct (Err msg N H) as [C [L|[]]].
    split; [exact C|left; exact L]. }
  clear Err.
  destruct (selected_option_raw state) as [raw|];
    [|apply Err'; discriminate].
  destruct (negb (offer_truthy raw)); [apply Err'; discriminate|].
  destruct (user_data state) as [user|]; [|discriminate].
  destruct (home_location state) as [home_loc|]; [|discriminate].
  destruct (meeting_location state) as [meeting_loc|]; [|discriminate].
  destruct (parse_times user raw) as [e|[start_dt end_dt]];
    [apply Err'; cbn; discriminate|].
  destruct (departure_hub raw) as [dep|]; [|discriminate].
  destruct (arrival_hub raw) as [arr|] eqn:Arr; [|discriminate].
  set (dc := if negb (present (amap_geocode dep (loc_city home_loc)))
                && negb (endswith dep "站")
             then amap_geocode (dep ++ "站")%string (loc_city home_loc)
             else amap_geocode dep (loc_city home_loc)).
  set (ac := if negb (present (amap_geocode arr (loc_city meeting_loc)))
                && negb (endswith arr "站")
             then amap_geocode (arr ++ "站")%string (loc_city meeting_loc)
             else amap_geocode arr (loc_city meeting_loc)).
  destruct dc as [dep_coords|]; [|apply Err'; discriminate].
  destruct ac as [arr_coords|]; [|apply Err'; discriminate].
  unfold bind.
  pose proof (get_amap_driving_time_cost home_loc
                (hub_location home_loc dep dep_coords) w) as C1.
  destruct (get_amap_driving_time home_loc
              (hub_location home_loc dep dep_coords) w) as [h w1].
  pose proof (get_amap_driving_time_cost
                (hub_location meeting_loc arr arr_coords) meeting_loc w1) as C2.
  destruct (get_amap_driving_time (hub_location meeting_loc arr arr_coords)
              meeting_loc w1) as [a w2].
  cbn [snd] in C1, C2.
  destruct (offer_id raw) as [id|]; [|discriminate].
  destruct (offer_type raw) as [type|]; [|discriminate].
  intros H. inversion H; subst. split; [lia|]. right.
  eexists _, raw, user, meeting_loc, (or_else h 60), (or_else a 60).
  split; [reflexivity|]. cbn. rewrite Arr.
  repeat (split; [reflexivity|]).
  split; apply or_else_nonzero; intros E; vm_compute in E; discriminate.
Qed.

(** When [calculate_final_transport] returns, its update is either a single
    non-empty error message, reported before any routing request, or the
    selected transport item together with the user data and a cleared error
    message. The item is a transport item located at the arrival hub, in
    the meeting's city and with coordinates; its details carry the offer
    chosen and both commutes, neither of which is ever zero (an absent or
    zero estimate is replaced by 60 minutes), and the final arrival they
    report is the item's end plus the arrival commute. At most six routing
    requests are sent. *)
Theorem calculate_final_transport_outcome
    (state : TravelPlanState) (w w' : World) (update : list Assignment) :
  nodes_calculate_final_transport state w = (Returns update, w') ->
  (requests w <= requests w' <= requests w + 6)%nat /\
  ((exists msg, update = [set_error_message (Some msg)] /\ msg <> "" /\ w' = w)
   \/
   (exists item raw user meeting_loc home_commute arrival_commute,
      update = [set_selected_transport item; set_user_data user;
                set_error_message None] /\
      selected_option_raw state = Some raw /\
      user_data state = Some user /\
      meeting_location state = Some meeting_loc /\
      item_type item = transport /\
      loc_city (item_location item) = loc_city meeting_loc /\
      loc_name (item_location item) = arrival_hub raw /\
      present (loc_lat (item_location item)) = true /\
      item_details item
        = details_transport raw home_commute arrival_commute
            (end_time item + arrival_commute) /\
      arrival_commute_of item = Some arrival_commute /\
      ~ home_commute == 0 /\
      ~ arrival_commute == 0)).
Proof.
  exact (calculate_final_transport_cases state w w' update).
Qed.

(** Once [calculate_final_transport] has stored a selected transport, the
    graph moves on to [pre_meeting_plan], and that node finds in the merged
    state everything it reads: whatever the routing service answers, it
    returns, provided the answers of the value-judgment service have their
    three keys. When the step reports an error instead and no transport was
    selected before, the graph ends the run. *)
Theorem transport_step_feeds_pre_meeting_plan
    (state : TravelPlanState) (w w' : World) (update : list Assignment) :
  nodes_calculate_final_transport state w = (Returns update, w') ->
  (forall companies t item,
     In item (get_company_scores_by_llm companies t) -> well_formed item) ->
  let state' := merge update state in
  (has_error state' = false /\
   decide_after_traffic_calculation state' = Some n_pre_meeting_plan /\
   forall w1, exists r w2, pre_meeting_plan state' w1 = (Returns r, w2))
  \/
  (has_error state' = true /\
   (selected_transport state = None ->
    decide_after_traffic_calculation state' = None)).
Proof.
  intros H WF. cbv zeta.
  destruct (calculate_final_transport_cases state w w' update H)
    as [_ [(msg & -> & N & _)
          |(item & raw & user & meeting_loc & hc & ac & -> & _ & U & Mt
            & _ & _ & _ & _ & _ & AC & _)]].
  - right. split.
    + unfold has_error. cbn.
      destruct (msg =? "")%string eqn:E; [|reflexivity].
      apply String.eqb_eq in E. contradiction.
    + intros St. unfold decide_after_traffic_calculation. cbn.
      rewrite St. reflexivity.
  - left. split; [reflexivity|]. split; [reflexivity|].
    intros w1. apply (pre_meeting_plan_total _ w1 user meeting_loc).
    + reflexivity.
    + cbn. exact Mt.
    + cbn. intros sel E. inversion E; subst sel. rewrite AC. discriminate.
    + exact WF.
Qed.

(** [post_meeting_plan] returns whenever the state carries the user data,
    the meeting location and the hotel location. Its route is the meeting,
    the transfer to the hotel and the check-in, one after the other without
    a gap: the meeting starts at the meeting start, the transfer leaves
    when the meeting ends, and the check-in starts on arrival and lasts 30
    minutes. The transfer is never of zero length: an absent or zero
    estimate is replaced by 30 minutes, and a hotel without a usable
    latitude is taken, without any request, to be 35 minutes away. *)
Theorem post_meeting_plan_route
    (state : TravelPlanState) (w : World)
    (user : UserData) (meeting_loc hotel_loc : Location) :
  user_data state = Some user ->
  meeting_location state = Some meeting_loc ->
  hotel_location state = Some hotel_loc ->
  exists meeting_item transfer check_in w',
    nodes_post_meeting_plan state w
      = (Returns [set_post_meeting_route [meeting_item; transfer; check_in];
                  set_error_message None], w') /\
    (requests w <= requests w' <= requests w + 3)%nat /\
    item_type meeting_item = meeting /\
    item_type transfer = transport /\
    item_type check_in = hotel /\
    start_time meeting_item = meeting_start_dt user /\
    end_time meeting_item
      = meeting_start_dt user + 60 * or_default (meeting_duration_h user) 2 /\
    start_time transfer = end_time meeting_item /\
    start_time check_in = end_time transfer /\
    end_time check_in = start_time check_in + 30 /\
    item_location transfer = hotel_loc /\
    item_location check_in = hotel_loc /\
    (exists commute,
       end_time transfer = start_time transfer + commute /\
       item_details transfer = details_duration_min commute /\
       ~ commute == 0 /\
       (api_key_configured = false -> commute = 30 /\ w' = w) /\
       (api_key_configured = true ->
        truthy (loc_lat hotel_loc) = false -> commute = 35 /\ w' = w)).
Proof.
  intros U Mt Ht. unfold nodes_post_meeting_plan. rewrite U, Mt, Ht.
  cbv zeta. unfold bind.
  pose proof (get_amap_driving_time_cost meeting_loc hotel_loc w) as C.
  assert (F : (api_key_configured = false ->
               get_amap_driving_time meeting_loc hotel_loc w = (None, w)) /\
              (api_key_configured = true ->
               truthy (loc_lat hotel_loc) = false ->
               get_amap_driving_time meeting_loc hotel_loc w = (Some 35, w))).
  { unfold get_amap_driving_time. split.
    - intros K. rewrite K. reflexivity.
    - intros K T. rewrite K, T. cbn [negb]. rewrite orb_true_r. reflexivity. }
  destruct (get_amap_driving_time meeting_loc hotel_loc w) as [commute w1].
  cbn [snd] in C. unfold ret.
  eexists _, _, _, w1. split; [reflexivity|]. cbn.
  split; [exact C|].
  repeat (split; [reflexivity|]).
  exists (or_else commute 30).
  split; [reflexivity|]. split; [reflexivity|].
  split; [apply or_else_nonzero; intros E; vm_compute in E; discriminate|].
  destruct F as [F1 F2]. split.
  - intros K. specialize (F1 K). inversion F1; subst. split; reflexivity.
  - intros K T. specialize (F2 K T). inversion F2; subst. split; reflexivity.
Qed.

Lemma insert_by_start_time_perm (x : ItineraryItem) (l : list ItineraryItem) :
  Permutation (insert_by_start_time x l) (x :: l).
Proof.
  induction l as [|y rest IH]; cbn; [reflexivity|].
  destruct (Qle_bool (start_time x) (start_time y)); [reflexivity|].
  rewrite IH. apply perm_swap.
Qed.

Lemma sort_by_start_time_perm (l : list ItineraryItem) :
  Permutation (sort_by_start_time l) l.
Proof.
  induction l as [|x rest IH]; cbn; [reflexivity|].
  rewrite insert_by_start_time_perm. constructor. exact IH.
Qed.

Lemma insert_by_start_time_sorted (x : ItineraryItem) (l : list ItineraryItem) :
  StronglySorted by_start_time l ->
  StronglySorted by_start_time (insert_by_start_time x l).
Proof.
  induction l as [|y rest IH]; intros S; cbn.
  - constructor; [constructor|constructor].
  - inversion S as [|? ? Sr Fy]; subst.
    destruct (Qle_bool (start_time x) (start_time y)) eqn:E.
    + apply Qle_bool_iff in E. constructor; [exact S|].
      constructor; [exact E|].
      eapply Forall_impl; [|exact Fy].
      intros z Hz. unfold by_start_time in *. eapply Qle_trans; eassumption.
    + assert (Lt : start_time y <= start_time x).
      { destruct (Qlt_le_dec (start_time y) (start_time x)) as [L|L].
        - apply Qlt_le_weak. exact L.
        - apply Qle_bool_iff in L. congruence. }
      constructor; [apply IH; exact Sr|].
      apply (Permutation_Forall
               (Permutation_sym (insert_by_start_time_perm x rest))).
      constructor; [exact Lt|exact Fy].
Qed.

Lemma sort_by_start_time_sorted (l : list ItineraryItem) :
  StronglySorted by_start_time (sort_by_start_time l).
Proof.
  induction l as [|x rest IH]; cbn; [constructor|].
  apply insert_by_start_time_sorted. exact IH.
Qed.

Lemma sort_by_start_time_fixes (l : list ItineraryItem) :
  StronglySorted by_start_time l -> sort_by_start_time l = l.
Proof.
  induction l as [|x rest IH]; intros S; [reflexivity|].
  inversion S as [|? ? Sr Fx]; subst.
  change (sort_by_start_time (x :: rest))
    with (insert_by_start_time x (sort_by_start_time rest)).
  rewrite (IH Sr).
  destruct rest as [|y rest']; [reflexivity|]. cbn [insert_by_start_time].
  inversion Fx as [|? ? Hy _]; subst. unfold by_start_time in Hy.
  apply Qle_bool_iff in Hy. rewrite Hy. reflexivity.
Qed.

(** [generate_final_itinerary] returns whenever the state carries the user
    data. The itinerary it stores is made of the items of the pre-meeting
    and of the post-meeting route and of nothing else -- the selected
    inter-city transport never appears in it -- in order of start time; a
    sequence that is already in that order is stored as it is. *)
Theorem generate_final_itinerary_in_order
    (state : TravelPlanState) (w : World) (user : UserData) :
  user_data state = Some user ->
  let routes := get_list (pre_meeting_route state)
                ++ get_list (post_meeting_route state) in
  exists items,
    nodes_generate_final_itinerary state w
      = (Returns [set_final_itinerary_report
                    (get_final_report_by_llm user items);
                  set_final_itinerary items;
                  set_error_message None], w) /\
    Permutation items routes /\
    StronglySorted by_start_time items /\
    (StronglySorted by_start_time routes -> items = routes).
Proof.
  intros U. cbv zeta. unfold nodes_generate_final_itinerary. rewrite U.
  assert (E : (match post_meeting_route state with
               | Some (item :: route) =>
                   (match pre_meeting_route state with
                    | Some (item0 :: route0) =>
                        (match selected_transport state with
                         | Some selected =>
                             [] ++ details_itinerary (item_details selected)
                         | None => []
                         end) ++ item0 :: route0
                    | _ =>
                        match selected_transport state with
                        | Some selected =>
                            [] ++ details_itinerary (item_details selected)
                        | None => []
                        end
                    end) ++ item :: route
               | _ =>
                   match pre_meeting_route state with
                   | Some (item0 :: route0) =>
                       (match selected_transport state with
                        | Some selected =>
                            [] ++ details_itinerary (item_details selected)
                        | None => []
                        end) ++ item0 :: route0
                   | _ =>
                       match selected_transport state with
                       | Some selected =>
                           [] ++ details_itinerary (item_details selected)
                       | None => []
                       end
                   end
               end)
              = get_list (pre_meeting_route state)
                ++ get_list (post_meeting_route state)).
  { assert (Main : match selected_transport state with
                   | Some selected =>
                       [] ++ details_itinerary (item_details selected)
                   | None => []
                   end = []).
    { destruct (selected_transport state) as [sel|]; [|reflexivity].
      destruct (item_details sel); reflexivity. }
    rewrite Main.
    destruct (pre_meeting_route state) as [[|i r]|],
             (post_meeting_route state) as [[|j s]|];
      cbn; rewrite ?app_nil_r; reflexivity. }
  rewrite E. eexists. split; [reflexivity|].
  split; [apply sort_by_start_time_perm|].
  split; [apply sort_by_start_time_sorted|apply sort_by_start_time_fixes].
Qed.

End Scheduler.

(** * The scenario, run *)


(** Company A of the scenario scores 6.9. *)
Lemma calculate_final_score_formula_witness :
  Binary64.S_attract company_A64 = Some 9%float /\
  Binary64.S_feas company_A64 = Some 8%float /\
  Binary64.T_total_trip company_A64 = Some 45%float /\
  fst (Binary64.calculate_final_score company_A64 180) = 6.9%float.
Proof.
  split; [reflexivity|]. split; [reflexivity|]. split; [reflexivity|].
  destruct (calculate_final_score_formula company_A64 180 9 8 45
              eq_refl eq_refl eq_refl) as (_ & _ & H & _).
  exact (H eq_refl eq_refl eq_refl eq_refl).
Defined.

(** The score is the rounded value of each operation, not of the whole
    expression: the inputs (4, 7, 50) score 3.3499999999999996 under a
    budget of 180, not the float nearest to 3.35. *)
Lemma calculate_final_score_rounds_each_operation :
  forall c,
    Binary64.S_attract c = Some 4%float ->
    Binary64.S_feas c = Some 7%float ->
    Binary64.T_total_trip c = Some 50%float ->
    PrimFloat.eqb (fst (Binary64.calculate_final_score c 180)) 3.35 = false /\
    PrimFloat.ltb (fst (Binary64.calculate_final_score c 180)) 3.35 = true.
Proof.
  intros c A F T. unfold Binary64.calculate_final_score.
  rewrite A, F, T. split; vm_compute; reflexivity.
Qed.

(** The scenario through [pre_meeting_plan]: the route visits B then A and
    reaches the venue at 155, within the 180 minutes. *)
Lemma pre_meeting_plan_feasible_witness :
  exists r w',
    pre_meeting_plan true Qred sample_route sample_directory sample_scores
      sample_state world0 = (Returns r, w') /\
    result_pre_meeting_route r <> [] /\
    result_final_arrival_at_venue r = Some 155 /\
    exists user meeting_loc selected arrival_commute_min pool w_pool arrival,
      user_data sample_state = Some user /\
      meeting_location sample_state = Some meeting_loc /\
      selected_transport sample_state = Some selected /\
      arrival_commute_of selected = Some arrival_commute_min /\
      let arrival_hub_loc := item_location selected in
      let latest_arrival_needed :=
        meeting_start_dt user - POST_ARRIVAL_BUFFER_MINUTES in
      let available_minutes := latest_arrival_needed - end_time selected in
      candidate_pool true Qred sample_route sample_directory
        arrival_hub_loc meeting_loc arrival_commute_min available_minutes
        world0 = (pool, w_pool) /\
      result_final_arrival_at_venue r = Some arrival /\
      arrival <= latest_arrival_needed /\
      forall item,
        In item (result_pre_meeting_route r) ->
        item_type item = company_visit ->
        exists c,
          In c pool /\
          item_location item = location c /\
          item_details item = details_company_name (name c) /\
          admitted true Qred sample_route arrival_hub_loc meeting_loc
            available_minutes c.
Proof.
  destruct (pre_meeting_plan true Qred sample_route sample_directory
              sample_scores sample_state world0) as [out w'] eqn:E.
  pose proof E as E'. vm_compute in E'. inversion E' as [[Eo Ew]].
  rewrite <- Eo in E.
  eexists _, w'. split; [exact E|].
  split; [discriminate|]. split; [reflexivity|].
  apply (pre_meeting_plan_feasible true Qred sample_route sample_directory
           sample_scores sample_state world0 w' _ E).
  discriminate.
Defined.

(** The scenario through the repair loop: the first walk over the plan
    [B; A] is accepted and its five segments are contiguous. *)
Lemma repaired_route_contiguous_witness :
  exists plan,
    plan_multi_company_visit [company_A; company_B; company_C] 180 0
      sample_hub sample_venue = Returns plan /\
    exists s' w',
      feasibility_repair true Qred sample_route sample_hub sample_venue 0 180
        plan world0 = (Some s', w') /\
      pre_meeting_route_final s' <> [] /\
      length (pre_meeting_route_final s') = 5%nat /\
      exists arrival hop visit rest,
        final_arrival_time s' = Some arrival /\
        pre_meeting_route_final s' = hop :: visit :: rest /\
        alternating 0 (pre_meeting_route_final s') arrival.
Proof.
  eexists. split; [vm_compute; reflexivity|].
  match goal with
  | |- context [feasibility_repair ?k ?r ?o ?h ?v ?t ?l ?p ?w] =>
      destruct (feasibility_repair k r o h v t l p w) as [out w'] eqn:R
  end.
  pose proof R as R'. vm_compute in R'. inversion R' as [[Es Ew]]. clear R'.
  subst out w'.
  eexists _, _. split; [exact R|].
  split; [discriminate|]. split; [reflexivity|].
  refine (repaired_route_contiguous true Qred sample_route sample_hub
            sample_venue 0 180 _ world0 _ _ R _).
  discriminate.
Defined.

(** The merge step on the scenario, with an answer for B that is not a
    number: nothing raises and B is not handed to the ranking. *)
Lemma score_merge_outcome_witness :
  exists pool w_pool,
    candidate_pool true Qred sample_route sample_directory sample_hub
      sample_venue 40 180 world0 = (pool, w_pool) /\
    map name pool = ["A"; "B"; "C"] /\
    let answers := scores_with_a_bad_value pool 180 in
    let outcome := merge_scores (companies_by_name pool) answers in
    (exists merged, outcome = Returns merged /\ map name merged = ["A"; "C"]) /\
    (outcome = Raises <->
     exists item,
       In item answers /\ lacks_a_key (companies_by_name pool) item)
    /\ (forall merged,
          outcome = Returns merged ->
          (forall m, In m merged ->
             fully_scored m /\ S_final m = None /\
             (exists c, In c pool /\ name c = name m /\ stems_from m c /\
                        admitted true Qred sample_route sample_hub
                          sample_venue 180 c) /\
             (exists item a f,
                In item answers /\
                scored_name item = Some (name m) /\
                scored_S_attract item = field_number a /\
                scored_S_feas item = field_number f /\
                S_attract m = Some a /\ S_feas m = Some f))
          /\ (forall hub_arrival_dt plan,
                plan_multi_company_visit merged 180 hub_arrival_dt
                  sample_hub sample_venue = Returns plan ->
                forall v, In v plan ->
                  exists m, In m merged /\ visit_name v = name m /\
                            visit_location v = location m /\ fully_scored m)).
Proof.
  destruct (candidate_pool true Qred sample_route sample_directory sample_hub
              sample_venue 40 180 world0) as [pool w_pool] eqn:P.
  pose proof P as P'. vm_compute in P'. inversion P' as [[Ep Ew]]. clear P'.
  subst pool w_pool.
  eexists _, _. split; [exact P|]. split; [reflexivity|].
  split; [eexists; split; [vm_compute; reflexivity|reflexivity]|].
  exact (score_merge_outcome true Qred sample_route sample_directory
           scores_with_a_bad_value sample_hub sample_venue 40 180 world0 _ _ P).
Defined.

(** A chain that names flight CZ9999 when only MU5331 is offered: the run
    stops after [select_transport_by_llm] with an error message. *)
Lemma unmatched_choice_ends_the_run_witness :
  exists w',
    chain_answers true Qred sample_route stray_chain sample_geocode
      sample_state_before_choice world0
      (chain_dict (Some "CZ9999") (Some "Flight")) w' /\
    matches_no_offer (Some "CZ9999") (Some "Flight")
      (transport_options_of sample_state_before_choice) /\
    selected_option_raw sample_state_before_choice = None /\
    exists update state',
      select_transport_by_llm true Qred sample_route stray_chain
        sample_geocode sample_state_before_choice world0
        = (Returns update, w') /\
      (forall offer, ~ In (set_selected_option_raw offer) update) /\
      state' = merge update sample_state_before_choice /\
      selected_option_raw state' = None /\
      has_error state' = true /\
      decide_after_llm_select state' = None /\
      invoke true Qred sample_route sample_directory stray_chain
        sample_scores sample_geocode idle_node idle_node idle_node
        idle_node idle_node idle_node 10 n_select_transport_by_llm
        sample_state_before_choice [] world0
        = (Returns state', [n_select_transport_by_llm], w') /\
      ~ In n_calculate_final_transport [n_select_transport_by_llm].
Proof.
  assert (CA : chain_answers true Qred sample_route stray_chain sample_geocode
                 sample_state_before_choice world0
                 (chain_dict (Some "CZ9999") (Some "Flight"))
                 {| requests := 2; sleeps := [] |}).
  { unfold chain_answers.
    eexists sample_user, (sample_site 7 "家"), sample_venue, sample_offer, [],
            "虹桥机场", "宝安机场", (6, 1), (6, 1), (Some 40), (Some 40), _.
    repeat split; reflexivity. }
  assert (NM : matches_no_offer (Some "CZ9999") (Some "Flight")
                 (transport_options_of sample_state_before_choice)).
  { intros opt [E|[]]. subst opt. reflexivity. }
  eexists. split; [exact CA|]. split; [exact NM|]. split; [reflexivity|].
  exact (unmatched_choice_ends_the_run true Qred sample_route sample_directory
           stray_chain sample_scores sample_geocode idle_node idle_node
           idle_node idle_node idle_node idle_node
           sample_state_before_choice world0 _ _ _ 9 CA NM eq_refl).
Defined.

(** The scenario's three companies score 6.9, 9.2 and -5.75: fed in two
    different orders they give the same plan. *)
Lemma visit_order_unique_without_ties_witness :
  Permutation [company_A; company_B; company_C]
              [company_C; company_A; company_B] /\
  distinct_scores 180 [company_A; company_B; company_C] /\
  plan_multi_company_visit [company_A; company_B; company_C] 180 0
    sample_hub sample_venue
  = plan_multi_company_visit [company_C; company_A; company_B] 180 0
      sample_hub sample_venue.
Proof.
  assert (P : Permutation [company_A; company_B; company_C]
                          [company_C; company_A; company_B]).
  { apply Permutation_sym.
    apply (Permutation_cons_app [company_A; company_B] [] company_C).
    reflexivity. }
  assert (D : distinct_scores 180 [company_A; company_B; company_C]).
  { cbn [distinct_scores]. repeat split;
      intros c' k k' I K K' E;
      repeat (destruct I as [I|I]; [subst c'|]); try contradiction;
      vm_compute in K; vm_compute in K';
      inversion K; inversion K'; subst k k';
      vm_compute in E; discriminate. }
  split; [exact P|]. split; [exact D|].
  exact (visit_order_unique_without_ties _ _ 180 0 sample_hub sample_venue P D).
Defined.

(** C9, against the claim as stated. B and D have different names and the
    same composite score; the two orderings of this one set of candidates
    are visited in two different orders. *)
Lemma visit_order_depends_on_input_order :
  NoDup (map name [company_B; company_D]) /\
  Permutation [company_B; company_D] [company_D; company_B] /\
  final_score 180 company_B = final_score 180 company_D /\
  (exists plan,
     plan_multi_company_visit [company_B; company_D] 180 0
       sample_hub sample_venue = Returns plan /\
     map visit_name plan = ["B"; "D"]) /\
  (exists plan,
     plan_multi_company_visit [company_D; company_B] 180 0
       sample_hub sample_venue = Returns plan /\
     map visit_name plan = ["D"; "B"]) /\
  plan_multi_company_visit [company_B; company_D] 180 0
    sample_hub sample_venue
  <> plan_multi_company_visit [company_D; company_B] 180 0
       sample_hub sample_venue.
Proof.
  split.
  { constructor; [intros [H|[]]; discriminate|].
    constructor; [intros []|constructor]. }
  split; [apply perm_swap|].
  split; [reflexivity|].
  split; [eexists; split; [vm_compute; reflexivity|reflexivity]|].
  split; [eexists; split; [vm_compute; reflexivity|reflexivity]|].
  vm_compute. discriminate.
Qed.

(** C5, on the scenario. The plan puts A after B and charges A the 20
    minutes of its own hub leg: A's visit starts at 55 + 20, although the
    routing client answers 30 minutes for the hop from B to A. The greedy
    pass takes no routing service at all. *)
Theorem greedy_pass_reuses_the_hub_leg :
  T_hub_to_i company_A = Some 20 /\
  fst (get_amap_driving_time true Qred sample_route
         (location company_B) (location company_A) world0) = Some 30 /\
  exists visit_B visit_A,
    plan_multi_company_visit [company_A; company_B; company_C] 180 0
      sample_hub sample_venue = Returns [visit_B; visit_A] /\
    visit_name visit_B = "B" /\
    visit_name visit_A = "A" /\
    visit_end_time visit_B == 55 /\
    visit_start_time visit_A == visit_end_time visit_B + 20 /\
    ~ visit_start_time visit_A == visit_end_time visit_B + 30.
Proof.
  split; [reflexivity|]. split; [reflexivity|].
  eexists _, _. split; [vm_compute; reflexivity|].
  cbn [visit_name visit_end_time visit_start_time].
  repeat split; try reflexivity.
  vm_compute. discriminate.
Qed.


(** C7, on the scenario's directory. With the key configured, a hub whose
    coordinates are absent still gets every company of its city: the routing
    client is never asked, answers its 35-minute fallback, and the three
    entries are admitted under a 45-minute radius with that figure. *)
Theorem unresolved_center_admits_entries :
  loc_lat unresolved_hub = None /\
  loc_lon unresolved_hub = None /\
  exists nearby,
    filter_companies_by_area_by_time true Qred sample_route sample_directory
      unresolved_hub 45 world0 = (nearby, world0) /\
    map name nearby = ["A"; "B"; "C"] /\
    map driving_time_min nearby = [Some 35; Some 35; Some 35].
Proof.
  split; [reflexivity|]. split; [reflexivity|].
  eexists. split; [vm_compute; reflexivity|]. split; reflexivity.
Qed.

(** * The further properties, on the scenario *)

(** Rate-limited twice, the client answers the 20 minutes of the third
    response. *)
Lemma get_amap_driving_time_answer_witness :
  fst (get_amap_driving_time true Qred limited_twice sample_hub
         (location company_A) world0) = Some 20 /\
  exists seconds,
    succeeds_with
      (limited_twice 2 (coords_of sample_hub) (coords_of (location company_A)))
      seconds /\
    20 = Qred (inject_Z seconds / 60).
Proof.
  split; [reflexivity|].
  destruct (get_amap_driving_time_answer true Qred limited_twice sample_hub
              (location company_A) world0 20 eq_refl)
    as (_ & [(F & _)|(_ & s & _ & S & T)]).
  - discriminate F.
  - exists s. split; [exact S|exact T].
Defined.

(** With the service jammed after the pool is built, both walks are
    rejected: the route is empty and the arrival reported is the 245 of the
    last rejected walk, past the deadline of 180. *)
Lemma pre_meeting_plan_empty_route_arrival_witness :
  exists r w',
    pre_meeting_plan true Qred jammed_route sample_directory sample_scores
      sample_state world0 = (Returns r, w') /\
    result_pre_meeting_route r = [] /\
    result_final_arrival_at_venue r = Some 245 /\
    (result_final_arrival_at_venue r = None \/
     exists user selected arrival_commute_min,
       user_data sample_state = Some user /\
       selected_transport sample_state = Some selected /\
       arrival_commute_of selected = Some arrival_commute_min /\
       (result_final_arrival_at_venue r
          = Some (end_time selected + arrival_commute_min)
        \/ exists a,
             result_final_arrival_at_venue r = Some a /\
             meeting_start_dt user - POST_ARRIVAL_BUFFER_MINUTES < a)).
Proof.
  destruct (pre_meeting_plan true Qred jammed_route sample_directory
              sample_scores sample_state world0) as [out w'] eqn:E.
  pose proof E as E'. vm_compute in E'. inversion E' as [[Eo Ew]].
  rewrite <- Eo in E.
  eexists _, w'. split; [exact E|].
  split; [reflexivity|]. split; [reflexivity|].
  exact (pre_meeting_plan_empty_route_arrival true Qred jammed_route
           sample_directory sample_scores sample_state world0 w' _ E eq_refl).
Defined.

(** With E, which has no attractiveness score, among the candidates, the
    planner raises. *)
Lemma plan_multi_company_visit_incomplete_witness :
  In company_E [company_A; company_E] /\
  incomplete company_E /\
  S_final company_E = None /\
  plan_multi_company_visit [company_A; company_E] 180 0 sample_hub
    sample_venue = Raises.
Proof.
  assert (I : In company_E [company_A; company_E]) by (right; left; reflexivity).
  assert (Inc : incomplete company_E) by (left; reflexivity).
  split; [exact I|]. split; [exact Inc|]. split; [reflexivity|].
  exact (proj2 (plan_multi_company_visit_incomplete
                  [company_A; company_E] company_E 180 0 sample_hub
                  sample_venue I Inc eq_refl)).
Defined.

(** The scenario's plan, B then A, ends at 120, within the 180 minutes. *)
Lemma plan_multi_company_visit_fits_witness :
  exists plan,
    plan_multi_company_visit [company_A; company_B; company_C] 180 0
      sample_hub sample_venue = Returns plan /\
    map visit_end_time plan = [55; 120] /\
    forall v, In v plan ->
      visit_end_time v = visit_start_time v + COMPANY_VISIT_DURATION_MINUTES /\
      visit_end_time v <= 0 + 180.
Proof.
  destruct (plan_multi_company_visit [company_A; company_B; company_C] 180 0
              sample_hub sample_venue) as [plan|] eqn:P;
    [|vm_compute in P; discriminate].
  pose proof P as P'. vm_compute in P'. inversion P' as [Ep]. clear P'.
  rewrite <- Ep in P.
  eexists. split; [reflexivity|]. split; [reflexivity|].
  exact (plan_multi_company_visit_fits _ 180 0 sample_hub sample_venue _ P).
Defined.

(** The scenario's plan is the first two companies of the ranking B, A, C:
    after A the plan ends at 120, and C, 50 minutes from the hub, would end
    at 215, past the 180 minutes. *)
Lemma plan_multi_company_visit_prefix_witness :
  exists plan,
    plan_multi_company_visit [company_A; company_B; company_C] 180 0
      sample_hub sample_venue = Returns plan /\
    map visit_name plan = ["B"; "A"] /\
    exists ranking,
      Permutation ranking
        (map (fun c => snd (calculate_final_score c 180))
             [company_A; company_B; company_C]) /\
      descending ranking /\
      map visit_name plan = map name (firstn (length plan) ranking) /\
      map visit_location plan = map location (firstn (length plan) ranking) /\
      match skipn (length plan) ranking with
      | [] => True
      | c :: _ =>
          exists hop,
            hop_of (match plan with [] => true | _ => false end) c
              = Returns hop /\
            0 + 180 <= plan_end 0 plan + hop + COMPANY_VISIT_DURATION_MINUTES
      end.
Proof.
  destruct (plan_multi_company_visit [company_A; company_B; company_C] 180 0
              sample_hub sample_venue) as [plan|] eqn:P;
    [|vm_compute in P; discriminate].
  pose proof P as P'. vm_compute in P'. inversion P' as [Ep]. clear P'.
  rewrite <- Ep in P.
  eexists. split; [reflexivity|]. split; [reflexivity|].
  exact (plan_multi_company_visit_prefix _ 180 0 sample_hub sample_venue _ P).
Defined.

(** The chain names MU5331 and the selector hands back the offer of the
    list. *)
Lemma llm_choose_transport_resolves_witness :
  llm_choose_transport faithful_chain [sample_offer] sample_user 40 40
    = Some sample_offer /\
  exists selected_id selected_type before after,
    faithful_chain [sample_offer] 40 40 (departure_date sample_user)
      (meeting_start_dt sample_user)
      (meeting_start_dt sample_user - (PRE_MEETING_BUFFER_MINUTES + 40))
      = chain_dict selected_id selected_type /\
    [sample_offer] = before ++ sample_offer :: after /\
    get_eqb (offer_id sample_offer) selected_id = true /\
    get_eqb (offer_type sample_offer) selected_type = true /\
    forall opt, In opt before ->
      same_offer selected_id selected_type opt = false.
Proof.
  split; [reflexivity|].
  exact (llm_choose_transport_resolves faithful_chain [sample_offer]
           sample_user 40 40 sample_offer eq_refl).
Defined.

(** The selection step on the scenario: two requests, and the offered
    flight selected. *)
Lemma select_transport_by_llm_outcome_witness :
  exists update w',
    select_transport_by_llm true Qred sample_route faithful_chain
      sample_geocode sample_state_before_choice world0
      = (Returns update, w') /\
    update = [set_selected_option_raw sample_offer; set_error_message None] /\
    (requests world0 <= requests w' <= requests world0 + 6)%nat /\
    ((exists msg, update = [set_error_message (Some msg)] /\ msg <> "")
     \/
     (exists offer,
        update = [set_selected_option_raw offer; set_error_message None] /\
        In offer (transport_options_of sample_state_before_choice) /\
        present (departure_time offer) = true)).
Proof.
  destruct (select_transport_by_llm true Qred sample_route faithful_chain
              sample_geocode sample_state_before_choice world0)
    as [out w'] eqn:E.
  pose proof E as E'. vm_compute in E'. inversion E' as [[Eo Ew]].
  rewrite <- Eo in E.
  eexists _, w'. split; [exact E|]. split; [reflexivity|].
  exact (select_transport_by_llm_outcome true Qred sample_route faithful_chain
           sample_geocode sample_state_before_choice world0 w' _ E).
Defined.

(** The scenario's state and value-judgment service meet the conditions. *)
Lemma pre_meeting_plan_returns_witness :
  user_data sample_state = Some sample_user /\
  meeting_location sample_state = Some sample_venue /\
  (forall companies t item,
     In item (sample_scores companies t) -> well_formed item) /\
  exists r w',
    pre_meeting_plan true Qred sample_route sample_directory sample_scores
      sample_state world0 = (Returns r, w').
Proof.
  assert (WF : forall companies t item,
            In item (sample_scores companies t) -> well_formed item).
  { intros companies t item I. unfold sample_scores in I.
    repeat (destruct I as [I|I]; [subst item; repeat split; discriminate|]).
    contradiction. }
  split; [reflexivity|]. split; [reflexivity|]. split; [exact WF|].
  refine (pre_meeting_plan_returns true Qred sample_route sample_directory
            sample_scores sample_state world0 sample_user sample_venue
            eq_refl eq_refl _ WF).
  intros selected E. inversion E; subst. discriminate.
Defined.

(** Company 001 is deleted from the scenario's file and a company D is
    added: D receives the id of C. *)
Lemma add_company_reuses_an_id_witness :
  exists rest added,
    get_companies_by_city sample_city
      (add_company sample_geocode sample_city "D" "D"
         (snd (delete_company sample_city "深圳001" sample_file)))
      = rest ++ [sample_info 4 "C" 3; added] /\
    info_id added = info_id (sample_info 4 "C" 3).
Proof.
  refine (add_company_reuses_an_id sample_geocode sample_city "D" "D"
            "深圳001" sample_file
            [sample_info 2 "A" 1; sample_info 3 "B" 2] (sample_info 4 "C" 3)
            eq_refl eq_refl _ eq_refl).
  intros E. vm_compute in E. discriminate.
Defined.

(** A company D whose address does not geocode is added to the scenario's
    file; in the directory loaded from it, D passes the 45-minute radius
    around the hub on the fallback answer. *)
Lemma ungeocoded_company_passes_the_filter_witness :
  let directory :=
    loaded_directory (add_company failing_geocode sample_city "D" "D" sample_file) in
  let old :=
    filter_loop true Qred sample_route sample_hub 45 sample_city
      (loaded_directory sample_file sample_city) world0 in
  exists c,
    filter_companies_by_area_by_time true Qred sample_route directory
      sample_hub 45 world0
      = (fst old ++ [c], snd old) /\
    name c = "D" /\
    driving_time_min c = Some (Qred 35) /\
    loc_lat (location c) = Some 0 /\
    loc_lon (location c) = Some 0.
Proof.
  refine (ungeocoded_company_passes_the_filter true Qred sample_route
            (loaded_directory
               (add_company failing_geocode sample_city "D" "D" sample_file))
            failing_geocode sample_city "D" "D" sample_file sample_hub 45
            world0 eq_refl eq_refl eq_refl _ _ (fun c => eq_refl)).
  - intros E. vm_compute in E. discriminate.
  - lia.
Defined.

(** The query step on the scenario: one flight found on the meeting day,
    and the graph moves on to the selector. *)
Lemma traffic_query_feeds_the_selector_witness :
  exists update w',
    nodes_traffic_query sample_flights no_trains sample_strftime
      sample_state_before_query world0 = (Returns update, w') /\
    update = [set_flight_options [sample_offer]; set_train_options [];
              set_error_message None] /\
    let state' := merge update sample_state_before_query in
    exists user home_loc meeting_loc,
      user_data sample_state_before_query = Some user /\
      home_location sample_state_before_query = Some home_loc /\
      meeting_location sample_state_before_query = Some meeting_loc /\
      let origin := loc_city home_loc in
      let destination := loc_city meeting_loc in
      let target_date := sample_strftime (meeting_start_dt user) in
      let previous_date := sample_strftime (meeting_start_dt user - 24 * 60) in
      let found :=
        sample_flights origin destination previous_date
        ++ sample_flights origin destination target_date
        ++ no_trains origin destination previous_date
        ++ no_trains origin destination target_date in
      (found = [] /\
       decide_after_traffic_query state' = None /\
       exists msg, update = [set_error_message (Some msg)])
      \/
      (found <> [] /\
       decide_after_traffic_query state' = Some n_select_transport_by_llm /\
       transport_options_of state' = found /\
       forall w1,
         fst (select_transport_by_llm true Qred sample_route faithful_chain
                sample_geocode state' w1)
           <> Returns [set_error_message
                         (Some "交通选择失败：无任何交通选项可供选择。")]).
Proof.
  destruct (nodes_traffic_query sample_flights no_trains sample_strftime
              sample_state_before_query world0) as [out w'] eqn:E.
  pose proof E as E'. vm_compute in E'. inversion E' as [[Eo Ew]].
  rewrite <- Eo in E.
  eexists _, w'. split; [exact E|]. split; [reflexivity|].
  exact (traffic_query_feeds_the_selector true Qred sample_route
           faithful_chain sample_geocode sample_flights no_trains
           sample_strftime sample_state_before_query world0 w' _ E).
Defined.

(** The transport step on the scenario: the offered flight becomes the
    selected transport item, after two routing requests. *)
Lemma calculate_final_transport_outcome_witness :
  exists update w',
    nodes_calculate_final_transport true Qred sample_route sample_geocode
      sample_strptime sample_state world0 = (Returns update, w') /\
    (requests world0 <= requests w' <= requests world0 + 6)%nat /\
    ((exists msg, update = [set_error_message (Some msg)] /\ msg <> ""
                  /\ w' = world0)
     \/
     (exists item raw user meeting_loc home_commute arrival_commute,
        update = [set_selected_transport item; set_user_data user;
                  set_error_message None] /\
        selected_option_raw sample_state = Some raw /\
        user_data sample_state = Some user /\
        meeting_location sample_state = Some meeting_loc /\
        item_type item = transport /\
        loc_city (item_location item) = loc_city meeting_loc /\
        loc_name (item_location item) = arrival_hub raw /\
        present (loc_lat (item_location item)) = true /\
        item_details item
          = details_transport raw home_commute arrival_commute
              (end_time item + arrival_commute) /\
        arrival_commute_of item = Some arrival_commute /\
        ~ home_commute == 0 /\
        ~ arrival_commute == 0)).
Proof.
  destruct (nodes_calculate_final_transport true Qred sample_route
              sample_geocode sample_strptime sample_state world0)
    as [out w'] eqn:E.
  pose proof E as E'. vm_compute in E'. inversion E' as [[Eo Ew]].
  rewrite <- Eo in E.
  eexists _, w'. split; [exact E|].
  exact (calculate_final_transport_outcome true Qred sample_route
           sample_geocode sample_strptime sample_state world0 w' _ E).
Defined.

(** The post-meeting step on the scenario. *)
Lemma post_meeting_plan_route_witness :
  user_data sample_state = Some sample_user /\
  meeting_location sample_state = Some sample_venue /\
  hotel_location sample_state = Some (sample_site 8 "酒店") /\
  exists meeting_item transfer check_in w',
    nodes_post_meeting_plan true Qred sample_route sample_duration
      sample_state world0
      = (Returns [set_post_meeting_route [meeting_item; transfer; check_in];
                  set_error_message None], w') /\
    (requests world0 <= requests w' <= requests world0 + 3)%nat /\
    item_type meeting_item = meeting /\
    item_type transfer = transport /\
    item_type check_in = hotel /\
    start_time meeting_item = meeting_start_dt sample_user /\
    end_time meeting_item
      = meeting_start_dt sample_user
        + 60 * or_default (sample_duration sample_user) 2 /\
    start_time transfer = end_time meeting_item /\
    start_time check_in = end_time transfer /\
    end_time check_in = start_time check_in + 30 /\
    item_location transfer = sample_site 8 "酒店" /\
    item_location check_in = sample_site 8 "酒店" /\
    (exists commute,
       end_time transfer = start_time transfer + commute /\
       item_details transfer = details_duration_min commute /\
       ~ commute == 0 /\
       (true = false -> commute = 30 /\ w' = world0) /\
       (true = true ->
        truthy (loc_lat (sample_site 8 "酒店")) = false ->
        commute = 35 /\ w' = world0)).
Proof.
  split; [reflexivity|]. split; [reflexivity|]. split; [reflexivity|].
  exact (post_meeting_plan_route true Qred sample_route sample_duration
           sample_state world0 sample_user sample_venue
           (sample_site 8 "酒店") eq_refl eq_refl eq_refl).
Defined.

(** The last step on the scenario: the itinerary is the hop, then the
    meeting; the flight is not part of it. *)
Lemma generate_final_itinerary_in_order_witness :
  user_data sample_state_planned = Some sample_user /\
  let routes := get_list (pre_meeting_route sample_state_planned)
                ++ get_list (post_meeting_route sample_state_planned) in
  exists items,
    nodes_generate_final_itinerary sample_report sample_state_planned world0
      = (Returns [set_final_itinerary_report (sample_report sample_user items);
                  set_final_itinerary items;
                  set_error_message None], world0) /\
    Permutation items routes /\
    StronglySorted by_start_time items /\
    (StronglySorted by_start_time routes -> items = routes).
Proof.
  split; [reflexivity|].
  exact (generate_final_itinerary_in_order sample_report sample_state_planned
           world0 sample_user eq_refl).
Defined.

(** The transport step on the scenario is followed by [pre_meeting_plan],
    which returns. *)
Lemma transport_step_feeds_pre_meeting_plan_witness :
  exists update w',
    nodes_calculate_final_transport true Qred sample_route sample_geocode
      sample_strptime sample_state world0 = (Returns update, w') /\
    (forall companies t item,
       In item (sample_scores companies t) -> well_formed item) /\
    let state' := merge update sample_state in
    (has_error state' = false /\
     decide_after_traffic_calculation state' = Some n_pre_meeting_plan /\
     forall w1, exists r w2,
       pre_meeting_plan true Qred sample_route sample_directory sample_scores
         state' w1 = (Returns r, w2))
    \/
    (has_error state' = true /\
     (selected_transport sample_state = None ->
      decide_after_traffic_calculation state' = None)).
Proof.
  assert (WF : forall companies t item,
            In item (sample_scores companies t) -> well_formed item).
  { intros companies t item I. unfold sample_scores in I.
    repeat (destruct I as [I|I]; [subst item; repeat split; discriminate|]).
    contradiction. }
  destruct (nodes_calculate_final_transport true Qred sample_route
              sample_geocode sample_strptime sample_state world0)
    as [out w'] eqn:E.
  pose proof E as E'. vm_compute in E'. inversion E' as [[Eo Ew]].
  rewrite <- Eo in E.
  eexists _, w'. split; [exact E|]. split; [exact WF|].
  exact (transport_step_feeds_pre_meeting_plan true Qred sample_route
           sample_directory sample_scores sample_geocode sample_strptime
           sample_state world0 w' _ E WF).
Defined.

(** Around the hub without coordinates, under a 45-minute radius, the
    filter sends no request and returns the three entries of the city. *)
Lemma unresolved_center_gets_the_fallback_witness :
  truthy (loc_lat unresolved_hub) = false /\
  let out :=
    filter_companies_by_area_by_time true Qred sample_route sample_directory
      unresolved_hub 45 world0 in
  let city := loc_city unresolved_hub in
  snd out = world0 /\
  (city = "" -> fst out = []) /\
  (true = false -> fst out = []) /\
  ((45 < 35)%Z -> fst out = []) /\
  (city <> "" -> true = true -> (35 <= 45)%Z ->
   fst out = annotated city (Qred 35) (sample_directory city)).
Proof.
  split; [reflexivity|].
  exact (unresolved_center_gets_the_fallback true Qred sample_route
           sample_directory unresolved_hub 45 world0 eq_refl).
Defined.
